(** * Paradox serial interface: frame codec, session and frame reader

    A shallow embedding of [paradox/protocol.py], [paradox/connection.py],
    [paradox/commands.py] and [paradox/panel.py], followed by the properties
    of the protocol core.

    Conventions.
    - A Python [int] is a [Z]; a [bytes]/[bytearray] value is a [list Z] whose
      elements lie in [0, 256).  The range checks Python performs when a
      value is stored into a [bytearray] are written out.
    - A Python [str] is a [string]; one [ascii] stands for one code point in
      U+0000..U+00FF (code points above U+00FF are outside the model).
    - A function that can raise returns a [result]; a method that mutates
      its object is a state transformer [M S A] returning the outcome and
      the new object.  A mutation made before an exception is kept.
    - A loop bounded by wall-clock time takes the number of iterations it is
      granted as an argument ([polls]). *)

From stdpp Require Import gmap strings list pretty.
From Stdlib Require Import Ascii.

Local Open Scope Z_scope.

(** ** Python runtime *)

Inductive exn : Type :=
  | ValueError (msg : string)
  | IndexError (msg : string)
  | TypeError (msg : string)
  | AttributeError (msg : string)
  | KeyError (msg : string)
  | SerialException (msg : string)
  | StreamError
  | ConstError.

Inductive result (A : Type) : Type :=
  | Ok (a : A)
  | Raise (e : exn).
Arguments Ok {A} a.
Arguments Raise {A} e.

Global Instance result_ret : MRet result := @Ok.
Global Instance result_bind : MBind result := λ A B k r,
  match r with
  | Ok a => k a
  | Raise e => Raise e
  end.

(** [try: r except Exception: handler] *)
Definition try_except {A : Type} (r : result A) (handler : exn → result A) : result A :=
  match r with
  | Ok a => Ok a
  | Raise e => handler e
  end.

(** Methods: state and exceptions. *)
Definition M (S A : Type) : Type := S → result A * S.

Global Instance M_ret {S} : MRet (M S) := λ A a s, (Ok a, s).
Global Instance M_bind {S} : MBind (M S) := λ A B k m s,
  match m s with
  | (Ok a, s') => k a s'
  | (Raise e, s') => (Raise e, s')
  end.

Definition get {S} : M S S := λ s, (Ok s, s).
Definition raise {S A} (e : exn) : M S A := λ s, (Raise e, s).
Definition lift {S A} (r : result A) : M S A := λ s, (r, s).

Definition is_byte (v : Z) : Prop := 0 <= v < 256.
Definition is_byteb (v : Z) : bool := (0 <=? v) && (v <? 256).

(** [bytearray(n)]: [n] zero bytes. *)
Definition bytearray (n : nat) : list Z := replicate n 0.

(** [data[i] = v] on a bytearray, for a literal index [i >= 0]: the index is
    checked first, then the value. *)
Definition setitem (data : list Z) (i : nat) (v : Z) : result (list Z) :=
  if (i <? length data)%nat then
    if is_byteb v then Ok (<[i:=v]> data)
    else Raise (ValueError "byte must be in range(0, 256)")
  else Raise (IndexError "bytearray index out of range").

(** [data[lo:hi] = values] on a bytearray: the slice is replaced by
    [values], whatever their number. *)
Definition setslice (data : list Z) (lo hi : nat) (values : list Z) : result (list Z) :=
  if forallb is_byteb values then
    Ok (take lo data ++ values ++ drop (Nat.max lo hi) data)
  else Raise (ValueError "byte must be in range(0, 256)").

(** [data[lo:hi]] *)
Definition slice {A} (data : list A) (lo hi : nat) : list A :=
  take (hi - lo) (drop lo data).

(** [sum(data)] *)
Definition sum (data : list Z) : Z := foldr Z.add 0 data.

(** [bytes(values)]: every value must be a byte. *)
Definition bytes (values : list Z) : result (list Z) :=
  if forallb is_byteb values then Ok values
  else Raise (ValueError "bytes must be in range(0, 256)").

(** Code points of a [str]. *)
Definition ord (c : ascii) : Z := Z.of_N (N_of_ascii c).
Definition chr (v : Z) : ascii := ascii_of_N (Z.to_N v).
Definition code_points (s : string) : list Z := ord <$> String.list_ascii_of_string s.

(** *** [int(s, 16)]

    CPython first maps every non-ASCII white space to a blank and every other
    non-ASCII character that is no decimal digit to [?]; then it reads
    blanks, a sign, an optional [0x] prefix, hexadecimal digits that single
    underscores may separate, and blanks again. *)

Definition Py_ISSPACE (c : Z) : bool := ((9 <=? c) && (c <=? 13)) || (c =? 32).

Definition transform_space (c : Z) : Z :=
  if c <? 127 then c
  else if (c =? 0x85) || (c =? 0xA0) then 32
  else 63.

Definition digit_value (c : Z) : option Z :=
  if (48 <=? c) && (c <=? 57) then Some (c - 48)
  else if (97 <=? c) && (c <=? 122) then Some (c - 87)
  else if (65 <=? c) && (c <=? 90) then Some (c - 55)
  else None.

Fixpoint skip_spaces (s : list Z) : list Z :=
  match s with
  | c :: s' => if Py_ISSPACE c then skip_spaces s' else s
  | [] => []
  end.

Definition skip_sign (s : list Z) : Z * list Z :=
  match s with
  | 43 :: s' => (1, s')
  | 45 :: s' => (-1, s')
  | _ => (1, s)
  end.

Definition skip_prefix_16 (s : list Z) : list Z :=
  match s with
  | 48 :: x :: s' =>
      if (x =? 120) || (x =? 88) then
        match s' with
        | 95 :: s'' => s''
        | _ => s'
        end
      else s
  | _ => s
  end.

(** The digit loop: [prev] tells whether the previous character was an
    underscore; the result is the value read and the rest of the text, or
    [None] for a doubled or trailing underscore. *)
Fixpoint scan_digits (base acc : Z) (prev : bool) (s : list Z) : option (Z * list Z) :=
  match s with
  | c :: s' =>
      if c =? 95 then
        if prev then None else scan_digits base acc true s'
      else
        match digit_value c with
        | Some d =>
            if d <? base then scan_digits base (acc * base + d) false s'
            else if prev then None else Some (acc, s)
        | None => if prev then None else Some (acc, s)
        end
  | [] => if prev then None else Some (acc, [])
  end.

Definition invalid_literal : exn := ValueError "invalid literal for int() with base 16".

Definition int_16 (text : string) : result Z :=
  let s := skip_spaces (transform_space <$> code_points text) in
  let '(sign, s) := skip_sign s in
  let s := skip_prefix_16 s in
  match s with
  | 95 :: _ => Raise invalid_literal
  | _ =>
      match scan_digits 16 0 false s with
      | None => Raise invalid_literal
      | Some (v, rest) =>
          if (length rest =? length s)%nat then Raise invalid_literal
          else
            match skip_spaces rest with
            | [] => Ok (sign * v)
            | _ => Raise invalid_literal
            end
      end
  end.

(** [s[lo:hi]] on a [str] *)
Definition str_slice (s : string) (lo hi : nat) : string :=
  String.string_of_list_ascii (slice (String.list_ascii_of_string s) lo hi).

(** [b.decode('ascii', errors='ignore')]: bytes above 127 are dropped. *)
Definition decode_ascii_ignore (b : list Z) : list ascii :=
  chr <$> filter (λ v, v < 128) b.

Fixpoint lstrip (c : ascii) (s : list ascii) : list ascii :=
  match s with
  | x :: s' => if Ascii.eqb x c then lstrip c s' else s
  | [] => []
  end.

(** [s.strip(c)] for a one-character [c] *)
Definition strip (c : ascii) (s : list ascii) : list ascii :=
  reverse (lstrip c (reverse (lstrip c s))).

(** *** [format(v, '0<width>X')]

    Upper-case hexadecimal digits of the magnitude, filled with zeros on the
    left up to [width] characters, the sign of a negative number counted in
    and written first. *)

Definition hex_digit (d : Z) : ascii :=
  if d <? 10 then chr (48 + d) else chr (55 + d).

Fixpoint hex_digits (fuel : nat) (n : Z) : list ascii :=
  match fuel with
  | O => []
  | S fuel' =>
      if n <? 16 then [hex_digit n]
      else hex_digits fuel' (n / 16) ++ [hex_digit (n mod 16)]
  end.

Definition zfill (width : nat) (digits : list ascii) : list ascii :=
  replicate (width - length digits) "0"%char ++ digits.

Definition format_0X (width : nat) (v : Z) : string :=
  let digits := hex_digits (S (Z.to_nat (Z.log2 (Z.abs v)))) (Z.abs v) in
  String.string_of_list_ascii
    (if v <? 0 then "-"%char :: zfill (width - 1) digits else zfill width digits).

(** ** The [construct] binary parsers used by [protocol.py] *)

Module construct.

Definition Construct (A : Type) : Type := list Z → result (A * list Z).

Global Instance Construct_ret : MRet Construct := λ A a s, Ok (a, s).
Global Instance Construct_bind : MBind Construct := λ A B k c s,
  match c s with
  | Ok (a, s') => k a s'
  | Raise e => Raise e
  end.

Definition Int8ub : Construct Z := λ s,
  match s with
  | b :: s' => Ok (b, s')
  | [] => Raise StreamError
  end.

Definition Int16ub : Construct Z :=
  hi ← Int8ub; lo ← Int8ub; mret (hi * 256 + lo).

Definition Bytes (n : nat) : Construct (list Z) := λ s,
  if (length s <? n)%nat then Raise StreamError else Ok (take n s, drop n s).

Definition Padding (n : nat) : Construct unit :=
  _ ← Bytes n; mret tt.

Definition error {A} (e : exn) : Construct A := λ _, Raise e.

Definition Const (value : Z) (subcon : Construct Z) : Construct Z :=
  obj ← subcon;
  if obj =? value then mret obj else error ConstError.

(** An [Enum] decodes a known code to a string that remembers its integer
    ([EnumIntegerString]) and any other code to the integer itself. *)
Inductive EnumValue : Type :=
  | EnumIntegerString (intvalue : Z) (name : string)
  | EnumInteger (intvalue : Z).

Definition intvalue (v : EnumValue) : Z :=
  match v with
  | EnumIntegerString i _ => i
  | EnumInteger i => i
  end.

(** The decoding table of [Enum(subcon, **mapping)]: of two names with the
    same code the later one stays. *)
Definition decmapping (mapping : list (string * Z)) : gmap Z string :=
  foldl (λ m kv, <[kv.2 := kv.1]> m) ∅ mapping.

Definition Enum_decode (mapping : list (string * Z)) (obj : Z) : EnumValue :=
  match decmapping mapping !! obj with
  | Some name => EnumIntegerString obj name
  | None => EnumInteger obj
  end.

Definition Enum (subcon : Construct Z) (mapping : list (string * Z)) : Construct EnumValue :=
  obj ← subcon; mret (Enum_decode mapping obj).

(** [con.parse(data)]: trailing bytes are not an error. *)
Definition parse {A} (con : Construct A) (data : list Z) : result A :=
  match con data with
  | Ok (a, _) => Ok a
  | Raise e => Raise e
  end.

End construct.

(** ** [paradox/protocol.py] *)

Module protocol.
Import construct.

(** *** Checksums *)

Definition calculate_checksum (data : list Z) : Z := sum data mod 256.

(** *** Enumerations *)

Definition ProductIdEnum : Construct EnumValue :=
  Enum Int8ub
    [("DIGIPLEX_DGP2_48_NE", 0); ("DIGIPLEX_DGP2_72_NE", 1);
     ("DIGIPLEX_DGP2_96_NE", 2); ("DIGIPLEX_DGP2_112_NE", 3);
     ("DIGIPLEX_DGP2_816_NE", 4); ("DIGIPLEX_DGP2_248_NE", 5);
     ("MAGELLAN_MG5000", 2); ("MAGELLAN_MG5050", 4); ("SPECTRA_SP4000", 5);
     ("SPECTRA_SP5500", 21); ("SPECTRA_SP6000", 22); ("SPECTRA_SP7000", 23);
     ("SPECTRA_SP65", 24)].

Definition CommunicationSourceIDEnum : Construct EnumValue :=
  Enum Int8ub
    [("BOOT_LOADER", 0); ("PANEL_APP", 1); ("NEware", 2); ("IP100", 4);
     ("Winload", 5); ("WinloadApp", 6); ("default", 1)].

(** *** Action codes *)

Definition PARTITION_ACTIONS : gmap string Z :=
  list_to_map
    [("arm_stay", 0x01); ("arm_sleep", 0x02); ("arm", 0x04); ("disarm", 0x05);
     ("arm_stay_instant", 0x06); ("arm_instant", 0x07)].

Definition ZONE_ACTIONS : gmap string Z :=
  list_to_map [("bypass", 0x10); ("clear_bypass", 0x10)].

Definition PGM_ACTIONS : gmap string Z :=
  list_to_map
    [("on", 0x32); ("off", 0x33); ("on_override", 0x34); ("off_override", 0x35)].

(** The tables in the order they are written, for the code that walks
    through them. *)
Definition PARTITION_ACTIONS_items : list (string * Z) :=
  [("arm_stay", 0x01); ("arm_sleep", 0x02); ("arm", 0x04); ("disarm", 0x05);
   ("arm_stay_instant", 0x06); ("arm_instant", 0x07)].

Definition ZONE_ACTIONS_items : list (string * Z) :=
  [("bypass", 0x10); ("clear_bypass", 0x10)].

Definition PGM_ACTIONS_items : list (string * Z) :=
  [("on", 0x32); ("off", 0x33); ("on_override", 0x34); ("off_override", 0x35)].

(** *** Message layouts

    The nesting [fields]/[po] of the parsed containers is flattened: the
    members of [po] carry the prefix [po_]. *)

Record FirmwareVersion : Type :=
  { version : Z; revision : Z; minor : Z }.

Definition firmware_version_struct : Construct FirmwareVersion :=
  version ← Int8ub;
  revision ← Int8ub;
  minor ← Int8ub;
  mret {| version := version; revision := revision; minor := minor |}.

Module InitiateCommunication.
Record t : Type :=
  { po_command : Z; user_id : Z; checksum : Z }.
Definition struct : Construct t :=
  po_command ← Const 0x72 Int8ub;
  _ ← Padding 34;
  user_id ← Int8ub;
  checksum ← Int8ub;
  mret {| po_command := po_command; user_id := user_id; checksum := checksum |}.
Definition parse : list Z → result t := construct.parse struct.
End InitiateCommunication.

Module InitiateCommunicationResponse.
Record t : Type :=
  { po_command : Z; po_result : Z; reserved_0 : list Z;
    product_id : EnumValue; firmware_version : FirmwareVersion;
    panel_id : Z; pc_password : list Z; modem_speed : Z;
    reserved_1 : list Z; source_id : Z; user_id : Z;
    receiver_line : list Z; reserved_2 : list Z; checksum : Z }.
Definition struct : Construct t :=
  po_command ← Const 0x72 Int8ub;
  po_result ← Const 0xFF Int8ub;
  reserved_0 ← Bytes 4;
  product_id ← ProductIdEnum;
  firmware_version ← firmware_version_struct;
  panel_id ← Int16ub;
  pc_password ← Bytes 2;
  modem_speed ← Int8ub;
  reserved_1 ← Bytes 14;
  source_id ← Int8ub;
  user_id ← Int8ub;
  receiver_line ← Bytes 4;
  reserved_2 ← Bytes 1;
  checksum ← Int8ub;
  mret {| po_command := po_command; po_result := po_result;
          reserved_0 := reserved_0; product_id := product_id;
          firmware_version := firmware_version; panel_id := panel_id;
          pc_password := pc_password; modem_speed := modem_speed;
          reserved_1 := reserved_1; source_id := source_id;
          user_id := user_id; receiver_line := receiver_line;
          reserved_2 := reserved_2; checksum := checksum |}.
Definition parse : list Z → result t := construct.parse struct.
End InitiateCommunicationResponse.

Module InitializeCommunication_MGSP.
Record t : Type :=
  { po_command : Z; product_id : EnumValue;
    firmware_version : FirmwareVersion; panel_id : Z;
    pc_password : list Z; reserved_0 : list Z; source_id : EnumValue;
    user_id : Z; reserved_1 : list Z; checksum : Z }.
Definition struct : Construct t :=
  po_command ← Const 0x00 Int8ub;
  product_id ← ProductIdEnum;
  firmware_version ← firmware_version_struct;
  panel_id ← Int16ub;
  pc_password ← Bytes 2;
  reserved_0 ← Bytes 3;
  source_id ← CommunicationSourceIDEnum;
  user_id ← Const 0x00 Int8ub;
  reserved_1 ← Bytes 19;
  checksum ← Int8ub;
  mret {| po_command := po_command; product_id := product_id;
          firmware_version := firmware_version; panel_id := panel_id;
          pc_password := pc_password; reserved_0 := reserved_0;
          source_id := source_id; user_id := user_id;
          reserved_1 := reserved_1; checksum := checksum |}.
Definition parse : list Z → result t := construct.parse struct.
End InitializeCommunication_MGSP.

Module InitializeCommunicationResponse_MGSP.
Record t : Type :=
  { po_command : Z; reserved_0 : list Z; user_id : Z; checksum : Z }.
Definition struct : Construct t :=
  po_command ← Int8ub;
  reserved_0 ← Bytes 33;
  user_id ← Int8ub;
  checksum ← Int8ub;
  mret {| po_command := po_command; reserved_0 := reserved_0;
          user_id := user_id; checksum := checksum |}.
Definition parse : list Z → result t := construct.parse struct.
End InitializeCommunicationResponse_MGSP.

Module PerformAction.
Record t : Type :=
  { po_command : Z; reserved_0 : list Z; action : Z; argument : Z;
    reserved_1 : list Z; source_id : EnumValue; user_id : Z; checksum : Z }.
Definition struct : Construct t :=
  po_command ← Const 0x40 Int8ub;
  reserved_0 ← Bytes 3;
  action ← Int8ub;
  argument ← Int8ub;
  reserved_1 ← Bytes 27;
  source_id ← CommunicationSourceIDEnum;
  user_id ← Int8ub;
  checksum ← Int8ub;
  mret {| po_command := po_command; reserved_0 := reserved_0;
          action := action; argument := argument; reserved_1 := reserved_1;
          source_id := source_id; user_id := user_id; checksum := checksum |}.
Definition parse : list Z → result t := construct.parse struct.
End PerformAction.

Module PerformActionResponse.
Record t : Type :=
  { po_command : Z; reserved_0 : list Z; user_id : Z; checksum : Z }.
Definition struct : Construct t :=
  po_command ← Int8ub;
  reserved_0 ← Bytes 33;
  user_id ← Int8ub;
  checksum ← Int8ub;
  mret {| po_command := po_command; reserved_0 := reserved_0;
          user_id := user_id; checksum := checksum |}.
Definition parse : list Z → result t := construct.parse struct.
End PerformActionResponse.

Module ReadEEPROM.
Record t : Type :=
  { po_command : Z; reserved_0 : list Z; address : Z; records : Z;
    reserved_1 : list Z; source_id : EnumValue; user_id : Z; checksum : Z }.
Definition struct : Construct t :=
  po_command ← Const 0x50 Int8ub;
  reserved_0 ← Bytes 1;
  address ← Int16ub;
  records ← Int8ub;
  reserved_1 ← Bytes 28;
  source_id ← CommunicationSourceIDEnum;
  user_id ← Int8ub;
  checksum ← Int8ub;
  mret {| po_command := po_command; reserved_0 := reserved_0;
          address := address; records := records; reserved_1 := reserved_1;
          source_id := source_id; user_id := user_id; checksum := checksum |}.
Definition parse : list Z → result t := construct.parse struct.
End ReadEEPROM.

Module ReadEEPROMResponse.
Record t : Type :=
  { po_command : Z; reserved_0 : list Z; address : Z; records : Z;
    data : list Z; checksum : Z }.
Definition struct : Construct t :=
  po_command ← Int8ub;
  reserved_0 ← Bytes 1;
  address ← Int16ub;
  records ← Int8ub;
  data ← Bytes (32 - 5);
  checksum ← Int8ub;
  mret {| po_command := po_command; reserved_0 := reserved_0;
          address := address; records := records; data := data;
          checksum := checksum |}.
Definition parse : list Z → result t := construct.parse struct.
End ReadEEPROMResponse.

Module LiveEvent.
Record t : Type :=
  { po_command : Z; reserved_0 : list Z; event_group : Z; event_1 : Z;
    event_2 : Z; partition : Z; module_serial : list Z; label_type : Z;
    label : list Z; reserved_1 : list Z; user_id : Z; checksum : Z }.
Definition struct : Construct t :=
  po_command ← Int8ub;
  reserved_0 ← Bytes 1;
  event_group ← Int8ub;
  event_1 ← Int8ub;
  event_2 ← Int8ub;
  partition ← Int8ub;
  module_serial ← Bytes 4;
  label_type ← Int8ub;
  label ← Bytes 16;
  reserved_1 ← Bytes 6;
  user_id ← Int8ub;
  checksum ← Int8ub;
  mret {| po_command := po_command; reserved_0 := reserved_0;
          event_group := event_group; event_1 := event_1;
          event_2 := event_2; partition := partition;
          module_serial := module_serial; label_type := label_type;
          label := label; reserved_1 := reserved_1; user_id := user_id;
          checksum := checksum |}.
Definition parse : list Z → result t := construct.parse struct.
End LiveEvent.

(** *** Generic parser *)

(** The layout objects that [get_parser_by_command] hands out. *)
Inductive Struct : Type :=
  | InitiateCommunicationResponse
  | InitializeCommunication_MGSP
  | InitializeCommunicationResponse_MGSP
  | PerformAction
  | PerformActionResponse
  | ReadEEPROM
  | ReadEEPROMResponse
  | LiveEvent.

(** What [parser.parse(data)] returns, by layout. *)
Inductive Container : Type :=
  | InitiateCommunicationResponse_c (c : InitiateCommunicationResponse.t)
  | InitializeCommunication_MGSP_c (c : InitializeCommunication_MGSP.t)
  | InitializeCommunicationResponse_MGSP_c (c : InitializeCommunicationResponse_MGSP.t)
  | PerformAction_c (c : PerformAction.t)
  | PerformActionResponse_c (c : PerformActionResponse.t)
  | ReadEEPROM_c (c : ReadEEPROM.t)
  | ReadEEPROMResponse_c (c : ReadEEPROMResponse.t)
  | LiveEvent_c (c : LiveEvent.t).

Definition Struct_parse (parser : Struct) (data : list Z) : result Container :=
  match parser with
  | InitiateCommunicationResponse =>
      c ← InitiateCommunicationResponse.parse data; mret (InitiateCommunicationResponse_c c)
  | InitializeCommunication_MGSP =>
      c ← InitializeCommunication_MGSP.parse data; mret (InitializeCommunication_MGSP_c c)
  | InitializeCommunicationResponse_MGSP =>
      c ← InitializeCommunicationResponse_MGSP.parse data;
      mret (InitializeCommunicationResponse_MGSP_c c)
  | PerformAction =>
      c ← PerformAction.parse data; mret (PerformAction_c c)
  | PerformActionResponse =>
      c ← PerformActionResponse.parse data; mret (PerformActionResponse_c c)
  | ReadEEPROM =>
      c ← ReadEEPROM.parse data; mret (ReadEEPROM_c c)
  | ReadEEPROMResponse =>
      c ← ReadEEPROMResponse.parse data; mret (ReadEEPROMResponse_c c)
  | LiveEvent =>
      c ← LiveEvent.parse data; mret (LiveEvent_c c)
  end.

Definition parsers : gmap Z Struct :=
  list_to_map
    [(0x72, InitiateCommunicationResponse);
     (0x00, InitializeCommunication_MGSP);
     (0x10, InitializeCommunicationResponse_MGSP);
     (0x70, InitializeCommunicationResponse_MGSP);
     (0x40, PerformAction);
     (0x50, ReadEEPROM)].

Definition get_parser_by_command (command_byte : Z) : option Struct :=
  if (0x40 <=? command_byte) && (command_byte <=? 0x4F) then Some PerformActionResponse
  else if (0x50 <=? command_byte) && (command_byte <=? 0x5F) then Some ReadEEPROMResponse
  else if (0xE0 <=? command_byte) && (command_byte <=? 0xEF) then Some LiveEvent
  else parsers !! command_byte.

Definition parse_message (data : list Z) : option Container :=
  if (length data <? 2)%nat then None
  else
    match data with
    | [] => None
    | command_byte :: _ =>
        match get_parser_by_command command_byte with
        | None => None
        | Some parser =>
            match Struct_parse parser data with
            | Ok parsed => Some parsed
            | Raise _ => None
            end
        end
    end.

(** *** Builders *)

Definition build_initiate_communication (user_id : Z) : result (list Z) :=
  let data := bytearray 37 in
  data ← setitem data 0 0x72;
  data ← setitem data 35 user_id;
  data ← setitem data 36 (calculate_checksum (slice data 0 36));
  Ok data.

Definition build_initialize_communication_mgsp
    (product_id : Z) (firmware_version : Z * Z * Z) (panel_id : Z)
    (pc_password_bytes : list Z) (source_id user_id : Z) : result (list Z) :=
  let data := bytearray 37 in
  data ← setitem data 0 0x00;
  data ← setitem data 1 product_id;
  data ← setitem data 2 (firmware_version.1.1);
  data ← setitem data 3 (firmware_version.1.2);
  data ← setitem data 4 (firmware_version.2);
  data ← setitem data 5 (Z.land (Z.shiftr panel_id 8) 0xFF);
  data ← setitem data 6 (Z.land panel_id 0xFF);
  data ← setslice data 7 9 pc_password_bytes;
  data ← setitem data 12 source_id;
  data ← setitem data 13 user_id;
  data ← setitem data 35 user_id;
  data ← setitem data 36 (calculate_checksum (slice data 0 36));
  Ok data.

Definition build_perform_action (action argument source_id user_id : Z) : result (list Z) :=
  let data := bytearray 37 in
  data ← setitem data 0 0x40;
  data ← setitem data 4 action;
  data ← setitem data 5 argument;
  data ← setitem data 33 source_id;
  data ← setitem data 34 user_id;
  data ← setitem data 35 user_id;
  data ← setitem data 36 (calculate_checksum (slice data 0 36));
  Ok data.

Definition build_read_eeprom (address records source_id user_id : Z) : result (list Z) :=
  let data := bytearray 37 in
  data ← setitem data 0 0x50;
  data ← setitem data 2 (Z.land (Z.shiftr address 8) 0xFF);
  data ← setitem data 3 (Z.land address 0xFF);
  data ← setitem data 4 records;
  data ← setitem data 33 source_id;
  data ← setitem data 34 user_id;
  data ← setitem data 35 user_id;
  data ← setitem data 36 (calculate_checksum (slice data 0 36));
  Ok data.

End protocol.

(** ** The serial port

    [serial.Serial] belongs to the pyserial package; this is the port as
    the program sees it.  [in_buffer] holds the bytes that have arrived and
    were not read yet, [written] the frames handed to [write], oldest first,
    and [line] the bursts the panel will still send: one of them arrives
    each time the program sleeps.  A [read] returns what the input buffer
    holds, fewer bytes than asked when it runs dry (the time-out). *)

Module serial.

Record Serial : Type :=
  { is_open : bool;
    timeout : Z;
    in_buffer : list Z;
    written : list (list Z);
    line : list (list Z) }.

(** [port.timeout = t]: the setter refuses a negative value with
    [ValueError] and leaves the port as it was. *)
Definition invalid_timeout (t : Z) : exn :=
  ValueError ("Not a valid timeout: " +:+ pretty t).

Definition set_timeout (t : Z) (s : Serial) : result unit * Serial :=
  if t <? 0 then (Raise (invalid_timeout t), s)
  else
    (Ok tt, {| is_open := is_open s; timeout := t; in_buffer := in_buffer s;
               written := written s; line := line s |}).

(** [port.timeout = t] for a [t] that was read from [port.timeout]: the
    port holds only values that its setter accepted, so the setter accepts
    [t] again. *)
Definition restore_timeout (t : Z) (s : Serial) : unit * Serial :=
  (tt, {| is_open := is_open s; timeout := t; in_buffer := in_buffer s;
          written := written s; line := line s |}).

Definition get_timeout (s : Serial) : Z * Serial := (timeout s, s).

Definition read (size : Z) (s : Serial) : list Z * Serial :=
  (take (Z.to_nat size) (in_buffer s),
   {| is_open := is_open s; timeout := timeout s;
      in_buffer := drop (Z.to_nat size) (in_buffer s);
      written := written s; line := line s |}).

Definition write (data : list Z) (s : Serial) : Z * Serial :=
  (Z.of_nat (length data),
   {| is_open := is_open s; timeout := timeout s; in_buffer := in_buffer s;
      written := written s ++ [data]; line := line s |}).

Definition flush (s : Serial) : unit * Serial := (tt, s).

Definition in_waiting (s : Serial) : Z * Serial :=
  (Z.of_nat (length (in_buffer s)), s).

Definition reset_input_buffer (s : Serial) : unit * Serial :=
  (tt, {| is_open := is_open s; timeout := timeout s; in_buffer := [];
          written := written s; line := line s |}).

Definition reset_output_buffer (s : Serial) : unit * Serial := (tt, s).

(** [serial.Serial(..., timeout=timeout)]: a port that has just been
    opened; [line] is what the panel at the other end will send. *)
Definition Serial_new (timeout : Z) (line : list (list Z)) : Serial :=
  {| is_open := true; timeout := timeout; in_buffer := []; written := [];
     line := line |}.

Definition close (s : Serial) : unit * Serial :=
  (tt, {| is_open := false; timeout := timeout s; in_buffer := in_buffer s;
          written := written s; line := line s |}).

(** Time passes: the next burst on the line reaches the input buffer. *)
Definition elapse (s : Serial) : Serial :=
  match line s with
  | [] => s
  | burst :: later =>
      {| is_open := is_open s; timeout := timeout s;
         in_buffer := in_buffer s ++ burst;
         written := written s; line := later |}
  end.

End serial.

(** ** [paradox/connection.py] *)

Module connection.
Import serial.

Record SerialConnection : Type :=
  { port : string;
    baudrate : Z;
    timeout : Z;
    serial : option Serial;
    _connected : bool }.

Definition set_serial (self : SerialConnection) (s : Serial) : SerialConnection :=
  {| port := port self; baudrate := baudrate self; timeout := timeout self;
     serial := Some s; _connected := _connected self |}.

(** [self.serial.method(...)] *)
Definition on_serial {A} (method : Serial → A * Serial) : M SerialConnection A := λ self,
  match serial self with
  | Some s => let '(a, s') := method s in (Ok a, set_serial self s')
  | None => (Raise (AttributeError "'NoneType' object has no attribute"), self)
  end.

(** [self.serial.method(...)] for a method that can raise *)
Definition on_serial_raising {A} (method : Serial → result A * Serial)
    : M SerialConnection A := λ self,
  match serial self with
  | Some s => let '(r, s') := method s in (r, set_serial self s')
  | None => (Raise (AttributeError "'NoneType' object has no attribute"), self)
  end.

Definition is_connected (self : SerialConnection) : bool :=
  _connected self &&
  match serial self with
  | Some s => is_open s
  | None => false
  end.

Definition not_connected : exn := SerialException "Porta serial não está conectada".

(** Whether the port opens is for the system to say: [opened] is what the
    constructor of the port does, the line it opens on or the exception it
    raises.  The exception is logged and raised again. *)
Definition connect (opened : result (list (list Z))) : M SerialConnection bool := λ self,
  match opened with
  | Ok line =>
      (Ok true,
       {| port := port self; baudrate := baudrate self; timeout := timeout self;
          serial := Some (Serial_new (timeout self) line); _connected := true |})
  | Raise e => (Raise e, self)
  end.

Definition set_connected (b : bool) : M SerialConnection unit := λ self,
  (Ok tt, {| port := port self; baudrate := baudrate self; timeout := timeout self;
             serial := serial self; _connected := b |}).

Definition disconnect : M SerialConnection unit :=
  self ← get;
  match serial self with
  | Some s =>
      if is_open s then
        _ ← on_serial close;
        set_connected false
      else mret tt
  | None => mret tt
  end.

Definition write (data : list Z) : M SerialConnection Z :=
  self ← get;
  if negb (is_connected self) then raise not_connected
  else
    bytes_written ← on_serial (serial.write data);
    _ ← on_serial serial.flush;
    mret bytes_written.

Definition read (length : Z) : M SerialConnection (list Z) :=
  self ← get;
  if negb (is_connected self) then raise not_connected
  else on_serial (serial.read length).

Definition read_variable_length (max_length : Z) (initial_timeout : option Z)
    : M SerialConnection (list Z) :=
  self ← get;
  if negb (is_connected self) then raise not_connected
  else
    original_timeout ← on_serial get_timeout;
    _ ← match initial_timeout with
        | Some t => on_serial_raising (set_timeout t)
        | None => mret tt
        end;
    first_byte ← on_serial (serial.read 1);
    match first_byte with
    | [] =>
        _ ← on_serial (restore_timeout original_timeout);
        mret []
    | first_byte_0 :: _ =>
        _ ← on_serial (restore_timeout original_timeout);
        let message_length :=
          if first_byte_0 >? 4 then
            if first_byte_0 >? max_length then max_length else first_byte_0
          else 37 in
        let remaining := message_length - 1 in
        rest ← on_serial (serial.read remaining);
        let data := first_byte ++ rest in
        mret data
    end.

Definition available : M SerialConnection Z :=
  self ← get;
  if negb (is_connected self) then mret 0
  else on_serial in_waiting.

Definition flush_input : M SerialConnection unit :=
  self ← get;
  if is_connected self then on_serial reset_input_buffer
  else mret tt.

Definition flush_output : M SerialConnection unit :=
  self ← get;
  if is_connected self then on_serial reset_output_buffer
  else mret tt.

Definition __enter__ (opened : result (list (list Z))) : M SerialConnection unit :=
  _ ← connect opened; mret tt.

Definition __exit__ : M SerialConnection bool :=
  _ ← disconnect; mret false.

End connection.

(** ** [paradox/commands.py] *)

Module commands.
Import connection.

Definition send_initiate_communication : M SerialConnection (list Z) :=
  cmd ← lift (protocol.build_initiate_communication 0x00);
  _ ← connection.write cmd;
  mret cmd.

Definition send_initialize_mgsp (password : list Z) (product_id : Z)
    (firmware : Z * Z * Z) (panel_id : Z) : M SerialConnection (list Z) :=
  cmd ← lift (protocol.build_initialize_communication_mgsp
                product_id firmware panel_id password 0x01 0x00);
  _ ← connection.write cmd;
  mret cmd.

Definition send_arm_command (partition action_code : Z) : M SerialConnection (list Z) :=
  cmd ← lift (protocol.build_perform_action action_code partition 0x01 0x00);
  _ ← connection.write cmd;
  mret cmd.

Definition send_bypass_command (zone : Z) : M SerialConnection (list Z) :=
  action_code ← lift (match protocol.ZONE_ACTIONS !! "bypass" with
                      | Some code => Ok code
                      | None => Raise (KeyError "bypass")
                      end);
  cmd ← lift (protocol.build_perform_action action_code zone 0x01 0x00);
  _ ← connection.write cmd;
  mret cmd.

Definition send_read_eeprom (address records : Z) : M SerialConnection (list Z) :=
  cmd ← lift (protocol.build_read_eeprom address records 0x01 0x00);
  _ ← connection.write cmd;
  mret cmd.

Definition validate_checksum (data : list Z) : bool :=
  if (length data <? 2)%nat then false
  else
    let received_checksum := default 0 (last data) in
    let calculated_checksum := protocol.calculate_checksum (removelast data) in
    bool_decide (received_checksum = calculated_checksum).

Definition result_codes : gmap Z string :=
  list_to_map
    [(0x40, "success"); (0x41, "fail"); (0x42, "invalid_argument");
     (0x43, "user_code_required")].

Record ActionResponseInfo : Type :=
  { command : Z; result_name : string; success : bool }.

Definition parse_perform_action_response (data : list Z) : option ActionResponseInfo :=
  if (length data <? 2)%nat then None
  else
    match data with
    | [] => None
    | command :: _ =>
        Some {| command := command;
                result_name := default "unknown" (result_codes !! command);
                success := bool_decide (command = 0x40) |}
    end.

Module ReadEEPROMInfo.
Record t : Type :=
  { command : Z; address : Z; records : Z; data : list Z }.
End ReadEEPROMInfo.

Definition parse_read_eeprom_response (data : list Z) : option ReadEEPROMInfo.t :=
  match protocol.ReadEEPROMResponse.parse data with
  | Ok parsed =>
      Some {| ReadEEPROMInfo.command := protocol.ReadEEPROMResponse.po_command parsed;
              ReadEEPROMInfo.address := protocol.ReadEEPROMResponse.address parsed;
              ReadEEPROMInfo.records := protocol.ReadEEPROMResponse.records parsed;
              ReadEEPROMInfo.data := protocol.ReadEEPROMResponse.data parsed |}
  | Raise _ => None
  end.

(** The three tables are walked in turn, each in the order it was written,
    and the first name whose code matches is returned. *)
Definition get_action_name (action_code : Z) : string :=
  match
    list_find (λ item : string * Z, item.2 = action_code)
      (mjoin [protocol.PARTITION_ACTIONS_items; protocol.ZONE_ACTIONS_items;
              protocol.PGM_ACTIONS_items])
  with
  | Some (_, (name, _)) => name
  | None => "unknown_0x" +:+ format_0X 2 action_code
  end.

End commands.

(** ** [paradox/panel.py] *)

Module panel.
Import connection.

Record PanelInfo : Type :=
  { product_id : construct.EnumValue;
    firmware_version : Z * Z * Z;
    firmware_string : string;
    panel_id : Z;
    pc_password : list Z;
    source_id : Z }.

(** [panel_info] is [None] for the empty dictionary the panel starts with. *)
Record ParadoxPanel : Type :=
  { connection : SerialConnection;
    config : gmap string string;
    panel_info : option PanelInfo;
    _authenticated : bool }.

Definition set_connection (c : SerialConnection) : M ParadoxPanel unit := λ self,
  (Ok tt, {| connection := c; config := config self;
             panel_info := panel_info self;
             _authenticated := _authenticated self |}).

Definition set_panel_info (info : PanelInfo) : M ParadoxPanel unit := λ self,
  (Ok tt, {| connection := connection self; config := config self;
             panel_info := Some info;
             _authenticated := _authenticated self |}).

Definition set_authenticated (b : bool) : M ParadoxPanel unit := λ self,
  (Ok tt, {| connection := connection self; config := config self;
             panel_info := panel_info self;
             _authenticated := b |}).

(** [self.connection.method(...)] *)
Definition on_connection {A} (method : M SerialConnection A) : M ParadoxPanel A := λ self,
  let '(r, c) := method (connection self) in
  (r, {| connection := c; config := config self;
         panel_info := panel_info self;
         _authenticated := _authenticated self |}).

(** [time.sleep(0.01)] *)
Definition time_sleep : M ParadoxPanel unit := λ self,
  match serial (connection self) with
  | Some s => set_connection (set_serial (connection self) (serial.elapse s)) self
  | None => (Ok tt, self)
  end.

Definition encode_password (password : string) : result (list Z) :=
  if negb (String.length password =? 4)%nat then
    Raise (ValueError "Senha PC deve ter 4 caracteres hexadecimais")
  else
    try_except
      (byte1 ← int_16 (str_slice password 0 2);
       byte2 ← int_16 (str_slice password 2 4);
       bytes [byte1; byte2])
      (λ e,
         match e with
         | ValueError _ =>
             Raise (ValueError
               "Senha PC deve conter apenas caracteres hexadecimais (0-9, a-f)")
         | _ => Raise e
         end).

(** [expected_command] is a list here: a caller that passes one command
    byte passes the one-element list the method makes of it.  [polls] is
    the number of turns of the loop before the deadline. *)
Fixpoint wait_for_response (polls : nat) (expected_command : list Z)
    : M ParadoxPanel (option (list Z)) :=
  match polls with
  | O => mret None
  | S polls' =>
      n ← on_connection available;
      found ← (if n >? 0 then
                 data ← on_connection (read_variable_length 37 None);
                 match data with
                 | [] => mret None
                 | command :: _ =>
                     if bool_decide (command ∈ expected_command)
                     then mret (Some data)
                     else mret None
                 end
               else mret None);
      match found with
      | Some data => mret (Some data)
      | None => _ ← time_sleep; wait_for_response polls' expected_command
      end
  end.

Definition send_command (command_data : list Z) (expected_response : option (list Z))
    (polls : nat) : M ParadoxPanel (option (list Z)) :=
  _ ← on_connection (write command_data);
  match expected_response with
  | Some expected => wait_for_response polls expected
  | None => mret None
  end.

Definition initiate_communication (polls : nat) : M ParadoxPanel (option PanelInfo) :=
  _ ← on_connection flush_input;
  cmd ← lift (protocol.build_initiate_communication 0x00);
  _ ← on_connection (write cmd);
  response ← wait_for_response polls [0x72];
  match response with
  | None => mret None
  | Some response =>
      match protocol.InitiateCommunicationResponse.parse response with
      | Ok parsed =>
          let fw := protocol.InitiateCommunicationResponse.firmware_version parsed in
          let info :=
            {| product_id := protocol.InitiateCommunicationResponse.product_id parsed;
               firmware_version :=
                 (protocol.version fw, protocol.revision fw, protocol.minor fw);
               firmware_string :=
                 pretty (protocol.version fw) +:+ "." +:+
                 pretty (protocol.revision fw) +:+ "." +:+
                 pretty (protocol.minor fw);
               panel_id := protocol.InitiateCommunicationResponse.panel_id parsed;
               pc_password := protocol.InitiateCommunicationResponse.pc_password parsed;
               source_id := protocol.InitiateCommunicationResponse.source_id parsed |} in
          _ ← set_panel_info info;
          mret (Some info)
      | Raise _ => mret None
      end
  end.

(** The product identifier kept in [panel_info] is what the [Enum] decoded.
    A known code is an [EnumIntegerString], a string, and storing it into
    the bytearray of the builder raises [TypeError]; an unknown code is an
    integer. *)
Definition initialize_communication (polls : nat) : M ParadoxPanel bool :=
  self ← get;
  match panel_info self with
  | None => mret false
  | Some info =>
      let pc_password_str := default "0000" (config self !! "pc_password") in
      pc_password_bytes ← lift (encode_password pc_password_str);
      cmd ← lift
        match product_id info with
        | construct.EnumInteger product_id =>
            protocol.build_initialize_communication_mgsp
              product_id (firmware_version info) (panel_id info)
              pc_password_bytes 0x01 0x00
        | construct.EnumIntegerString _ _ =>
            Raise (TypeError
              "'EnumIntegerString' object cannot be interpreted as an integer")
        end;
      _ ← on_connection (write cmd);
      response ← wait_for_response polls [0x10; 0x70];
      match response with
      | None | Some [] => mret false
      | Some (result_code :: _) =>
          if result_code =? 0x10 then
            _ ← set_authenticated true;
            mret true
          else if result_code =? 0x70 then mret false
          else mret false
      end
  end.

Definition parse_message (data : list Z) : option protocol.Container :=
  if (length data <? 2)%nat then None
  else protocol.parse_message data.

Definition arm_partition (partition : Z) (mode : string) (polls : nat)
    : M ParadoxPanel bool :=
  self ← get;
  if negb (_authenticated self) then mret false
  else
    match protocol.PARTITION_ACTIONS !! mode with
    | None => mret false
    | Some action_code =>
        cmd ← lift (protocol.build_perform_action action_code (partition - 1) 0x01 0x00);
        response ← send_command cmd (Some (seqZ 0x40 0x10)) polls;
        match response with
        | Some (result_code :: _) =>
            if result_code =? 0x40 then mret true else mret false
        | _ => mret false
        end
    end.

Definition disarm_partition (partition : Z) (polls : nat) : M ParadoxPanel bool :=
  self ← get;
  if negb (_authenticated self) then mret false
  else
    action_code ← lift (match protocol.PARTITION_ACTIONS !! "disarm" with
                        | Some code => Ok code
                        | None => Raise (KeyError "disarm")
                        end);
    cmd ← lift (protocol.build_perform_action action_code (partition - 1) 0x01 0x00);
    response ← send_command cmd (Some (seqZ 0x40 0x10)) polls;
    match response with
    | Some (result_code :: _) =>
        if result_code =? 0x40 then mret true else mret false
    | _ => mret false
    end.

Definition bypass_zone (zone : Z) (polls : nat) : M ParadoxPanel bool :=
  self ← get;
  if negb (_authenticated self) then mret false
  else
    action_code ← lift (match protocol.ZONE_ACTIONS !! "bypass" with
                        | Some code => Ok code
                        | None => Raise (KeyError "bypass")
                        end);
    cmd ← lift (protocol.build_perform_action action_code (zone - 1) 0x01 0x00);
    response ← send_command cmd (Some (seqZ 0x40 0x10)) polls;
    match response with
    | Some (result_code :: _) =>
        if result_code =? 0x40 then mret true else mret false
    | _ => mret false
    end.

Definition read_status (address records : Z) (polls : nat)
    : M ParadoxPanel (option (list Z)) :=
  self ← get;
  if negb (_authenticated self) then mret None
  else
    cmd ← lift (protocol.build_read_eeprom address records 0x01 0x00);
    response ← send_command cmd (Some (seqZ 0x50 0x10)) polls;
    match response with
    | Some ((_ :: _) as response) =>
        match protocol.ReadEEPROMResponse.parse response with
        | Ok parsed => mret (Some (protocol.ReadEEPROMResponse.data parsed))
        | Raise _ => mret None
        end
    | _ => mret None
    end.

Record EventInfo : Type :=
  { command : Z;
    event_group : Z;
    event_1 : Z;
    event_2 : Z;
    partition : Z;
    label_type : Z;
    label : string }.

Definition handle_live_event (event_data : list Z) : option EventInfo :=
  match protocol.LiveEvent.parse event_data with
  | Ok parsed =>
      Some {| command := protocol.LiveEvent.po_command parsed;
              event_group := protocol.LiveEvent.event_group parsed;
              event_1 := protocol.LiveEvent.event_1 parsed;
              event_2 := protocol.LiveEvent.event_2 parsed;
              partition := protocol.LiveEvent.partition parsed;
              label_type := protocol.LiveEvent.label_type parsed;
              label :=
                String.string_of_list_ascii
                  (strip "000"%char
                     (decode_ascii_ignore (protocol.LiveEvent.label parsed))) |}
  | Raise _ => None
  end.

(** One turn of the loop of [monitor_events]: the event it yields, if any. *)
Definition monitor_poll : M ParadoxPanel (option EventInfo) :=
  n ← on_connection available;
  event ← (if n >? 0 then
             data ← on_connection (read_variable_length 37 None);
             match data with
             | [] => mret None
             | command :: _ =>
                 if (0xE0 <=? command) && (command <=? 0xEF)
                 then mret (handle_live_event data)
                 else mret None
             end
           else mret None);
  _ ← time_sleep;
  mret event.

(** The events yielded during the first [polls] turns of the loop, how the
    loop stands after them ([Ok]: still polling; [Raise]: left by an
    exception), and the panel. *)
Fixpoint monitor_events (polls : nat) (self : ParadoxPanel)
    : list EventInfo * result unit * ParadoxPanel :=
  match polls with
  | O => ([], Ok tt, self)
  | S polls' =>
      match monitor_poll self with
      | (Ok event, self') =>
          let '(events, status, self'') := monitor_events polls' self' in
          (option_list event ++ events, status, self'')
      | (Raise e, self') => ([], Raise e, self')
      end
  end.

End panel.

(** ** [main.py]: the handlers of the menu

    The handlers ask the user and print.  Here the answers come as
    arguments, as [get_user_input] returned them, and a handler returns
    which of its messages it printed last. *)

Module main.
Import panel.

Inductive Outcome : Type :=
  | Back
  | InvalidOption
  | InvalidPartition
  | InvalidZone
  | InvalidAddress
  | InvalidRecords
  | CommandSent (success : bool)
  | DataRead (data : option (list Z)).

Definition mode_map : gmap Z string :=
  list_to_map
    [(1, "arm"); (2, "arm_stay"); (3, "arm_sleep"); (4, "arm_instant");
     (5, "arm_stay_instant")].

Definition handle_arm_partition (mode_choice partition : Z) (polls : nat)
    : M ParadoxPanel Outcome :=
  if mode_choice =? 0 then mret Back
  else
    match mode_map !! mode_choice with
    | None => mret InvalidOption
    | Some mode =>
        if negb ((1 <=? partition) && (partition <=? 8)) then mret InvalidPartition
        else
          success ← arm_partition partition mode polls;
          mret (CommandSent success)
    end.

Definition handle_disarm_partition (partition : Z) (polls : nat)
    : M ParadoxPanel Outcome :=
  if negb ((1 <=? partition) && (partition <=? 8)) then mret InvalidPartition
  else
    success ← disarm_partition partition polls;
    mret (CommandSent success).

Definition handle_bypass_zone (zone : Z) (polls : nat) : M ParadoxPanel Outcome :=
  if negb ((1 <=? zone) && (zone <=? 192)) then mret InvalidZone
  else
    success ← bypass_zone zone polls;
    mret (CommandSent success).

Definition handle_read_status (address_str : string) (records : Z) (polls : nat)
    : M ParadoxPanel Outcome :=
  match int_16 address_str with
  | Raise (ValueError _) => mret InvalidAddress
  | Raise e => raise e
  | Ok address =>
      if negb ((1 <=? records) && (records <=? 32)) then mret InvalidRecords
      else
        data ← read_status address records polls;
        mret (DataRead data)
  end.

End main.

(** * Properties *)

(** ** Observations used in the statements *)

(** The frames handed to the transport so far. *)
Definition transport_log (self : panel.ParadoxPanel) : list (list Z) :=
  match connection.serial (panel.connection self) with
  | Some s => serial.written s
  | None => []
  end.

(** A 37-byte frame whose last byte is the sum of the 36 bytes before it,
    modulo 256. *)
Definition frame_ok (f : list Z) : Prop :=
  length f = 37%nat ∧ f !! 36%nat = Some (foldr Z.add 0 (take 36 f) mod 256).

(** The length [read_variable_length] aims at, from the first byte. *)
Definition target_length (first_byte : Z) : Z :=
  if first_byte <=? 4 then 37 else Z.min first_byte 37.

(** The panel with [s] as the state of its port. *)
Definition with_serial (self : panel.ParadoxPanel) (s : serial.Serial) : panel.ParadoxPanel :=
  {| panel.connection := connection.set_serial (panel.connection self) s;
     panel.config := panel.config self;
     panel.panel_info := panel.panel_info self;
     panel._authenticated := panel._authenticated self |}.

(** The panel holds an open connection whose port is in state [s]. *)
Definition connected_with (self : panel.ParadoxPanel) (s : serial.Serial) : Prop :=
  connection.is_connected (panel.connection self) = true ∧
  connection.serial (panel.connection self) = Some s.

(** The value of a hexadecimal digit, [None] for any other character. *)
Definition hex_digit_value (c : ascii) : option Z :=
  let v := ord c in
  if (48 <=? v) && (v <=? 57) then Some (v - 48)
  else if (97 <=? v) && (v <=? 102) then Some (v - 87)
  else if (65 <=? v) && (v <=? 70) then Some (v - 55)
  else None.

(** Every character, and the test that [int_16] reads a pair of
    hexadecimal digits as the number they write. *)
Definition all_ascii : list ascii := (λ n, ascii_of_nat n) <$> seq 0 256.

Definition hex_pair_checked (a b : ascii) : bool :=
  match hex_digit_value a, hex_digit_value b with
  | Some x, Some y =>
      match int_16 (String a (String b EmptyString)) with
      | Ok v => v =? 16 * x + y
      | Raise _ => false
      end
  | _, _ => true
  end.

(** ** Sample states

    A port that is open, a connection on it and a panel on that connection;
    the answer of a panel of product 4 with firmware 4.2.1 and identifier
    1234 to the handshake; the identity of a panel whose product code is not
    in [ProductIdEnum]; and a live-event frame. *)

Definition example_serial (in_buffer : list Z) (line : list (list Z)) : serial.Serial :=
  {| serial.is_open := true; serial.timeout := 5; serial.in_buffer := in_buffer;
     serial.written := []; serial.line := line |}.

Definition example_connection (in_buffer : list Z) (line : list (list Z))
    : connection.SerialConnection :=
  {| connection.port := "/dev/ttyUSB0"; connection.baudrate := 9600;
     connection.timeout := 5;
     connection.serial := Some (example_serial in_buffer line);
     connection._connected := true |}.

Definition example_panel (pc_password : string) (info : option panel.PanelInfo)
    (authenticated : bool) (in_buffer : list Z) (line : list (list Z))
    : panel.ParadoxPanel :=
  {| panel.connection := example_connection in_buffer line;
     panel.config := {["pc_password" := pc_password]};
     panel.panel_info := info;
     panel._authenticated := authenticated |}.

Definition example_response : list Z :=
  [0x72; 0xFF; 0; 0; 0; 0; 4; 4; 2; 1; 0x04; 0xD2; 0x12; 0x34; 0] ++
  replicate 12 0 ++ [0xAA; 0xBB; 5; 7] ++ replicate 5 0 ++ [0xDB].

Definition example_parsed : protocol.InitiateCommunicationResponse.t :=
  {| protocol.InitiateCommunicationResponse.po_command := 0x72;
     protocol.InitiateCommunicationResponse.po_result := 0xFF;
     protocol.InitiateCommunicationResponse.reserved_0 := [0; 0; 0; 0];
     protocol.InitiateCommunicationResponse.product_id :=
       construct.EnumIntegerString 4 "MAGELLAN_MG5050";
     protocol.InitiateCommunicationResponse.firmware_version :=
       {| protocol.version := 4; protocol.revision := 2; protocol.minor := 1 |};
     protocol.InitiateCommunicationResponse.panel_id := 1234;
     protocol.InitiateCommunicationResponse.pc_password := [0x12; 0x34];
     protocol.InitiateCommunicationResponse.modem_speed := 0;
     protocol.InitiateCommunicationResponse.reserved_1 :=
       replicate 12 0 ++ [0xAA; 0xBB];
     protocol.InitiateCommunicationResponse.source_id := 5;
     protocol.InitiateCommunicationResponse.user_id := 7;
     protocol.InitiateCommunicationResponse.receiver_line := [0; 0; 0; 0];
     protocol.InitiateCommunicationResponse.reserved_2 := [0];
     protocol.InitiateCommunicationResponse.checksum := 0xDB |}.

Definition example_identity : panel.PanelInfo :=
  {| panel.product_id := construct.EnumInteger 99;
     panel.firmware_version := (4, 2, 1);
     panel.firmware_string := "4.2.1";
     panel.panel_id := 1234;
     panel.pc_password := [0x12; 0x34];
     panel.source_id := 5 |}.

Definition front_door_frame : list Z :=
  [0xE1; 0; 1; 2; 3; 2; 0; 0; 0; 0; 0] ++ code_points "Front Door" ++
  replicate 6 0 ++ replicate 10 0.

(** The same frame with the sum of its first 36 bytes as the last byte. *)
Definition front_door_frame_with_checksum : list Z :=
  take 36 front_door_frame ++ [166].

(** An answer frame that consists of its command byte and zeros. *)
Definition answer (command : Z) : list Z := [command] ++ replicate 36 0.

(** ** Observations and samples for the further properties *)

(** The session data of two panels agree. *)
Definition same_session (self self' : panel.ParadoxPanel) : Prop :=
  panel.config self' = panel.config self ∧
  panel.panel_info self' = panel.panel_info self ∧
  panel._authenticated self' = panel._authenticated self.

(** The length [read_variable_length] aims at for a given [max_length]. *)
Definition message_length (max_length first_byte : Z) : Z :=
  if first_byte >? 4 then
    if first_byte >? max_length then max_length else first_byte
  else 37.

Definition byte_error : exn := ValueError "byte must be in range(0, 256)".

(** A method that leaves the configuration, the identity and the
    authentication flag of the panel alone, whatever it returns or raises. *)
Definition keeps_session {A} (m : M panel.ParadoxPanel A) : Prop :=
  ∀ self, same_session self (m self).2.

(** The password of the configuration, as [initialize_communication] reads
    it. *)
Definition configured_password (self : panel.ParadoxPanel) : string :=
  default "0000" (panel.config self !! "pc_password").

(** The product codes that [ProductIdEnum] names. *)
Definition listed_products : list Z := [0; 1; 2; 3; 4; 5; 21; 22; 23; 24].

Definition not_an_integer : exn :=
  TypeError "'EnumIntegerString' object cannot be interpreted as an integer".

(** The connection after [frame] went out through the port in state [s]. *)
Definition sent (self : connection.SerialConnection) (s : serial.Serial)
    (frame : list Z) : connection.SerialConnection :=
  connection.set_serial self
    {| serial.is_open := serial.is_open s; serial.timeout := serial.timeout s;
       serial.in_buffer := serial.in_buffer s;
       serial.written := serial.written s ++ [frame];
       serial.line := serial.line s |}.

(** The action codes of the three tables, and the name [get_action_name]
    makes for a byte that is none of them, checked by evaluation. *)
Definition action_codes : list Z :=
  [0x01; 0x02; 0x04; 0x05; 0x06; 0x07; 0x10; 0x32; 0x33; 0x34; 0x35].

Definition unknown_name (code : Z) : string :=
  "unknown_0x" +:+
  String (hex_digit (code / 16)) (String (hex_digit (code mod 16)) EmptyString).

Definition unknown_name_checked (code : Z) : bool :=
  bool_decide (code ∈ action_codes) ||
  String.eqb (commands.get_action_name code) (unknown_name code).

(** A panel whose connection was never opened, and the identity of a panel
    of a listed product, as the handshake stores it. *)
Definition example_closed_panel : panel.ParadoxPanel :=
  {| panel.connection :=
       {| connection.port := "/dev/ttyUSB0"; connection.baudrate := 9600;
          connection.timeout := 5; connection.serial := None;
          connection._connected := false |};
     panel.config := {["pc_password" := "1234"]};
     panel.panel_info := Some example_identity;
     panel._authenticated := true |}.

Definition example_listed_identity : panel.PanelInfo :=
  {| panel.product_id := construct.EnumIntegerString 4 "MAGELLAN_MG5050";
     panel.firmware_version := (4, 2, 1);
     panel.firmware_string := "4.2.1";
     panel.panel_id := 1234;
     panel.pc_password := [0x12; 0x34];
     panel.source_id := 5 |}.

(** ** The monads *)

Lemma bind_Ok {A B} (a : A) (k : A → result B) : (Ok a ≫= k) = k a.
Proof. reflexivity. Qed.

Lemma M_bind_unfold {S A B} (m : M S A) (k : A → M S B) (s : S) :
  (m ≫= k) s =
  match m s with
  | (Ok a, s') => k a s'
  | (Raise e, s') => (Raise e, s')
  end.
Proof. reflexivity. Qed.

Lemma M_bind_Ok {S A B} (m : M S A) (k : A → M S B) (s s' : S) (a : A) :
  m s = (Ok a, s') → (m ≫= k) s = k a s'.
Proof. intros H. rewrite M_bind_unfold, H. reflexivity. Qed.

Lemma message_length_target (b : Z) :
  (if b >? 4 then if b >? 37 then 37 else b else 37) = target_length b.
Proof.
  unfold target_length.
  destruct (Z.gtb_spec b 4), (Z.leb_spec b 4); try lia.
  destruct (Z.gtb_spec b 37); lia.
Qed.

Lemma target_length_pos (b : Z) : 5 <= target_length b <= 37.
Proof. unfold target_length. destruct (Z.leb_spec b 4); lia. Qed.

Lemma take_drop_first {A} (t : Z) (b : A) (rest : list A) :
  1 <= t →
  b :: take (Z.to_nat (t - 1)) rest = take (Z.to_nat t) (b :: rest) ∧
  drop (Z.to_nat (t - 1)) rest = drop (Z.to_nat t) (b :: rest).
Proof.
  intros Ht. replace (Z.to_nat t) with (S (Z.to_nat (t - 1))) by lia.
  split; reflexivity.
Qed.

Lemma M_bind_inv {S A B} (m : M S A) (k : A → M S B) (s s' : S) (b : B) :
  (m ≫= k) s = (Ok b, s') → ∃ a s1, m s = (Ok a, s1) ∧ k a s1 = (Ok b, s').
Proof.
  rewrite M_bind_unfold. destruct (m s) as [[a|e] s1]; [eauto|discriminate].
Qed.

(** ** The connection *)

Section connection_facts.
Import serial connection.

Variable self : SerialConnection.
Variable s : Serial.
Hypothesis Hconnected : is_connected self = true.
Hypothesis Hserial : connection.serial self = Some s.

Lemma set_serial_same : set_serial self s = self.
Proof using Hserial. clear Hconnected. destruct self; simpl in Hserial. subst. reflexivity. Qed.

Lemma available_connected :
  available self = (Ok (Z.of_nat (length (in_buffer s))), self).
Proof using Hconnected Hserial.
  unfold available. rewrite M_bind_unfold. cbn [get].
  rewrite Hconnected. cbn [negb]. unfold on_serial. rewrite Hserial.
  cbn. rewrite set_serial_same. reflexivity.
Qed.

Lemma write_connected data :
  connection.write data self =
  (Ok (Z.of_nat (length data)),
   set_serial self
     {| is_open := is_open s; serial.timeout := serial.timeout s;
        in_buffer := in_buffer s; written := written s ++ [data];
        line := line s |}).
Proof using Hconnected Hserial.
  unfold connection.write. rewrite M_bind_unfold. cbn [get].
  rewrite Hconnected. cbn [negb]. unfold on_serial.
  rewrite !M_bind_unfold, Hserial. cbn. reflexivity.
Qed.

Lemma read_variable_length_connected :
  read_variable_length 37 None self =
  match in_buffer s with
  | [] => (Ok [], self)
  | first_byte :: _ =>
      (Ok (take (Z.to_nat (target_length first_byte)) (in_buffer s)),
       set_serial self
         {| is_open := is_open s; serial.timeout := serial.timeout s;
            in_buffer := drop (Z.to_nat (target_length first_byte)) (in_buffer s);
            written := written s; line := line s |})
  end.
Proof using Hconnected Hserial.
  unfold read_variable_length.
  cbv [mbind M_bind mret M_ret get raise on_serial].
  rewrite Hconnected. cbn. rewrite Hserial. cbn.
  destruct (in_buffer s) as [|b rest] eqn:Hbuf; cbn.
  - f_equal. clear Hconnected. destruct self, s; simpl in *. subst. reflexivity.
  - change (Z.to_nat 1) with 1%nat. cbn.
    rewrite message_length_target.
    pose proof (target_length_pos b) as Hpos.
    rewrite take_0, !drop_0. cbn [app].
    destruct (take_drop_first (target_length b) b rest) as [-> ->]; [lia|].
    reflexivity.
Qed.

End connection_facts.

(** ** The panel on an open connection *)

Section panel_facts.
Import serial connection panel.

Lemma with_serial_same self s :
  serial (connection self) = Some s → with_serial self s = self.
Proof.
  intros H. unfold with_serial. rewrite (set_serial_same _ _ H).
  destruct self; reflexivity.
Qed.

Lemma with_serial_twice self s1 s2 :
  with_serial (with_serial self s1) s2 = with_serial self s2.
Proof. reflexivity. Qed.

Lemma connected_with_serial self s s' :
  connected_with self s → is_open s' = is_open s →
  connected_with (with_serial self s') s'.
Proof.
  intros [Hc Hs] Ho. split; [|reflexivity].
  unfold is_connected in *. cbn. rewrite Hs in Hc. rewrite Ho. exact Hc.
Qed.

Lemma transport_log_with_serial self s :
  transport_log (with_serial self s) = written s.
Proof. reflexivity. Qed.

Lemma transport_log_connected self s :
  connected_with self s → transport_log self = written s.
Proof. intros [_ Hs]. unfold transport_log. rewrite Hs. reflexivity. Qed.

Lemma on_connection_available self s :
  connected_with self s →
  on_connection available self = (Ok (Z.of_nat (length (in_buffer s))), self).
Proof.
  intros [Hc Hs]. unfold on_connection.
  rewrite (available_connected _ _ Hc Hs). destruct self; reflexivity.
Qed.

Lemma on_connection_write self s data :
  connected_with self s →
  on_connection (connection.write data) self =
  (Ok (Z.of_nat (length data)),
   with_serial self
     {| is_open := is_open s; serial.timeout := serial.timeout s;
        in_buffer := in_buffer s; written := written s ++ [data];
        line := line s |}).
Proof.
  intros [Hc Hs]. unfold on_connection.
  rewrite (write_connected _ _ Hc Hs). reflexivity.
Qed.

Lemma on_connection_read_variable_length self s :
  connected_with self s →
  on_connection (read_variable_length 37 None) self =
  match in_buffer s with
  | [] => (Ok [], self)
  | first_byte :: _ =>
      (Ok (take (Z.to_nat (target_length first_byte)) (in_buffer s)),
       with_serial self
         {| is_open := is_open s; serial.timeout := serial.timeout s;
            in_buffer := drop (Z.to_nat (target_length first_byte)) (in_buffer s);
            written := written s; line := line s |})
  end.
Proof.
  intros [Hc Hs]. unfold on_connection.
  rewrite (read_variable_length_connected _ _ Hc Hs).
  destruct (in_buffer s); [destruct self|]; reflexivity.
Qed.

Lemma time_sleep_connected self s :
  connected_with self s →
  time_sleep self = (Ok tt, with_serial self (elapse s)).
Proof. intros [_ Hs]. unfold time_sleep. rewrite Hs. reflexivity. Qed.

Lemma elapse_is_open s : is_open (elapse s) = is_open s.
Proof. unfold elapse. destruct (line s); reflexivity. Qed.

Lemma elapse_written s : written (elapse s) = written s.
Proof. unfold elapse. destruct (line s); reflexivity. Qed.

(** Waiting for an answer never raises, writes nothing and leaves the
    session data alone. *)
Lemma wait_for_response_connected polls expected : ∀ self s,
  connected_with self s →
  ∃ response s',
    wait_for_response polls expected self = (Ok response, with_serial self s') ∧
    is_open s' = is_open s ∧ written s' = written s.
Proof.
  induction polls as [|polls IH]; intros self s Hcon.
  - exists None, s. cbn. rewrite with_serial_same by apply Hcon. auto.
  - cbn [wait_for_response].
    rewrite (M_bind_Ok _ _ _ _ _ (on_connection_available _ _ Hcon)).
    assert (Hsleep : ∀ s1, is_open s1 = is_open s → written s1 = written s →
      ∃ response s',
        (time_sleep ≫= λ _, wait_for_response polls expected) (with_serial self s1)
          = (Ok response, with_serial self s') ∧
        is_open s' = is_open s ∧ written s' = written s).
    { intros s1 Ho Hw.
      pose proof (connected_with_serial _ _ _ Hcon Ho) as Hcon1.
      rewrite (M_bind_Ok _ _ _ _ _ (time_sleep_connected _ _ Hcon1)).
      rewrite with_serial_twice.
      destruct (IH (with_serial self (elapse s1)) (elapse s1)) as (r & s' & Hr & Ho' & Hw').
      { eapply connected_with_serial; [exact Hcon|]. rewrite elapse_is_open. exact Ho. }
      exists r, s'. rewrite Hr, with_serial_twice, Ho', Hw', elapse_is_open, elapse_written.
      auto. }
    assert (Hsleep0 : ∃ response s',
        (time_sleep ≫= λ _, wait_for_response polls expected) self
          = (Ok response, with_serial self s') ∧
        is_open s' = is_open s ∧ written s' = written s).
    { specialize (Hsleep s eq_refl eq_refl).
      rewrite (with_serial_same self s) in Hsleep by apply Hcon. exact Hsleep. }
    destruct (Z.of_nat (length (in_buffer s)) >? 0).
    + rewrite !M_bind_unfold.
      rewrite (on_connection_read_variable_length _ _ Hcon).
      destruct (in_buffer s) as [|b rest] eqn:Hbuf.
      * cbn [mret M_ret]. apply Hsleep0.
      * pose proof (target_length_pos b) as Hpos.
        replace (Z.to_nat (target_length b)) with (S (Z.to_nat (target_length b - 1))) by lia.
        cbn [take drop].
        destruct (bool_decide (b ∈ expected)); cbn [mret M_ret].
        -- eexists _, _. split; [reflexivity|]. split; reflexivity.
        -- apply Hsleep; reflexivity.
    + rewrite M_bind_unfold. cbn [mret M_ret]. apply Hsleep0.
Qed.

End panel_facts.

(** ** The builders *)

Lemma setitem_Ok data i v :
  (i < length data)%nat → is_byte v → setitem data i v = Ok (<[i:=v]> data).
Proof.
  intros Hi [Hv1 Hv2]. unfold setitem, is_byteb.
  destruct (Nat.ltb_spec i (length data)); [|lia].
  destruct (Z.leb_spec 0 v); [|lia].
  destruct (Z.ltb_spec v 256); [|lia]. reflexivity.
Qed.

Lemma setitem_ValueError data i v :
  (i < length data)%nat → ¬ is_byte v →
  setitem data i v = Raise (ValueError "byte must be in range(0, 256)").
Proof.
  intros Hi Hv. unfold setitem, is_byteb, is_byte in *.
  destruct (Nat.ltb_spec i (length data)); [|lia].
  destruct (Z.leb_spec 0 v), (Z.ltb_spec v 256); try reflexivity. lia.
Qed.

Lemma setslice_Ok data lo hi values :
  Forall is_byte values →
  setslice data lo hi values = Ok (take lo data ++ values ++ drop (Nat.max lo hi) data).
Proof.
  intros Hv. unfold setslice.
  replace (forallb is_byteb values) with true; [reflexivity|].
  symmetry. apply forallb_forall. intros v Hin.
  rewrite Forall_forall in Hv. destruct (Hv v) as [H1 H2].
  { apply list_elem_of_In. exact Hin. }
  unfold is_byteb. apply andb_true_iff. split; [apply Z.leb_le|apply Z.ltb_lt]; lia.
Qed.

Lemma is_byte_mod v : is_byte (v mod 256).
Proof. unfold is_byte. apply Z.mod_pos_bound. lia. Qed.

Lemma is_byte_land v : is_byte (Z.land v 0xFF).
Proof.
  unfold is_byte. change 0xFF with (Z.ones 8). rewrite Z.land_ones by lia.
  apply Z.mod_pos_bound. reflexivity.
Qed.

Lemma is_byte_checksum data : is_byte (protocol.calculate_checksum data).
Proof. apply is_byte_mod. Qed.

Ltac byte_side :=
  first [ assumption | apply is_byte_checksum | apply is_byte_land
        | (unfold is_byte; lia) ].

(** Run the item assignments of a builder whose values are bytes. *)
Ltac setitem_steps :=
  repeat (rewrite setitem_Ok;
          [ rewrite bind_Ok; cbn beta | cbn; lia | byte_side ]).

(** Two frames that agree byte by byte, up to arithmetic in the checksum. *)
Ltac frame_eq :=
  cbn; unfold protocol.calculate_checksum, sum; cbn; f_equal;
  repeat (apply (f_equal2 cons); [reflexivity|]);
  apply (f_equal2 cons); [f_equal; lia | reflexivity].

Lemma build_initiate_communication_Ok user_id :
  is_byte user_id →
  protocol.build_initiate_communication user_id =
  Ok ([0x72] ++ replicate 34 0 ++ [user_id; (0x72 + user_id) mod 256]).
Proof.
  intros Hu. unfold protocol.build_initiate_communication, bytearray.
  setitem_steps. frame_eq.
Qed.

Lemma build_perform_action_Ok action argument source_id user_id :
  is_byte action → is_byte argument → is_byte source_id → is_byte user_id →
  protocol.build_perform_action action argument source_id user_id =
  Ok ([0x40; 0; 0; 0; action; argument] ++ replicate 27 0 ++
      [source_id; user_id; user_id;
       (0x40 + action + argument + source_id + user_id + user_id) mod 256]).
Proof.
  intros Ha Hg Hs Hu. unfold protocol.build_perform_action, bytearray.
  setitem_steps. frame_eq.
Qed.

Lemma build_read_eeprom_Ok address records source_id user_id :
  is_byte records → is_byte source_id → is_byte user_id →
  protocol.build_read_eeprom address records source_id user_id =
  Ok ([0x50; 0; Z.land (Z.shiftr address 8) 0xFF; Z.land address 0xFF; records] ++
      replicate 28 0 ++
      [source_id; user_id; user_id;
       (0x50 + Z.land (Z.shiftr address 8) 0xFF + Z.land address 0xFF + records
        + source_id + user_id + user_id) mod 256]).
Proof.
  intros Hr Hs Hu. unfold protocol.build_read_eeprom, bytearray.
  setitem_steps. frame_eq.
Qed.

Lemma build_initialize_communication_mgsp_Ok
    product_id fw0 fw1 fw2 panel_id pw0 pw1 source_id user_id :
  is_byte product_id → is_byte fw0 → is_byte fw1 → is_byte fw2 →
  is_byte pw0 → is_byte pw1 → is_byte source_id → is_byte user_id →
  protocol.build_initialize_communication_mgsp
    product_id (fw0, fw1, fw2) panel_id [pw0; pw1] source_id user_id =
  Ok ([0x00; product_id; fw0; fw1; fw2;
       Z.land (Z.shiftr panel_id 8) 0xFF; Z.land panel_id 0xFF;
       pw0; pw1; 0; 0; 0; source_id; user_id] ++ replicate 21 0 ++
      [user_id;
       (product_id + fw0 + fw1 + fw2 + Z.land (Z.shiftr panel_id 8) 0xFF
        + Z.land panel_id 0xFF + pw0 + pw1 + source_id + user_id + user_id) mod 256]).
Proof.
  intros Hp H0 H1 H2 Hw0 Hw1 Hs Hu.
  unfold protocol.build_initialize_communication_mgsp, bytearray.
  cbn [fst snd].
  setitem_steps.
  rewrite setslice_Ok by (repeat (constructor; [assumption|]); constructor).
  rewrite bind_Ok; cbn beta.
  setitem_steps. frame_eq.
Qed.

Lemma frame_ok_intro (payload : list Z) (c : Z) :
  length payload = 36%nat → c = protocol.calculate_checksum payload →
  frame_ok (payload ++ [c]).
Proof.
  intros Hlen ->. split.
  - rewrite length_app, Hlen. reflexivity.
  - rewrite lookup_app_r by lia. rewrite Hlen, take_app_length' by (symmetry; exact Hlen).
    reflexivity.
Qed.

Ltac frame_ok_explicit :=
  match goal with
  | |- frame_ok ?f =>
      change f with (take 36 f ++ drop 36 f); apply frame_ok_intro;
      [ reflexivity
      | cbn; unfold protocol.calculate_checksum, sum; cbn; f_equal; lia ]
  end.

(** ** The commands on an open connection *)

Section command_facts.
Import serial connection panel.

Lemma send_command_connected self s frame expected polls :
  connected_with self s →
  ∃ response s',
    send_command frame (Some expected) polls self = (Ok response, with_serial self s') ∧
    is_open s' = is_open s ∧ written s' = written s ++ [frame].
Proof.
  intros Hcon. unfold send_command.
  rewrite (M_bind_Ok _ _ _ _ _ (on_connection_write _ _ _ Hcon)).
  cbn beta iota.
  match goal with
  | |- context [with_serial self ?s1] =>
      destruct (wait_for_response_connected polls expected (with_serial self s1) s1)
        as (r & s' & Hr & Ho & Hw)
  end.
  { eapply connected_with_serial; [exact Hcon|reflexivity]. }
  rewrite Hr. exists r, s'. rewrite with_serial_twice. auto.
Qed.

(** What [arm_partition], [disarm_partition] and [bypass_zone] do once the
    action code is known and the argument fits a byte. *)
Lemma perform_action_connected self s action argument polls
    (k := (λ response : option (list Z),
            match response with
            | Some (result_code :: _) =>
                if result_code =? 0x40 then mret true else mret false
            | _ => mret false
            end) : option (list Z) → M ParadoxPanel bool) :
  connected_with self s → is_byte action → is_byte argument →
  ∃ frame response success self',
    protocol.build_perform_action action argument 0x01 0x00 = Ok frame ∧
    send_command frame (Some (seqZ 0x40 0x10)) polls self = (Ok response, self') ∧
    (lift (protocol.build_perform_action action argument 0x01 0x00) ≫= λ cmd,
       send_command cmd (Some (seqZ 0x40 0x10)) polls ≫= k) self = (Ok success, self') ∧
    transport_log self' = transport_log self ++ [frame] ∧
    length frame = 37%nat ∧ frame !! 4%nat = Some action ∧
    frame !! 5%nat = Some argument ∧
    (success = true ↔ ∃ r, response = Some r ∧ r !! 0%nat = Some 0x40).
Proof.
  intros Hcon Ha Hg.
  rewrite (build_perform_action_Ok action argument 1 0 Ha Hg)
    by (unfold is_byte; lia).
  match goal with |- context [Ok ?f = Ok _] => set (frame := f) end.
  exists frame.
  destruct (send_command_connected self s frame (seqZ 0x40 0x10) polls Hcon)
    as (response & s' & Hsend & Ho & Hw).
  exists response.
  exists (match response with
          | Some (result_code :: _) => bool_decide (result_code = 0x40)
          | _ => false
          end), (with_serial self s').
  split; [reflexivity|]. split; [exact Hsend|].
  split.
  { rewrite M_bind_unfold. cbn [lift]. rewrite M_bind_unfold, Hsend. unfold k.
    destruct response as [[|c r]|]; try reflexivity.
    destruct (Z.eqb_spec c 64); [rewrite bool_decide_true|rewrite bool_decide_false];
      auto. }
  split.
  { rewrite transport_log_with_serial, (transport_log_connected _ _ Hcon). exact Hw. }
  split; [reflexivity|]. split; [reflexivity|]. split; [reflexivity|].
  destruct response as [[|c r]|]; split; try discriminate.
  - intros (r & Hr & H0). inversion Hr; subst. discriminate.
  - intros Hc. apply bool_decide_eq_true in Hc. subst. eauto.
  - intros (r' & Hr & H0). inversion Hr; subst. cbn in H0. inversion H0.
    apply bool_decide_eq_true. reflexivity.
  - intros (r & Hr & _). discriminate.
Qed.






End command_facts.

(** ** Session gating *)

(** C3. Outside the authenticated state, [arm_partition], [disarm_partition],
    [bypass_zone] and [read_status] return their failure value ([False],
    [None]) at once and leave the panel, its connection and the port as they
    were: nothing is written. *)
Theorem commands_require_authentication
    (self : panel.ParadoxPanel) (partition zone address records : Z)
    (mode : string) (polls : nat) :
  panel._authenticated self = false →
  panel.arm_partition partition mode polls self = (Ok false, self) ∧
  panel.disarm_partition partition polls self = (Ok false, self) ∧
  panel.bypass_zone zone polls self = (Ok false, self) ∧
  panel.read_status address records polls self = (Ok None, self) ∧
  transport_log (panel.arm_partition partition mode polls self).2 = transport_log self.
Proof.
  intros Hauth.
  unfold panel.arm_partition, panel.disarm_partition, panel.bypass_zone,
    panel.read_status.
  rewrite !M_bind_unfold. cbn [get]. rewrite Hauth. cbn. auto.
Qed.


Lemma PARTITION_ACTIONS_byte mode code :
  protocol.PARTITION_ACTIONS !! mode = Some code → is_byte code.
Proof.
  intros H. apply elem_of_list_to_map_2 in H.
  repeat (apply elem_of_cons in H as [H|H]; [inversion H; unfold is_byte; lia|]).
  apply elem_of_nil in H. contradiction.
Qed.

(** C10. The commands do not check the documented ranges of their
    argument.  In the authenticated state and on an open connection,
    [arm_partition] (with a mode of the table), [disarm_partition] and
    [bypass_zone] write a frame whose byte 5 is [n - 1] whenever [n - 1] is a
    byte, and otherwise the builder raises [ValueError], which passes
    through the command, and the panel and the port stay as they were. *)
Theorem action_argument_range
    (self : panel.ParadoxPanel) (s : serial.Serial)
    (n : Z) (mode : string) (code : Z) (polls : nat) :
  panel._authenticated self = true → connected_with self s →
  protocol.PARTITION_ACTIONS !! mode = Some code →
  (0 <= n - 1 <= 255 →
     (∃ frame success self',
        panel.arm_partition n mode polls self = (Ok success, self') ∧
        transport_log self' = transport_log self ++ [frame] ∧
        frame !! 5%nat = Some (n - 1)) ∧
     (∃ frame success self',
        panel.disarm_partition n polls self = (Ok success, self') ∧
        transport_log self' = transport_log self ++ [frame] ∧
        frame !! 5%nat = Some (n - 1)) ∧
     (∃ frame success self',
        panel.bypass_zone n polls self = (Ok success, self') ∧
        transport_log self' = transport_log self ++ [frame] ∧
        frame !! 5%nat = Some (n - 1))) ∧
  (¬ (0 <= n - 1 <= 255) →
     let e := ValueError "byte must be in range(0, 256)" in
     panel.arm_partition n mode polls self = (Raise e, self) ∧
     panel.disarm_partition n polls self = (Raise e, self) ∧
     panel.bypass_zone n polls self = (Raise e, self)).
Proof.
  intros Hauth Hcon Hcode.
  pose proof (PARTITION_ACTIONS_byte _ _ Hcode) as Hbyte.
  assert (Hdisarm : protocol.PARTITION_ACTIONS !! "disarm" = Some 5) by reflexivity.
  assert (Hbypass : protocol.ZONE_ACTIONS !! "bypass" = Some 16) by reflexivity.
  unfold panel.arm_partition, panel.disarm_partition, panel.bypass_zone.
  rewrite !(M_bind_unfold get). cbn [get].
  rewrite Hauth, Hcode, Hdisarm, Hbypass. cbn [negb].
  rewrite !(M_bind_unfold (lift (Ok _))). cbn [lift].
  split.
  - intros Hn. assert (Harg : is_byte (n - 1)) by (unfold is_byte; lia).
    repeat split.
    + destruct (perform_action_connected self s code (n - 1) polls Hcon Hbyte Harg)
        as (frame & response & success & self' & _ & _ & Hrun & Hlog & _ & _ & H5 & _).
      exists frame, success, self'. auto.
    + destruct (perform_action_connected self s 5 (n - 1) polls Hcon) as
        (frame & response & success & self' & _ & _ & Hrun & Hlog & _ & _ & H5 & _);
        [unfold is_byte; lia|exact Harg|].
      exists frame, success, self'. auto.
    + destruct (perform_action_connected self s 16 (n - 1) polls Hcon) as
        (frame & response & success & self' & _ & _ & Hrun & Hlog & _ & _ & H5 & _);
        [unfold is_byte; lia|exact Harg|].
      exists frame, success, self'. auto.
  - intros Hn. assert (Harg : ¬ is_byte (n - 1)) by (unfold is_byte; lia).
    assert (Hraise : ∀ action, is_byte action →
      protocol.build_perform_action action (n - 1) 1 0 =
      Raise (ValueError "byte must be in range(0, 256)")).
    { intros action Ha. unfold protocol.build_perform_action, bytearray.
      setitem_steps. rewrite setitem_ValueError; [reflexivity|cbn; lia|exact Harg]. }
    cbn zeta. rewrite !M_bind_unfold. cbn [lift].
    rewrite !Hraise by first [exact Hbyte | unfold is_byte; lia].
    auto.
Qed.

(** ** The frame reader *)

(** C6. On an open connection [read_variable_length] never raises.  With
    nothing in the input buffer when the first byte is read it returns the
    empty result.  Otherwise the first byte [b] fixes the length aimed at,
    37 when [b <= 4] and [min b 37] when [b > 4] (10 for 10, 37 for 200),
    and the frame is [b] followed by the next [length - 1] bytes, or by all
    that is left when fewer are there. *)
Theorem read_variable_length_framing
    (self : connection.SerialConnection) (s : serial.Serial) :
  connection.is_connected self = true → connection.serial self = Some s →
  ∃ frame self',
    connection.read_variable_length 37 None self = (Ok frame, self') ∧
    (serial.in_buffer s = [] → frame = []) ∧
    (∀ b rest, serial.in_buffer s = b :: rest →
       frame = b :: take (Z.to_nat (target_length b - 1)) rest ∧
       (b <= 4 → target_length b = 37) ∧
       (4 < b → target_length b = Z.min b 37) ∧
       (Z.to_nat (target_length b - 1) <= length rest →
          length frame = Z.to_nat (target_length b))%nat) ∧
    target_length 10 = 10 ∧ target_length 200 = 37.
Proof.
  intros Hc Hs. rewrite (read_variable_length_connected self s Hc Hs).
  destruct (serial.in_buffer s) as [|b0 rest0] eqn:Hbuf.
  - eexists _, _. split; [reflexivity|]. split; [reflexivity|].
    split; [|split; reflexivity]. intros b rest H. discriminate H.
  - eexists _, _. split; [reflexivity|]. split; [intros H; discriminate H|].
    split; [|split; reflexivity]. intros b rest H. inversion H; subst b rest.
    pose proof (target_length_pos b0) as Hpos.
    destruct (take_drop_first (target_length b0) b0 rest0) as [<- _]; [lia|].
    split; [reflexivity|]. unfold target_length.
    destruct (Z.leb_spec b0 4); repeat split; try lia;
      intros Hlen; cbn [length]; rewrite length_take; lia.
Qed.

(** ** Parsing: what a successful parse tells about the bytes *)

Section construct_facts.
Import construct.

Lemma Construct_bind_inv {A B} (c : Construct A) (k : A → Construct B) s r :
  (c ≫= k) s = Ok r → ∃ a s1, c s = Ok (a, s1) ∧ k a s1 = Ok r.
Proof.
  unfold mbind, Construct_bind. destruct (c s) as [[a s1]|e]; [|discriminate].
  intros H. eauto.
Qed.

Lemma Construct_ret_inv {A} (a : A) s r :
  (mret a : Construct A) s = Ok r → r = (a, s).
Proof. intros H. inversion H. reflexivity. Qed.

Lemma Int8ub_inv s v s' : Int8ub s = Ok (v, s') → s = v :: s'.
Proof. destruct s; intros H; inversion H. reflexivity. Qed.

Lemma Bytes_inv n s v s' :
  Bytes n s = Ok (v, s') → s = v ++ s' ∧ length v = n.
Proof.
  unfold Bytes. intros H.
  destruct (Nat.ltb_spec (length s) n) as [Hlt|Hge]; inversion H.
  split; [symmetry; apply take_drop|]. apply length_take_le. lia.
Qed.

Lemma Padding_inv n s u s' :
  Padding n s = Ok (u, s') → ∃ v, s = v ++ s' ∧ length v = n.
Proof.
  intros H. apply Construct_bind_inv in H as (v & s1 & Hb & Hr).
  apply Construct_ret_inv in Hr. inversion Hr; subst.
  exists v. apply Bytes_inv. exact Hb.
Qed.

Lemma Const_inv value s v s' :
  Const value Int8ub s = Ok (v, s') → v = value ∧ s = value :: s'.
Proof.
  intros H. apply Construct_bind_inv in H as (obj & s1 & Hb & Hr).
  apply Int8ub_inv in Hb. destruct (Z.eqb_spec obj value); [|discriminate Hr].
  apply Construct_ret_inv in Hr. inversion Hr; subst. auto.
Qed.

Lemma Int16ub_inv s v s' :
  Int16ub s = Ok (v, s') → ∃ hi lo, s = hi :: lo :: s' ∧ v = hi * 256 + lo.
Proof.
  intros H. apply Construct_bind_inv in H as (hi & s1 & Hhi & H).
  apply Construct_bind_inv in H as (lo & s2 & Hlo & Hr).
  apply Int8ub_inv in Hhi, Hlo. apply Construct_ret_inv in Hr.
  inversion Hr; subst. eauto.
Qed.

Lemma Enum_inv mapping s v s' :
  Enum Int8ub mapping s = Ok (v, s') →
  ∃ obj, s = obj :: s' ∧ v = Enum_decode mapping obj.
Proof.
  intros H. apply Construct_bind_inv in H as (obj & s1 & Hb & Hr).
  apply Int8ub_inv in Hb. apply Construct_ret_inv in Hr.
  inversion Hr; subst. eauto.
Qed.

Lemma firmware_version_struct_inv s v s' :
  protocol.firmware_version_struct s = Ok (v, s') →
  ∃ a b c, s = a :: b :: c :: s' ∧
    v = {| protocol.version := a; protocol.revision := b; protocol.minor := c |}.
Proof.
  intros H. apply Construct_bind_inv in H as (a & s1 & Ha & H).
  apply Construct_bind_inv in H as (b & s2 & Hb & H).
  apply Construct_bind_inv in H as (c & s3 & Hc & Hr).
  apply Int8ub_inv in Ha, Hb, Hc. apply Construct_ret_inv in Hr.
  inversion Hr; subst. eauto 6.
Qed.

Lemma parse_inv {A} (con : Construct A) data a :
  parse con data = Ok a → ∃ rest, con data = Ok (a, rest).
Proof.
  unfold parse. destruct (con data) as [[a' rest]|e]; intros H; inversion H.
  eauto.
Qed.

Lemma intvalue_Enum_decode mapping obj : intvalue (Enum_decode mapping obj) = obj.
Proof. unfold Enum_decode. destruct (decmapping mapping !! obj); reflexivity. Qed.

End construct_facts.

(** Take a successful run of a layout apart, field by field. *)
Ltac construct_inv H :=
  repeat
    (let a := fresh "v" in
     let s1 := fresh "s" in
     let Hf := fresh "Hf" in
     lazymatch type of H with
     | (_ ≫= _) _ = Ok _ => apply Construct_bind_inv in H as (a & s1 & Hf & H)
     end;
     lazymatch type of Hf with
     | construct.Const _ _ _ = _ => apply Const_inv in Hf as [? ?]
     | construct.Int16ub _ = _ => apply Int16ub_inv in Hf as (? & ? & ? & ?)
     | construct.Int8ub _ = _ => apply Int8ub_inv in Hf
     | construct.Bytes _ _ = _ => apply Bytes_inv in Hf as [? ?]
     | construct.Padding _ _ = _ => apply Padding_inv in Hf as (? & ? & ?)
     | protocol.ProductIdEnum _ = _ => apply Enum_inv in Hf as (? & ? & ?)
     | protocol.CommunicationSourceIDEnum _ = _ => apply Enum_inv in Hf as (? & ? & ?)
     | protocol.firmware_version_struct _ = _ =>
         apply firmware_version_struct_inv in Hf as (? & ? & ? & ? & ?)
     end);
  apply Construct_ret_inv in H.

(** A list of known length, spelled out. *)
Ltac explode_lists :=
  repeat match goal with
  | H : length ?l = _ |- _ =>
      is_var l;
      repeat (destruct l as [|? l]; cbn [length] in H; try discriminate H);
      clear H
  end.

(** ** The handshake answer *)

(** C8, as the code has it.  A successful decode of an
    InitiateCommunication answer has 0x72 at offset 0 and 0xFF at offset 1,
    and takes [product_id] from offset 6, the firmware triple from offsets
    7 to 9, [panel_id] big-endian from offsets 10 and 11, [pc_password] from
    offsets 12 and 13, [source_id] from offset 29 and [user_id] from offset
    30.  [initiate_communication] returns and stores the product, firmware,
    panel identifier, password and source of the decoded answer; the user
    identifier is not kept. *)
Theorem initiate_communication_response_layout
    (response : list Z) (c : protocol.InitiateCommunicationResponse.t) :
  protocol.InitiateCommunicationResponse.parse response = Ok c →
  let fw := protocol.InitiateCommunicationResponse.firmware_version c in
  response !! 0%nat = Some 0x72 ∧
  response !! 1%nat = Some 0xFF ∧
  response !! 6%nat =
    Some (construct.intvalue (protocol.InitiateCommunicationResponse.product_id c)) ∧
  response !! 7%nat = Some (protocol.version fw) ∧
  response !! 8%nat = Some (protocol.revision fw) ∧
  response !! 9%nat = Some (protocol.minor fw) ∧
  (∃ hi lo, response !! 10%nat = Some hi ∧ response !! 11%nat = Some lo ∧
     protocol.InitiateCommunicationResponse.panel_id c = hi * 256 + lo) ∧
  slice response 12 14 = protocol.InitiateCommunicationResponse.pc_password c ∧
  response !! 29%nat = Some (protocol.InitiateCommunicationResponse.source_id c) ∧
  response !! 30%nat = Some (protocol.InitiateCommunicationResponse.user_id c) ∧
  (∀ self polls sent got request,
     (panel.on_connection connection.flush_input ≫= λ _,
        lift (protocol.build_initiate_communication 0) ≫= λ cmd,
          panel.on_connection (connection.write cmd)) self = (Ok request, sent) →
     panel.wait_for_response polls [0x72] sent = (Ok (Some response), got) →
     ∃ info self',
       panel.initiate_communication polls self = (Ok (Some info), self') ∧
       panel.panel_info self' = Some info ∧
       panel.product_id info = protocol.InitiateCommunicationResponse.product_id c ∧
       panel.firmware_version info =
         (protocol.version fw, protocol.revision fw, protocol.minor fw) ∧
       panel.panel_id info = protocol.InitiateCommunicationResponse.panel_id c ∧
       panel.pc_password info = protocol.InitiateCommunicationResponse.pc_password c ∧
       panel.source_id info = protocol.InitiateCommunicationResponse.source_id c).
Proof.
  intros Hparse fw. split_and!.
  11: {
    intros self polls sent got request Hsent Hwait.
    unfold panel.initiate_communication.
    apply M_bind_inv in Hsent as (u & self1 & Hflush & Hsent).
    apply M_bind_inv in Hsent as (cmd & self2 & Hbuild & Hsent).
    rewrite (M_bind_Ok _ _ _ _ _ Hflush), (M_bind_Ok _ _ _ _ _ Hbuild),
      (M_bind_Ok _ _ _ _ _ Hsent), (M_bind_Ok _ _ _ _ _ Hwait), Hparse.
    cbn. eexists _, _. split; [reflexivity|]. cbn. split_and!; reflexivity. }
  all: apply parse_inv in Hparse as [rest H];
    unfold protocol.InitiateCommunicationResponse.struct in H;
    construct_inv H; subst; explode_lists; subst fw; inversion H; subst; cbn;
    rewrite ?intvalue_Enum_decode; eauto.
Qed.

(** ** Round trips *)




(** ** Checksums on received frames *)

Lemma sum_insert (l : list Z) (i : nat) (old v : Z) :
  l !! i = Some old → sum (<[i:=v]> l) = sum l - old + v.
Proof.
  revert i. induction l as [|x l IH]; intros [|i] H; try discriminate H.
  - inversion H; subst. cbn. unfold sum. cbn. lia.
  - cbn in H. apply IH in H. change (<[S i:=v]> (x :: l)) with (x :: <[i:=v]> l).
    change (sum (x :: <[i:=v]> l)) with (x + sum (<[i:=v]> l)).
    change (sum (x :: l)) with (x + sum l). lia.
Qed.

Lemma validate_checksum_app (payload : list Z) (c : Z) :
  payload ≠ [] →
  commands.validate_checksum (payload ++ [c]) =
  bool_decide (c = protocol.calculate_checksum payload).
Proof.
  intros Hne. unfold commands.validate_checksum.
  rewrite length_app. cbn [length].
  destruct (Nat.ltb_spec (length payload + 1) 2) as [Hlt|Hge].
  { destruct payload; [contradiction|cbn in Hlt; lia]. }
  rewrite last_snoc, removelast_last. reflexivity.
Qed.

Lemma split_last_byte (frame : list Z) :
  length frame = 37%nat →
  ∃ payload c, frame = payload ++ [c] ∧ length payload = 36%nat.
Proof.
  intros Hlen. explode_lists.
  match goal with
  | |- ∃ p c, ?f = _ ∧ _ => exists (take 36 f), (default 0 (last f))
  end.
  split; reflexivity.
Qed.

Lemma mutation_detected (payload : list Z) (c : Z) (i : nat) (old v : Z) :
  payload !! i = Some old → is_byte old → is_byte v → old ≠ v →
  commands.validate_checksum (payload ++ [c]) = true →
  commands.validate_checksum (<[i:=v]> payload ++ [c]) = false.
Proof.
  intros Hi Hold Hv Hne Hvalid.
  assert (Hne1 : payload ≠ []) by (intros ->; discriminate Hi).
  assert (Hne2 : <[i:=v]> payload ≠ []).
  { intros E. apply (f_equal length) in E. rewrite length_insert in E.
    destruct payload; [contradiction|discriminate E]. }
  rewrite validate_checksum_app in * by assumption.
  apply bool_decide_eq_true in Hvalid. apply bool_decide_eq_false.
  unfold protocol.calculate_checksum in *.
  rewrite (sum_insert _ _ _ _ Hi). unfold is_byte in *.
  subst c. Z.div_mod_to_equations. lia.
Qed.

(** Whether a 37-byte frame decodes does not depend on its last byte. *)
Lemma parse_message_ignores_trailer (payload : list Z) (c1 c2 : Z) :
  length payload = 36%nat →
  is_Some (protocol.parse_message (payload ++ [c1])) →
  is_Some (protocol.parse_message (payload ++ [c2])).
Proof.
  intros Hlen. explode_lists. cbn [app].
  unfold protocol.parse_message. cbn [length Nat.ltb Nat.leb].
  destruct (protocol.get_parser_by_command z) as [parser|] eqn:Hparser;
    [|intros [? H]; discriminate H].
  clear Hparser. intros [x H].
  destruct (protocol.Struct_parse parser _) as [parsed|e] eqn:Hp in H;
    [clear H|discriminate H].
  destruct parser; cbn [protocol.Struct_parse] in Hp;
    match type of Hp with
    | (?p ≫= _) = _ =>
        destruct p as [c|e] eqn:Hc in Hp; [clear Hp|discriminate Hp]
    end;
    apply parse_inv in Hc as [rest Hc];
    match type of Hc with
    | ?st _ = _ => unfold st in Hc
    end;
    construct_inv Hc; explode_lists; simplify_eq/=;
    eexists; reflexivity.
Qed.

(** C2, as the code has it.  Decoding does not look at the checksum: whether
    a 37-byte frame decodes is the same whatever its last byte.  The test
    is [validate_checksum]: it answers [True] exactly for the frames of two
    bytes or more whose last byte is the sum of the bytes before it modulo
    256, and changing one of the bytes 0..35 of a frame it accepts to another
    byte value, the last byte kept, makes it answer [False]. *)
Theorem checksum_checked_by_validate_checksum
    (frame : list Z) (i : nat) (v c : Z) :
  length frame = 37%nat → Forall is_byte frame →
  commands.validate_checksum frame = true →
  (i < 36)%nat → is_byte v → frame !! i ≠ Some v →
  commands.validate_checksum (<[i:=v]> frame) = false ∧
  (is_Some (protocol.parse_message frame) ↔
   is_Some (protocol.parse_message (<[36%nat:=c]> frame))) ∧
  (∀ data,
     commands.validate_checksum data = true ↔
     (2 <= length data)%nat ∧
     last data = Some (protocol.calculate_checksum (removelast data))).
Proof.
  intros Hlen Hbytes Hvalid Hi Hv Hne.
  destruct (split_last_byte frame Hlen) as (payload & c0 & -> & Hpl).
  split_and!.
  - destruct (payload !! i) as [old|] eqn:Hold;
      [|apply lookup_ge_None in Hold; lia].
    rewrite insert_app_l by lia.
    apply (mutation_detected payload c0 i old v); try assumption.
    + apply Forall_app in Hbytes as [Hp _].
      rewrite Forall_forall in Hp. apply Hp. eapply list_elem_of_lookup_2, Hold.
    + intros ->. apply Hne. rewrite lookup_app_l by lia. exact Hold.
  - replace (<[36%nat:=c]> (payload ++ [c0])) with (payload ++ [c]).
    + split; apply parse_message_ignores_trailer; exact Hpl.
    + rewrite insert_app_r_alt, Hpl by lia. reflexivity.
  - intros data. unfold commands.validate_checksum.
    destruct (Nat.ltb_spec (length data) 2) as [Hlt|Hge].
    + split; [discriminate|]. intros [H _]. lia.
    + destruct (last data) as [l|] eqn:Hlast.
      * change (default 0 (Some l)) with l. rewrite bool_decide_eq_true. split.
        -- intros ->. auto.
        -- intros [_ H]. congruence.
      * apply last_None in Hlast. subst. cbn in Hge. lia.
Qed.

(** A frame with a wrong last byte that decodes all the same. *)
Lemma decode_accepts_wrong_checksum :
  let frame := [0x40] ++ replicate 36 0 in
  frame !! 36%nat ≠ Some (protocol.calculate_checksum (take 36 frame)) ∧
  commands.validate_checksum frame = false ∧
  protocol.parse_message frame =
    Some (protocol.PerformActionResponse_c
            {| protocol.PerformActionResponse.po_command := 0x40;
               protocol.PerformActionResponse.reserved_0 := replicate 33 0;
               protocol.PerformActionResponse.user_id := 0;
               protocol.PerformActionResponse.checksum := 0 |}).
Proof. split; [discriminate|]. split; reflexivity. Qed.

(** ** The event monitor *)

Section monitor_facts.
Import serial connection panel.

Lemma monitor_poll_connected self s :
  connected_with self s →
  monitor_poll self =
  match in_buffer s with
  | [] => (Ok None, with_serial self (elapse s))
  | b :: _ =>
      (Ok (if (0xE0 <=? b) && (b <=? 0xEF)
           then handle_live_event (take (Z.to_nat (target_length b)) (in_buffer s))
           else None),
       with_serial self
         (elapse
            {| is_open := is_open s; serial.timeout := serial.timeout s;
               in_buffer := drop (Z.to_nat (target_length b)) (in_buffer s);
               written := written s; line := line s |}))
  end.
Proof.
  intros Hcon. unfold monitor_poll.
  rewrite (M_bind_Ok _ _ _ _ _ (on_connection_available _ _ Hcon)).
  rewrite !M_bind_unfold.
  destruct (in_buffer s) as [|b rest] eqn:Hbuf.
  - change (Z.of_nat (length (@nil Z)) >? 0) with false. cbn [mret M_ret].
    rewrite (M_bind_Ok _ _ _ _ _ (time_sleep_connected _ _ Hcon)). reflexivity.
  - replace (Z.of_nat (length (b :: rest)) >? 0) with true
      by (symmetry; apply Z.gtb_lt; cbn [length]; lia).
    rewrite M_bind_unfold, (on_connection_read_variable_length _ _ Hcon), Hbuf.
    pose proof (target_length_pos b) as Hpos.
    replace (Z.to_nat (target_length b)) with (S (Z.to_nat (target_length b - 1))) by lia.
    cbn [take drop].
    match goal with
    | |- context [with_serial self ?s1] =>
        assert (Hcon1 : connected_with (with_serial self s1) s1)
          by (eapply connected_with_serial; [exact Hcon|reflexivity])
    end.
    destruct ((0xE0 <=? b) && (b <=? 0xEF)); cbn [mret M_ret];
      rewrite (M_bind_Ok _ _ _ _ _ (time_sleep_connected _ _ Hcon1)); reflexivity.
Qed.

Lemma is_connected_serial (c : SerialConnection) :
  is_connected c = true → ∃ s, connection.serial c = Some s.
Proof.
  unfold is_connected. destruct (connection.serial c) as [s|]; [eauto|].
  rewrite andb_false_r. discriminate.
Qed.

Lemma time_sleep_total self : ∃ self', time_sleep self = (Ok tt, self').
Proof.
  unfold time_sleep, set_connection.
  destruct (connection.serial (connection self)); eauto.
Qed.

(** A turn of the loop never raises. *)
Lemma monitor_poll_total self :
  ∃ event self', monitor_poll self = (Ok event, self').
Proof.
  destruct (is_connected (connection self)) eqn:Hc.
  - destruct (is_connected_serial _ Hc) as [s Hs].
    rewrite (monitor_poll_connected self s (conj Hc Hs)).
    destruct (in_buffer s); eexists _, _; reflexivity.
  - assert (Hav : on_connection available self = (Ok 0, self)).
    { unfold on_connection, available. rewrite M_bind_unfold. cbn [get].
      rewrite Hc. destruct self; reflexivity. }
    unfold monitor_poll. rewrite (M_bind_Ok _ _ _ _ _ Hav).
    change (0 >? 0) with false. rewrite M_bind_unfold. cbn [mret M_ret].
    destruct (time_sleep_total self) as [self' Hsleep].
    rewrite (M_bind_Ok _ _ _ _ _ Hsleep). eexists _, _; reflexivity.
Qed.

Lemma monitor_events_status polls : ∀ self, (monitor_events polls self).1.2 = Ok tt.
Proof.
  induction polls as [|polls IH]; intros self; [reflexivity|].
  cbn [monitor_events].
  destruct (monitor_poll_total self) as (event & self' & ->).
  specialize (IH self'). destruct (monitor_events polls self') as [[events status] self''].
  exact IH.
Qed.

(** Nothing buffered and nothing on the line: the loop idles. *)
Lemma monitor_events_idle polls : ∀ self s,
  connected_with self s → in_buffer s = [] → line s = [] →
  monitor_events polls self = ([], Ok tt, self).
Proof.
  induction polls as [|polls IH]; intros self s Hcon Hbuf Hline; [reflexivity|].
  cbn [monitor_events]. rewrite (monitor_poll_connected _ _ Hcon), Hbuf.
  assert (He : elapse s = s) by (unfold elapse; rewrite Hline; reflexivity).
  rewrite He, (with_serial_same self s) by apply Hcon.
  rewrite (IH self s Hcon Hbuf Hline). reflexivity.
Qed.

(** An event frame of 35 bytes or more is decoded, whatever its bytes. *)
Lemma handle_live_event_long (event_data : list Z) :
  (35 ≤ length event_data)%nat →
  ∃ event,
    handle_live_event event_data = Some event ∧
    Some (command event) = head event_data.
Proof.
  intros H.
  do 35 (destruct event_data as [|? event_data]; [cbn in H; lia|]).
  eexists. split; reflexivity.
Qed.

End monitor_facts.

(** C9. With one live-event frame in the input (command 0xE1, partition
    byte 2, the label [Front Door] padded with NUL to 16 bytes) and a silent
    line, [monitor_events] yields, over any number of turns from one on,
    exactly one record, with partition 2 and label [Front Door], whatever
    the last bytes of the frame are: the checksum is not compared.  A turn
    that reads a frame whose command byte is outside 0xE0..0xEF, or an event
    frame too short to decode (fewer than 35 bytes), yields nothing; a turn
    that reads an event frame of 35 bytes or more yields its record,
    whatever the bytes are; and no turn leaves the loop by an exception,
    whatever the port delivers. *)
Theorem monitor_events_live_event
    (self : panel.ParadoxPanel) (s : serial.Serial) (polls : nat)
    (reserved_0 event_group event_1 event_2 label_type : Z)
    (module_serial tail : list Z) :
  connected_with self s →
  length module_serial = 4%nat → length tail = 10%nat →
  serial.in_buffer s =
    [0xE1; reserved_0; event_group; event_1; event_2; 2] ++ module_serial ++
    [label_type] ++ code_points "Front Door" ++ replicate 6 0 ++ tail →
  serial.line s = [] →
  (panel.monitor_events (S polls) self).1 =
    ([ {| panel.command := 0xE1; panel.event_group := event_group;
          panel.event_1 := event_1; panel.event_2 := event_2;
          panel.partition := 2; panel.label_type := label_type;
          panel.label := "Front Door" |} ], Ok tt) ∧
  (∀ self' s' b rest,
     connected_with self' s' → serial.in_buffer s' = b :: rest →
     ¬ (0xE0 <= b <= 0xEF) ∨ (length rest < 34)%nat →
     ∃ self'', panel.monitor_poll self' = (Ok None, self'')) ∧
  (∀ self' s' b rest,
     connected_with self' s' → serial.in_buffer s' = b :: rest →
     0xE0 <= b <= 0xEF → (34 ≤ length rest)%nat →
     ∃ event self'',
       panel.monitor_poll self' = (Ok (Some event), self'') ∧
       panel.command event = b) ∧
  (∀ self' polls', (panel.monitor_events polls' self').1.2 = Ok tt).
Proof.
  intros Hcon Hms Htail Hbuf Hline. split_and!.
  - cbn [panel.monitor_events].
    rewrite (monitor_poll_connected _ _ Hcon), Hbuf.
    explode_lists. cbn [app].
    change (Z.to_nat (target_length 225)) with 37%nat.
    cbn [take drop replicate code_points].
    match goal with
    | |- context [with_serial self (serial.elapse ?s1)] =>
        erewrite (monitor_events_idle polls (with_serial self (serial.elapse s1)) (serial.elapse s1))
    end.
    + reflexivity.
    + eapply connected_with_serial; [exact Hcon|].
      rewrite elapse_is_open. reflexivity.
    + unfold serial.elapse. cbn. rewrite Hline. reflexivity.
    + unfold serial.elapse. cbn. rewrite Hline. reflexivity.
  - intros self' s' b rest Hcon' Hbuf' Hbad.
    rewrite (monitor_poll_connected _ _ Hcon'), Hbuf'.
    destruct (Z.leb_spec 0xE0 b) as [Hlo|Hlo]; [|cbn; eauto].
    destruct (Z.leb_spec b 0xEF) as [Hhi|Hhi]; [|cbn; eauto].
    destruct Hbad as [Hbad|Hshort]; [lia|]. cbn [andb].
    replace (target_length b) with 37
      by (unfold target_length; destruct (Z.leb_spec b 4); lia).
    rewrite take_ge by (cbn [length]; lia).
    replace (panel.handle_live_event (b :: rest)) with (@None panel.EventInfo); [eauto|].
    unfold panel.handle_live_event.
    destruct (protocol.LiveEvent.parse (b :: rest)) as [c|e] eqn:Hp; [|reflexivity].
    apply parse_inv in Hp as [rest' Hp]. unfold protocol.LiveEvent.struct in Hp.
    construct_inv Hp. explode_lists. simplify_eq/=. lia.
  - intros self' s' b rest Hcon' Hbuf' Hb Hlong.
    rewrite (monitor_poll_connected _ _ Hcon'), Hbuf'.
    destruct (Z.leb_spec 0xE0 b) as [_|?]; [|lia].
    destruct (Z.leb_spec b 0xEF) as [_|?]; [|lia]. cbn [andb].
    replace (Z.to_nat (target_length b)) with 37%nat
      by (unfold target_length; destruct (Z.leb_spec b 4); lia).
    destruct (handle_live_event_long (take 37 (b :: rest))) as (event & Hevent & Hcommand).
    { rewrite length_take. cbn [length]. lia. }
    rewrite Hevent. exists event. eexists. split; [reflexivity|].
    cbn in Hcommand. inversion Hcommand. reflexivity.
  - intros self' polls'. apply monitor_events_status.
Qed.

(** ** Frames on the way out *)

(** C7, as the code has it.  Every frame the four builders make from
    byte-range arguments and a password of two bytes has 37 bytes, and its
    last byte is the sum of the first 36 modulo 256.  The two bytes of the
    password are needed: the builder stores the password with a slice
    assignment, and a password of another length changes the length of the
    frame. *)
Theorem builders_frame_checksum
    (user_id product_id fw0 fw1 fw2 panel_id source_id action argument
     address records : Z) (pc_password_bytes : list Z) :
  is_byte user_id → is_byte product_id → is_byte fw0 → is_byte fw1 →
  is_byte fw2 → is_byte source_id → is_byte action → is_byte argument →
  is_byte records →
  Forall is_byte pc_password_bytes → length pc_password_bytes = 2%nat →
  (∃ f, protocol.build_initiate_communication user_id = Ok f ∧ frame_ok f) ∧
  (∃ f, protocol.build_initialize_communication_mgsp
          product_id (fw0, fw1, fw2) panel_id pc_password_bytes source_id user_id
        = Ok f ∧ frame_ok f) ∧
  (∃ f, protocol.build_perform_action action argument source_id user_id = Ok f ∧
        frame_ok f) ∧
  (∃ f, protocol.build_read_eeprom address records source_id user_id = Ok f ∧
        frame_ok f).
Proof.
  intros Hu Hp H0 H1 H2 Hs Ha Hg Hr Hpw Hlen.
  destruct pc_password_bytes as [|pw0 [|pw1 [|]]]; try discriminate Hlen.
  apply Forall_cons in Hpw as [Hpw0 Hpw]. apply Forall_cons in Hpw as [Hpw1 _].
  split_and!.
  - rewrite build_initiate_communication_Ok by assumption.
    eexists. split; [reflexivity|]. frame_ok_explicit.
  - rewrite build_initialize_communication_mgsp_Ok by assumption.
    eexists. split; [reflexivity|]. frame_ok_explicit.
  - rewrite build_perform_action_Ok by assumption.
    eexists. split; [reflexivity|]. frame_ok_explicit.
  - rewrite build_read_eeprom_Ok by assumption.
    eexists. split; [reflexivity|]. frame_ok_explicit.
Qed.

(** ** The password *)

Lemma all_ascii_complete (a : ascii) : a ∈ all_ascii.
Proof.
  assert (H : existsb (Ascii.eqb a) all_ascii = true)
    by (destruct a as [[] [] [] [] [] [] [] []]; vm_compute; reflexivity).
  apply existsb_exists in H as (x & Hin & Heq).
  apply Ascii.eqb_eq in Heq. subst x. apply list_elem_of_In, Hin.
Qed.

Lemma hex_pairs_checked :
  forallb (λ a, forallb (hex_pair_checked a) all_ascii) all_ascii = true.
Proof. vm_compute. reflexivity. Qed.

Lemma hex_digit_value_range c x : hex_digit_value c = Some x → 0 <= x < 16.
Proof.
  unfold hex_digit_value. intros Hv.
  repeat match type of Hv with
  | context [?a <=? ?b] => destruct (Z.leb_spec a b)
  end; cbn in Hv; inversion Hv; lia.
Qed.

Lemma int_16_hex_pair a b x y :
  hex_digit_value a = Some x → hex_digit_value b = Some y →
  int_16 (String a (String b EmptyString)) = Ok (16 * x + y).
Proof.
  intros Ha Hb. pose proof hex_pairs_checked as H.
  rewrite forallb_forall in H. specialize (H a).
  rewrite forallb_forall in H.
  assert (Hab : hex_pair_checked a b = true).
  { apply H; apply list_elem_of_In, all_ascii_complete. }
  unfold hex_pair_checked in Hab. rewrite Ha, Hb in Hab.
  destruct (int_16 _) as [v|e]; [|discriminate Hab].
  apply Z.eqb_eq in Hab. subst. reflexivity.
Qed.

(** Four hexadecimal digits are packed into two bytes, the first pair as
    the first byte. *)
Lemma encode_password_hex_digits a b c d x y z w :
  hex_digit_value a = Some x → hex_digit_value b = Some y →
  hex_digit_value c = Some z → hex_digit_value d = Some w →
  panel.encode_password (String a (String b (String c (String d EmptyString)))) =
  Ok [16 * x + y; 16 * z + w].
Proof.
  intros Ha Hb Hc Hd. unfold panel.encode_password.
  cbn [String.length Nat.eqb negb].
  change (str_slice (String a (String b (String c (String d EmptyString)))) 0 2)
    with (String a (String b EmptyString)).
  change (str_slice (String a (String b (String c (String d EmptyString)))) 2 4)
    with (String c (String d EmptyString)).
  rewrite (int_16_hex_pair a b x y Ha Hb), (int_16_hex_pair c d z w Hc Hd).
  apply hex_digit_value_range in Ha, Hb, Hc, Hd.
  cbn [mbind result_bind]. unfold bytes, is_byteb. cbn [forallb].
  repeat match goal with
  | |- context [?p <=? ?q] => destruct (Z.leb_spec p q); [|lia]
  | |- context [?p <? ?q] => destruct (Z.ltb_spec p q); [|lia]
  end.
  reflexivity.
Qed.

(** Any other length than four is refused. *)
Lemma encode_password_length password :
  String.length password ≠ 4%nat →
  panel.encode_password password =
  Raise (ValueError "Senha PC deve ter 4 caracteres hexadecimais").
Proof.
  intros H. unfold panel.encode_password.
  destruct (Nat.eqb_spec (String.length password) 4); [contradiction|reflexivity].
Qed.

Example encode_password_0000 : panel.encode_password "0000" = Ok [0x00; 0x00].
Proof. reflexivity. Qed.

Example encode_password_abcd : panel.encode_password "abcd" = Ok [0xAB; 0xCD].
Proof. reflexivity. Qed.

Example encode_password_12 :
  panel.encode_password "12" =
  Raise (ValueError "Senha PC deve ter 4 caracteres hexadecimais").
Proof. reflexivity. Qed.

Example encode_password_zzzz :
  panel.encode_password "zzzz" =
  Raise (ValueError "Senha PC deve conter apenas caracteres hexadecimais (0-9, a-f)").
Proof. reflexivity. Qed.

(** A password that is rejected stops [initialize_communication] before
    anything is written. *)
Example initialize_communication_zzzz :
  let self := example_panel "zzzz" (Some example_identity) false [] [] in
  panel.initialize_communication 3 self =
  (Raise (ValueError "Senha PC deve conter apenas caracteres hexadecimais (0-9, a-f)"),
   self).
Proof. reflexivity. Qed.

(** C4, where the code departs from it.  [+1+2] has four characters, two of
    them no hexadecimal digits, and is accepted: each half goes through
    [int(_, 16)], which reads a sign.  [initialize_communication] then sends
    the authentication frame with the bytes 1 and 2 as the password. *)
Theorem encode_password_accepts_signed_halves :
  let self := example_panel "+1+2" (Some example_identity) false [] [answer 0x10] in
  panel.encode_password "+1+2" = Ok [1; 2] ∧
  (panel.initialize_communication 3 self).1 = Ok true ∧
  transport_log (panel.initialize_communication 3 self).2 =
    [[0; 99; 4; 2; 1; 0x04; 0xD2; 1; 2; 0; 0; 0; 1; 0] ++ replicate 22 0 ++ [0x44]].
Proof. split_and!; reflexivity. Qed.

(** ** The scenarios, run *)

(** Scenario A: stale input is discarded, the handshake frame goes out, and
    the identity comes back from the answer. *)
Example scenario_identify :
  let self := example_panel "1234" None false [1; 2; 3] [example_response] in
  (panel.initiate_communication 3 self).1 =
    Ok (Some {| panel.product_id := construct.EnumIntegerString 4 "MAGELLAN_MG5050";
                panel.firmware_version := (4, 2, 1);
                panel.firmware_string := "4.2.1";
                panel.panel_id := 1234;
                panel.pc_password := [0x12; 0x34];
                panel.source_id := 5 |}) ∧
  transport_log (panel.initiate_communication 3 self).2 =
    [[0x72] ++ replicate 35 0 ++ [0x72]].
Proof. split; reflexivity. Qed.

(** Scenario C: [arm_partition 3 "arm_stay"] sends action 1 with argument 2
    and succeeds on the answer 0x40. *)
Example scenario_arm_stay :
  let self := example_panel "1234" (Some example_identity) true [] [answer 0x40] in
  (panel.arm_partition 3 "arm_stay" 3 self).1 = Ok true ∧
  transport_log (panel.arm_partition 3 "arm_stay" 3 self).2 =
    [[0x40; 0; 0; 0; 1; 2] ++ replicate 27 0 ++ [1; 0; 0; 0x44]].
Proof. split; reflexivity. Qed.

(** The answer 0x41 is a refusal, and silence a time-out: both give [False]. *)
Example scenario_arm_refused :
  (panel.arm_partition 3 "arm_stay" 3
     (example_panel "1234" (Some example_identity) true [] [answer 0x41])).1 = Ok false ∧
  (panel.arm_partition 3 "arm_stay" 3
     (example_panel "1234" (Some example_identity) true [] [])).1 = Ok false.
Proof. split; reflexivity. Qed.

(** An event frame cut short is skipped, and the frame that arrives after
    it is still decoded and yielded. *)
Example scenario_malformed_then_event :
  let self :=
    example_panel "1234" (Some example_identity) true
      (take 10 front_door_frame) [front_door_frame] in
  (panel.monitor_events 3 self).1 =
    ([ {| panel.command := 0xE1; panel.event_group := 1; panel.event_1 := 2;
          panel.event_2 := 3; panel.partition := 2; panel.label_type := 0;
          panel.label := "Front Door" |} ], Ok tt).
Proof. reflexivity. Qed.

(** ** Counterexample to the offsets 27 and 28 *)

(** The sample answer carries 0xAA and 0xBB at offsets 27 and 28, and its
    decoded [source_id] and [user_id] are the bytes 5 and 7 at offsets 29
    and 30. *)
Lemma source_id_offset_counterexample :
  protocol.InitiateCommunicationResponse.parse example_response = Ok example_parsed ∧
  example_response !! 27%nat = Some 0xAA ∧
  example_response !! 28%nat = Some 0xBB ∧
  Some (protocol.InitiateCommunicationResponse.source_id example_parsed)
    ≠ example_response !! 27%nat ∧
  Some (protocol.InitiateCommunicationResponse.user_id example_parsed)
    ≠ example_response !! 28%nat.
Proof. split_and!; try reflexivity; discriminate. Qed.

(** ** Instances *)


Lemma checksum_checked_by_validate_checksum_witness :
  let frame := [0x40; 0; 0; 0; 4; 2] ++ replicate 27 0 ++ [1; 0; 0; 0x47] in
  commands.validate_checksum frame = true ∧
  commands.validate_checksum (<[5%nat:=9]> frame) = false.
Proof.
  split; [reflexivity|].
  apply (checksum_checked_by_validate_checksum _ 5%nat 9 0);
    first [ reflexivity | lia | (unfold is_byte; lia) | discriminate
          | (repeat (constructor; [unfold is_byte; lia|]); constructor) ].
Defined.

Lemma commands_require_authentication_witness :
  let self := example_panel "1234" (Some example_identity) false [] [answer 0x40] in
  panel._authenticated self = false ∧
  panel.arm_partition 3 "arm_stay" 3 self = (Ok false, self) ∧
  panel.disarm_partition 3 3 self = (Ok false, self) ∧
  panel.bypass_zone 7 3 self = (Ok false, self) ∧
  panel.read_status 0 1 3 self = (Ok None, self) ∧
  transport_log (panel.arm_partition 3 "arm_stay" 3 self).2 = transport_log self.
Proof.
  split; [reflexivity|].
  apply (commands_require_authentication
           (example_panel "1234" (Some example_identity) false [] [answer 0x40])
           3 7 0 1 "arm_stay" 3).
  reflexivity.
Defined.


Lemma read_variable_length_framing_witness :
  let self := example_connection [10; 1; 2; 3; 4; 5; 6; 7; 8; 9; 11; 12] [] in
  ∃ frame self',
    connection.read_variable_length 37 None self = (Ok frame, self') ∧
    frame = 10 :: take (Z.to_nat (target_length 10 - 1)) [1; 2; 3; 4; 5; 6; 7; 8; 9; 11; 12] ∧
    length frame = 10%nat.
Proof.
  destruct (read_variable_length_framing
              (example_connection [10; 1; 2; 3; 4; 5; 6; 7; 8; 9; 11; 12] [])
              (example_serial [10; 1; 2; 3; 4; 5; 6; 7; 8; 9; 11; 12] [])
              eq_refl eq_refl)
    as (frame & self' & Hrun & _ & Hframe & _).
  exists frame, self'. split; [exact Hrun|].
  destruct (Hframe 10 [1; 2; 3; 4; 5; 6; 7; 8; 9; 11; 12] eq_refl)
    as (Heq & _ & _ & Hlen).
  split; [exact Heq|]. apply Hlen. vm_compute. lia.
Defined.

Lemma builders_frame_checksum_witness :
  ∃ f, protocol.build_perform_action 4 2 1 0 = Ok f ∧ frame_ok f.
Proof.
  apply (builders_frame_checksum 0 4 4 2 1 1234 1 4 2 0x1234 3 [0x12; 0x34]);
    first [ (unfold is_byte; lia) | reflexivity
          | (repeat (constructor; [unfold is_byte; lia|]); constructor) ].
Defined.

Lemma initiate_communication_response_layout_witness :
  let self := example_panel "1234" None false [1; 2; 3] [example_response] in
  protocol.InitiateCommunicationResponse.parse example_response = Ok example_parsed ∧
  example_response !! 29%nat = Some 5 ∧
  example_response !! 30%nat = Some 7 ∧
  ∃ info self',
    panel.initiate_communication 3 self = (Ok (Some info), self') ∧
    panel.panel_info self' = Some info ∧
    panel.panel_id info = 1234 ∧
    panel.source_id info = 5.
Proof.
  intros self. split; [reflexivity|].
  destruct (initiate_communication_response_layout example_response example_parsed eq_refl)
    as (_ & _ & _ & _ & _ & _ & _ & _ & H29 & H30 & Hidentity).
  split; [exact H29|]. split; [exact H30|].
  set (sent := ((panel.on_connection connection.flush_input ≫= λ _,
                   lift (protocol.build_initiate_communication 0) ≫= λ cmd,
                     panel.on_connection (connection.write cmd)) self).2).
  destruct (Hidentity self 3%nat sent (panel.wait_for_response 3 [0x72] sent).2 37)
    as (info & self' & Hrun & Hinfo & _ & _ & Hid & _ & Hsrc).
  - vm_compute. reflexivity.
  - vm_compute. reflexivity.
  - exists info, self'. split; [exact Hrun|]. split; [exact Hinfo|].
    split; [exact Hid|exact Hsrc].
Defined.

Lemma monitor_events_live_event_witness :
  let self :=
    example_panel "1234" (Some example_identity) true front_door_frame_with_checksum [] in
  commands.validate_checksum front_door_frame_with_checksum = true ∧
  (panel.monitor_events 3 self).1 =
    ([ {| panel.command := 0xE1; panel.event_group := 1; panel.event_1 := 2;
          panel.event_2 := 3; panel.partition := 2; panel.label_type := 0;
          panel.label := "Front Door" |} ], Ok tt).
Proof.
  split; [reflexivity|].
  apply (monitor_events_live_event
           (example_panel "1234" (Some example_identity) true
              front_door_frame_with_checksum [])
           (example_serial front_door_frame_with_checksum []) 2 0 1 2 3 0 [0; 0; 0; 0]
           (replicate 9 0 ++ [166])).
  - split; reflexivity.
  - reflexivity.
  - reflexivity.
  - reflexivity.
  - reflexivity.
Defined.

(** ** Counterexample to the skipping of an event frame with a wrong checksum *)

(** The frame ends in 0 where the sum of its first 36 bytes is 166:
    [validate_checksum] refuses it, and [monitor_events] yields its
    record all the same. *)
Lemma monitor_events_wrong_checksum_counterexample :
  let self := example_panel "1234" (Some example_identity) true front_door_frame [] in
  front_door_frame !! 36%nat = Some 0 ∧
  foldr Z.add 0 (take 36 front_door_frame) mod 256 = 166 ∧
  commands.validate_checksum front_door_frame = false ∧
  (panel.monitor_events 3 self).1 =
    ([ {| panel.command := 0xE1; panel.event_group := 1; panel.event_1 := 2;
          panel.event_2 := 3; panel.partition := 2; panel.label_type := 0;
          panel.label := "Front Door" |} ], Ok tt).
Proof. split_and!; reflexivity. Qed.

(** ** Counterexample to the 37 bytes of every built frame *)

(** A password of three bytes, each in range, makes the frame of
    [build_initialize_communication_mgsp] 38 bytes long. *)
Lemma builders_frame_length_counterexample :
  Forall is_byte [1; 2; 3] ∧
  (f ← protocol.build_initialize_communication_mgsp 99 (4, 2, 1) 1234 [1; 2; 3] 1 0;
   mret (length f)) = Ok 38%nat.
Proof.
  split; [|reflexivity].
  repeat (constructor; [unfold is_byte; lia|]). constructor.
Qed.

Lemma action_argument_range_witness :
  let self := example_panel "1234" (Some example_identity) true [] [answer 0x40] in
  let e := ValueError "byte must be in range(0, 256)" in
  panel.arm_partition 300 "arm" 3 self = (Raise e, self) ∧
  panel.disarm_partition 300 3 self = (Raise e, self) ∧
  panel.bypass_zone 300 3 self = (Raise e, self).
Proof.
  apply (action_argument_range
           (example_panel "1234" (Some example_identity) true [] [answer 0x40])
           (example_serial [] [answer 0x40]) 300 "arm" 4 3).
  - reflexivity.
  - split; reflexivity.
  - reflexivity.
  - lia.
Defined.

(** * Further properties *)

(** ** The connection, open and closed *)

Section connection_more.
Import serial connection.

Lemma read_variable_length_general self s max_length initial_timeout :
  is_connected self = true → connection.serial self = Some s →
  match initial_timeout with Some t => 0 <= t | None => True end →
  read_variable_length max_length initial_timeout self =
  match in_buffer s with
  | [] => (Ok [], self)
  | b :: rest =>
      let n := Z.to_nat (message_length max_length b - 1) in
      (Ok (b :: take n rest),
       set_serial self
         {| is_open := is_open s; serial.timeout := serial.timeout s;
            in_buffer := drop n rest; written := written s; line := line s |})
  end.
Proof.
  intros Hc Hs Ht. unfold read_variable_length.
  cbv [mbind M_bind mret M_ret get raise on_serial on_serial_raising].
  rewrite Hc. cbn. rewrite Hs.
  destruct initial_timeout as [t|]; cbn;
    [unfold set_timeout; destruct (Z.ltb_spec t 0) as [?|_]; [lia|]; cbn|];
    (destruct (in_buffer s) as [|b rest] eqn:Hbuf; cbn;
     [ f_equal; destruct self, s; simpl in *; subst; reflexivity
     | change (Z.to_nat 1) with 1%nat; cbn; rewrite take_0, !drop_0;
       reflexivity ]).
Qed.

Lemma read_variable_length_invalid_timeout self s max_length t :
  is_connected self = true → connection.serial self = Some s → t < 0 →
  read_variable_length max_length (Some t) self = (Raise (invalid_timeout t), self).
Proof.
  intros Hc Hs Ht. unfold read_variable_length.
  cbv [mbind M_bind mret M_ret get raise on_serial on_serial_raising].
  rewrite Hc. cbn. rewrite Hs. cbn. unfold set_timeout.
  destruct (Z.ltb_spec t 0) as [_|?]; [|lia]. cbn.
  f_equal. destruct self, s; simpl in *; subst; reflexivity.
Qed.

(** X1. Reading loses nothing.  On an open connection, for any
    [max_length] and an [initial_timeout] that is [None] or not negative,
    [read_variable_length] returns without raising, the frame followed by
    what stays in the input buffer is the input buffer of before, the
    time-out of the port is what it was, and nothing else of the port
    changes.  A negative [initial_timeout] is refused by the setter of the
    port, before the [try]: the [ValueError] leaves the method, and nothing
    has been read or changed.  [read] likewise returns at most [length]
    bytes from the front of the input buffer and leaves the rest. *)
Theorem read_variable_length_conserves
    (self : SerialConnection) (s : Serial) (max_length length_asked : Z)
    (initial_timeout : option Z) :
  is_connected self = true → connection.serial self = Some s →
  (match initial_timeout with Some t => 0 <= t | None => True end →
   ∃ frame s',
     read_variable_length max_length initial_timeout self =
       (Ok frame, set_serial self s') ∧
     frame ++ in_buffer s' = in_buffer s ∧
     serial.timeout s' = serial.timeout s ∧
     written s' = written s ∧ line s' = line s ∧ is_open s' = is_open s ∧
     (length frame <= Z.to_nat (Z.max 37 max_length))%nat) ∧
  (∀ t, initial_timeout = Some t → t < 0 →
     read_variable_length max_length initial_timeout self =
       (Raise (invalid_timeout t), self)) ∧
  (∃ data s',
     connection.read length_asked self = (Ok data, set_serial self s') ∧
     data ++ in_buffer s' = in_buffer s ∧
     serial.timeout s' = serial.timeout s ∧
     written s' = written s ∧ line s' = line s ∧ is_open s' = is_open s ∧
     (length data <= Z.to_nat length_asked)%nat).
Proof.
  intros Hc Hs. split_and!.
  - intros Ht. rewrite (read_variable_length_general _ _ _ _ Hc Hs Ht).
    destruct (in_buffer s) as [|b rest] eqn:Hbuf.
    + exists [], s. rewrite (set_serial_same _ _ Hs), Hbuf. cbn.
      split_and!; try reflexivity. lia.
    + cbn zeta. eexists _, _. split; [reflexivity|]. cbn.
      rewrite take_drop. split_and!; try reflexivity.
      rewrite length_take. unfold message_length.
      destruct (Z.gtb_spec b 4); [destruct (Z.gtb_spec b max_length)|]; lia.
  - intros t -> Ht. apply (read_variable_length_invalid_timeout _ _ _ _ Hc Hs Ht).
  - unfold connection.read. rewrite M_bind_unfold. cbn [get]. rewrite Hc.
    cbn [negb]. unfold on_serial. rewrite Hs. cbn.
    eexists _, _. split; [reflexivity|]. cbn.
    rewrite take_drop. split_and!; try reflexivity.
    rewrite length_take. lia.
Qed.

End connection_more.

Lemma M_bind_Raise {S A B} (m : M S A) (k : A → M S B) (s s' : S) (e : exn) :
  m s = (Raise e, s') → (m ≫= k) s = (Raise e, s').
Proof. intros H. rewrite M_bind_unfold, H. reflexivity. Qed.

Section closed_connection.
Import serial connection.

Lemma write_closed self data :
  is_connected self = false → connection.write data self = (Raise not_connected, self).
Proof.
  intros H. unfold connection.write. rewrite M_bind_unfold. cbn [get].
  rewrite H. reflexivity.
Qed.

Lemma available_closed self :
  is_connected self = false → available self = (Ok 0, self).
Proof.
  intros H. unfold available. rewrite M_bind_unfold. cbn [get].
  rewrite H. reflexivity.
Qed.

Lemma flush_input_closed self :
  is_connected self = false → flush_input self = (Ok tt, self).
Proof.
  intros H. unfold flush_input. rewrite M_bind_unfold. cbn [get].
  rewrite H. reflexivity.
Qed.

Lemma disconnect_closes self : is_connected (disconnect self).2 = false.
Proof.
  unfold disconnect. rewrite M_bind_unfold. cbn [get].
  destruct self as [p b t [s|] c]; cbn; [|apply andb_false_r].
  destruct (is_open s) eqn:Ho; cbn; [reflexivity|].
  unfold is_connected. cbn. rewrite Ho. apply andb_false_r.
Qed.

(** X2. Whatever the state of the connection, [disconnect] returns without
    raising and leaves it closed, and a second [disconnect] changes
    nothing.  On the closed
    connection [write], [read] and [read_variable_length] raise the
    "not connected" [SerialException], [available] is 0 and the two flushes
    do nothing, all without touching the connection; a [connect] whose port
    fails to open passes the exception on and changes nothing, and one whose
    port opens makes the connection usable again.  Leaving a [with] block
    is a [disconnect] that returns [False], so that an exception raised in
    the block goes on. *)
Theorem disconnect_closes_the_connection
    (self : SerialConnection) (data : list Z) (n max_length : Z)
    (initial_timeout : option Z) (e : exn) (line : list (list Z)) :
  let closed := (disconnect self).2 in
  (disconnect self).1 = Ok tt ∧
  is_connected closed = false ∧
  disconnect closed = (Ok tt, closed) ∧
  connection.write data closed = (Raise not_connected, closed) ∧
  connection.read n closed = (Raise not_connected, closed) ∧
  read_variable_length max_length initial_timeout closed =
    (Raise not_connected, closed) ∧
  available closed = (Ok 0, closed) ∧
  flush_input closed = (Ok tt, closed) ∧
  flush_output closed = (Ok tt, closed) ∧
  connect (Raise e) closed = (Raise e, closed) ∧
  is_connected (connect (Ok line) closed).2 = true ∧
  __exit__ self = (Ok false, closed).
Proof.
  intros closed. pose proof (disconnect_closes self) as Hclosed. fold closed in Hclosed.
  split_and!.
  - unfold disconnect. rewrite M_bind_unfold. cbn [get].
    destruct self as [p b t [s|] c]; cbn; [|reflexivity].
    destruct (is_open s); reflexivity.
  - exact Hclosed.
  - subst closed. unfold disconnect. rewrite !M_bind_unfold. cbn [get].
    destruct self as [p b t [s|] c]; cbn; [|reflexivity].
    destruct (is_open s) eqn:Ho; cbn; [reflexivity|]. rewrite Ho. reflexivity.
  - apply write_closed, Hclosed.
  - unfold connection.read. rewrite M_bind_unfold. cbn [get]. rewrite Hclosed.
    reflexivity.
  - unfold read_variable_length. rewrite M_bind_unfold. cbn [get].
    rewrite Hclosed. reflexivity.
  - apply available_closed, Hclosed.
  - apply flush_input_closed, Hclosed.
  - unfold flush_output. rewrite M_bind_unfold. cbn [get]. rewrite Hclosed.
    reflexivity.
  - reflexivity.
  - reflexivity.
  - subst closed. unfold __exit__. rewrite M_bind_unfold.
    destruct (disconnect self) as [[[]|e0] self1] eqn:Hd; [reflexivity|].
    exfalso. revert Hd. unfold disconnect. rewrite M_bind_unfold. cbn [get].
    destruct self as [p b t [s|] c]; cbn; [|discriminate].
    destruct (is_open s); discriminate.
Qed.

End closed_connection.

Section closed_panel.
Import serial connection panel.

Lemma on_connection_write_closed self data :
  is_connected (connection self) = false →
  on_connection (connection.write data) self = (Raise not_connected, self).
Proof.
  intros H. unfold on_connection. rewrite (write_closed _ _ H).
  destruct self; reflexivity.
Qed.

Lemma on_connection_available_closed self :
  is_connected (connection self) = false →
  on_connection available self = (Ok 0, self).
Proof.
  intros H. unfold on_connection. rewrite (available_closed _ H).
  destruct self; reflexivity.
Qed.

Lemma time_sleep_is_connected self :
  is_connected (connection (time_sleep self).2) = is_connected (connection self).
Proof.
  unfold time_sleep, set_connection, is_connected.
  destruct (connection.serial (connection self)) as [s|] eqn:Hs; cbn;
    [rewrite elapse_is_open|rewrite Hs]; reflexivity.
Qed.

Lemma time_sleep_Ok self : (time_sleep self).1 = Ok tt.
Proof.
  unfold time_sleep, set_connection.
  destruct (connection.serial (connection self)); reflexivity.
Qed.

Lemma wait_for_response_closed polls expected : ∀ self,
  is_connected (connection self) = false →
  (wait_for_response polls expected self).1 = Ok None.
Proof.
  induction polls as [|polls IH]; intros self Hc; [reflexivity|].
  cbn [wait_for_response].
  rewrite (M_bind_Ok _ _ _ _ _ (on_connection_available_closed _ Hc)).
  change (0 >? 0) with false. rewrite M_bind_unfold. cbn [mret M_ret].
  rewrite M_bind_unfold.
  pose proof (time_sleep_Ok self) as H1.
  pose proof (time_sleep_is_connected self) as H2.
  destruct (time_sleep self) as [r self1]. cbn in H1, H2. subst r.
  apply IH. rewrite H2. exact Hc.
Qed.

(** X3. On a closed connection the commands of an authenticated panel do
    not fail softly: [arm_partition] (with a mode of the table),
    [disarm_partition], [bypass_zone] and [read_status] with arguments in
    range, and [initiate_communication], raise the [SerialException] of
    [write], and the panel stays as it was; [wait_for_response] only times
    out. *)
Theorem commands_on_closed_connection
    (self : ParadoxPanel) (n : Z) (mode : string) (code : Z)
    (address records : Z) (polls : nat) (expected : list Z) :
  is_connected (connection self) = false →
  _authenticated self = true →
  protocol.PARTITION_ACTIONS !! mode = Some code →
  0 <= n - 1 <= 255 → is_byte records →
  arm_partition n mode polls self = (Raise not_connected, self) ∧
  disarm_partition n polls self = (Raise not_connected, self) ∧
  bypass_zone n polls self = (Raise not_connected, self) ∧
  read_status address records polls self = (Raise not_connected, self) ∧
  initiate_communication polls self = (Raise not_connected, self) ∧
  (wait_for_response polls expected self).1 = Ok None.
Proof.
  intros Hc Hauth Hcode Hn Hr.
  pose proof (PARTITION_ACTIONS_byte _ _ Hcode) as Hbyte.
  assert (Harg : is_byte (n - 1)) by (unfold is_byte; lia).
  assert (Hdisarm : protocol.PARTITION_ACTIONS !! "disarm" = Some 5) by reflexivity.
  assert (Hbypass : protocol.ZONE_ACTIONS !! "bypass" = Some 16) by reflexivity.
  assert (Hsend : ∀ cmd exp, send_command cmd exp polls self = (Raise not_connected, self)).
  { intros cmd exp. unfold send_command.
    apply M_bind_Raise, on_connection_write_closed, Hc. }
  assert (Hget : ∀ A (k : ParadoxPanel → M ParadoxPanel A), (get ≫= k) self = k self self)
    by reflexivity.
  assert (Hlift : ∀ A B (a : A) (k : A → M ParadoxPanel B),
            (lift (Ok a) ≫= k) self = k a self) by reflexivity.
  split_and!.
  - unfold arm_partition. rewrite Hget, Hauth, Hcode. cbn [negb].
    rewrite build_perform_action_Ok by first [assumption|unfold is_byte; lia].
    rewrite Hlift. apply M_bind_Raise, Hsend.
  - unfold disarm_partition. rewrite Hget, Hauth, Hdisarm. cbn [negb].
    rewrite Hlift.
    rewrite build_perform_action_Ok by first [assumption|unfold is_byte; lia].
    rewrite Hlift. apply M_bind_Raise, Hsend.
  - unfold bypass_zone. rewrite Hget, Hauth, Hbypass. cbn [negb].
    rewrite Hlift.
    rewrite build_perform_action_Ok by first [assumption|unfold is_byte; lia].
    rewrite Hlift. apply M_bind_Raise, Hsend.
  - unfold read_status. rewrite Hget, Hauth. cbn [negb].
    rewrite build_read_eeprom_Ok by first [assumption|unfold is_byte; lia].
    rewrite Hlift. apply M_bind_Raise, Hsend.
  - assert (Hf : on_connection flush_input self = (Ok tt, self)).
    { unfold on_connection. rewrite (flush_input_closed _ Hc). destruct self; reflexivity. }
    unfold initiate_communication.
    rewrite (M_bind_Ok _ _ _ _ _ Hf).
    rewrite build_initiate_communication_Ok by (unfold is_byte; lia).
    rewrite Hlift. apply M_bind_Raise, on_connection_write_closed, Hc.
  - apply wait_for_response_closed, Hc.
Qed.

End closed_panel.

(** ** The generic parser *)

Section parser_facts.
Import construct protocol.

Lemma get_parser_by_command_cases (b : Z) :
  (0x40 <= b <= 0x4F ∧ get_parser_by_command b = Some PerformActionResponse) ∨
  (0x50 <= b <= 0x5F ∧ get_parser_by_command b = Some ReadEEPROMResponse) ∨
  (0xE0 <= b <= 0xEF ∧ get_parser_by_command b = Some LiveEvent) ∨
  (b = 0x72 ∧ get_parser_by_command b = Some InitiateCommunicationResponse) ∨
  (b = 0x00 ∧ get_parser_by_command b = Some InitializeCommunication_MGSP) ∨
  ((b = 0x10 ∨ b = 0x70) ∧
   get_parser_by_command b = Some InitializeCommunicationResponse_MGSP) ∨
  (¬ (b = 0x00 ∨ b = 0x10 ∨ b = 0x70 ∨ b = 0x72 ∨ 0x40 <= b <= 0x5F ∨
      0xE0 <= b <= 0xEF) ∧ get_parser_by_command b = None).
Proof.
  unfold get_parser_by_command.
  destruct (Z.leb_spec 0x40 b), (Z.leb_spec b 0x4F); cbn [andb]; auto.
  all: destruct (Z.leb_spec 0x50 b), (Z.leb_spec b 0x5F); cbn [andb]; auto;
    try lia.
  all: destruct (Z.leb_spec 0xE0 b), (Z.leb_spec b 0xEF); cbn [andb]; auto 10;
    try lia.
  all: destruct (decide (b = 0x72)) as [->|?]; [auto 10|];
    destruct (decide (b = 0x00)) as [->|?]; [auto 10|];
    destruct (decide (b = 0x10)) as [->|?]; [auto 10|];
    destruct (decide (b = 0x70)) as [->|?]; [auto 10|].
  all: do 6 right; (split; [lia|]);
    apply not_elem_of_list_to_map_1; cbn;
    rewrite !elem_of_cons, elem_of_nil; lia.
Qed.

(** X4. The layout [get_parser_by_command] hands out for a command byte:
    the answer layouts for 0x40..0x4F and 0x50..0x5F, the event layout for
    0xE0..0xEF, the table for 0x72, 0x00, 0x10 and 0x70, and nothing for any
    other integer.  The request layouts [PerformAction] and [ReadEEPROM]
    are in the table under 0x40 and 0x50 but no command byte selects
    them. *)
Theorem get_parser_by_command_layouts (b : Z) :
  (parsers !! 0x40 = Some PerformAction ∧ parsers !! 0x50 = Some ReadEEPROM) ∧
  get_parser_by_command b ≠ Some PerformAction ∧
  get_parser_by_command b ≠ Some ReadEEPROM ∧
  (get_parser_by_command b = Some PerformActionResponse ↔ 0x40 <= b <= 0x4F) ∧
  (get_parser_by_command b = Some ReadEEPROMResponse ↔ 0x50 <= b <= 0x5F) ∧
  (get_parser_by_command b = Some LiveEvent ↔ 0xE0 <= b <= 0xEF) ∧
  (get_parser_by_command b = Some InitiateCommunicationResponse ↔ b = 0x72) ∧
  (get_parser_by_command b = Some InitializeCommunication_MGSP ↔ b = 0x00) ∧
  (get_parser_by_command b = Some InitializeCommunicationResponse_MGSP ↔
     b = 0x10 ∨ b = 0x70) ∧
  (get_parser_by_command b = None ↔
     ¬ (b = 0x00 ∨ b = 0x10 ∨ b = 0x70 ∨ b = 0x72 ∨ 0x40 <= b <= 0x5F ∨
        0xE0 <= b <= 0xEF)).
Proof.
  split; [split; reflexivity|].
  destruct (get_parser_by_command_cases b)
    as [[Hb ->]|[[Hb ->]|[[Hb ->]|[[Hb ->]|[[Hb ->]|[[Hb ->]|[Hb ->]]]]]]];
    split_and!; try discriminate;
    (split; [intros H; first [discriminate H | lia | tauto | exact Hb]
            |intros H; first [reflexivity | lia | tauto]]).
Qed.

End parser_facts.

(** The first bytes of a list that is long enough, spelled out. *)
Ltac take_bytes H :=
  repeat
    lazymatch type of H with
    | (S _ ≤ length ?l)%nat =>
        destruct l as [|? l]; [cbn in H; lia|cbn [length] in H; apply le_S_n in H]
    end;
  clear H.

(** The length of a list given by its pieces. *)
Ltac list_lengths :=
  repeat first [rewrite length_app | rewrite length_cons]; cbn [length].

Section parse_message_facts.
Import construct protocol.

Lemma parse_message_cons (c : Z) (rest : list Z) (layout : Struct) :
  get_parser_by_command c = Some layout →
  parse_message (c :: rest) =
  match rest with
  | [] => None
  | _ => match Struct_parse layout (c :: rest) with
         | Ok parsed => Some parsed
         | Raise _ => None
         end
  end.
Proof. intros H. unfold parse_message. rewrite H. destruct rest; reflexivity. Qed.


Lemma PerformActionResponse_parse_length (data : list Z) :
  (∃ c, PerformActionResponse.parse data = Ok c) ↔ (36 ≤ length data)%nat.
Proof.
  split.
  - intros [c H]. apply parse_inv in H as [rest H].
    unfold PerformActionResponse.struct in H.
    construct_inv H. subst. list_lengths. lia.
  - intros H. take_bytes H. eexists. reflexivity.
Qed.

Lemma InitializeCommunicationResponse_MGSP_parse_length (data : list Z) :
  (∃ c, InitializeCommunicationResponse_MGSP.parse data = Ok c) ↔
  (36 ≤ length data)%nat.
Proof.
  split.
  - intros [c H]. apply parse_inv in H as [rest H].
    unfold InitializeCommunicationResponse_MGSP.struct in H.
    construct_inv H. subst. list_lengths. lia.
  - intros H. take_bytes H. eexists. reflexivity.
Qed.

Lemma ReadEEPROMResponse_parse_length (data : list Z) :
  (∃ c, ReadEEPROMResponse.parse data = Ok c) ↔ (33 ≤ length data)%nat.
Proof.
  split.
  - intros [c H]. apply parse_inv in H as [rest H].
    unfold ReadEEPROMResponse.struct in H.
    construct_inv H. subst. list_lengths.
    change (32 - 5)%nat with 27%nat in *. lia.
  - intros H. take_bytes H. eexists. reflexivity.
Qed.

Lemma LiveEvent_parse_length (data : list Z) :
  (∃ c, LiveEvent.parse data = Ok c) ↔ (35 ≤ length data)%nat.
Proof.
  split.
  - intros [c H]. apply parse_inv in H as [rest H].
    unfold LiveEvent.struct in H.
    construct_inv H. subst. list_lengths. lia.
  - intros H. take_bytes H. eexists. reflexivity.
Qed.

Lemma InitiateCommunicationResponse_parse_accepts (data : list Z) :
  (∃ c, InitiateCommunicationResponse.parse data = Ok c) ↔
  (37 ≤ length data)%nat ∧ data !! 0%nat = Some 0x72 ∧ data !! 1%nat = Some 0xFF.
Proof.
  split.
  - intros [c H]. apply parse_inv in H as [rest H].
    unfold InitiateCommunicationResponse.struct in H.
    construct_inv H. subst. split; [list_lengths; lia|]. split; reflexivity.
  - intros (H & H0 & H1). take_bytes H. cbn in H0, H1.
    inversion H0; inversion H1; subst. eexists. reflexivity.
Qed.

Lemma InitializeCommunication_MGSP_parse_accepts (data : list Z) :
  (∃ c, InitializeCommunication_MGSP.parse data = Ok c) ↔
  (34 ≤ length data)%nat ∧ data !! 0%nat = Some 0x00 ∧ data !! 13%nat = Some 0x00.
Proof.
  split.
  - intros [c H]. apply parse_inv in H as [rest H].
    unfold InitializeCommunication_MGSP.struct in H.
    construct_inv H. subst. explode_lists. split; [list_lengths; lia|].
    split; reflexivity.
  - intros (H & H0 & H1). take_bytes H. cbn in H0, H1.
    inversion H0; inversion H1; subst. eexists. reflexivity.
Qed.

Lemma Struct_parse_Ok (layout : Struct) (data : list Z) :
  (∃ parsed, Struct_parse layout data = Ok parsed) ↔
  match layout with
  | InitiateCommunicationResponse => ∃ c, InitiateCommunicationResponse.parse data = Ok c
  | InitializeCommunication_MGSP => ∃ c, InitializeCommunication_MGSP.parse data = Ok c
  | InitializeCommunicationResponse_MGSP =>
      ∃ c, InitializeCommunicationResponse_MGSP.parse data = Ok c
  | PerformAction => ∃ c, PerformAction.parse data = Ok c
  | PerformActionResponse => ∃ c, PerformActionResponse.parse data = Ok c
  | ReadEEPROM => ∃ c, ReadEEPROM.parse data = Ok c
  | ReadEEPROMResponse => ∃ c, ReadEEPROMResponse.parse data = Ok c
  | LiveEvent => ∃ c, LiveEvent.parse data = Ok c
  end.
Proof.
  destruct layout; cbn [Struct_parse];
    match goal with
    | |- context [?parse data ≫= _] => destruct (parse data) as [c|e]
    end; cbn; split; intros [x H]; try discriminate H; eauto.
Qed.

Lemma parse_message_is_Some (c : Z) (rest : list Z) (layout : Struct) :
  get_parser_by_command c = Some layout →
  is_Some (parse_message (c :: rest)) ↔
  (2 ≤ length (c :: rest))%nat ∧ ∃ parsed, Struct_parse layout (c :: rest) = Ok parsed.
Proof.
  intros Hl. rewrite (parse_message_cons _ _ _ Hl).
  destruct rest as [|b rest].
  - cbn. split; [intros [x H]; discriminate H|lia].
  - destruct (Struct_parse layout (c :: b :: rest)) as [parsed|e].
    + split; [intros _; split; [cbn; lia|eauto]|eauto].
    + split; [intros [x H]; discriminate H|intros [_ [x H]]; discriminate H].
Qed.

(** X5. Which inputs the generic parser decodes.  [parse_message] gives a
    message exactly when the first byte selects a layout and the input
    covers that layout, with the constants the layout fixes: 36 bytes for
    0x40..0x4F, 0x10 and 0x70, 33 bytes for 0x50..0x5F, 35 bytes for
    0xE0..0xEF, 37 bytes with 0xFF at offset 1 for 0x72, and 34 bytes with 0
    at offset 13 for 0x00.  No layout but the one of 0x72 needs the 37 bytes
    of a frame, and bytes after the layout are not looked at.  The method
    [parse_message] of the panel gives the same result on every input. *)
Theorem parse_message_accepts (data : list Z) :
  panel.parse_message data = parse_message data ∧
  (is_Some (parse_message data) ↔
   ∃ c, data !! 0%nat = Some c ∧
     (((0x40 <= c <= 0x4F ∨ c = 0x10 ∨ c = 0x70) ∧ (36 ≤ length data)%nat) ∨
      (0x50 <= c <= 0x5F ∧ (33 ≤ length data)%nat) ∨
      (0xE0 <= c <= 0xEF ∧ (35 ≤ length data)%nat) ∨
      (c = 0x72 ∧ (37 ≤ length data)%nat ∧ data !! 1%nat = Some 0xFF) ∨
      (c = 0x00 ∧ (34 ≤ length data)%nat ∧ data !! 13%nat = Some 0x00))).
Proof.
  split.
  { unfold panel.parse_message, parse_message.
    destruct (length data <? 2)%nat; reflexivity. }
  destruct data as [|c rest].
  { split; [intros [x H]; discriminate H|intros (c & H & _); discriminate H]. }
  assert (Hhead : ∀ P : Z → Prop,
            (∃ c', (c :: rest) !! 0%nat = Some c' ∧ P c') ↔ P c).
  { intros P. split; [intros (c' & H & HP); inversion H; subst; exact HP|eauto]. }
  rewrite Hhead. clear Hhead.
  destruct (get_parser_by_command_cases c)
    as [[Hb Hl]|[[Hb Hl]|[[Hb Hl]|[[Hb Hl]|[[Hb Hl]|[[Hb Hl]|[Hb Hl]]]]]]].
  - rewrite (parse_message_is_Some _ _ _ Hl), Struct_parse_Ok,
      PerformActionResponse_parse_length. cbn [length]. lia.
  - rewrite (parse_message_is_Some _ _ _ Hl), Struct_parse_Ok,
      ReadEEPROMResponse_parse_length. cbn [length]. lia.
  - rewrite (parse_message_is_Some _ _ _ Hl), Struct_parse_Ok,
      LiveEvent_parse_length. cbn [length]. lia.
  - rewrite (parse_message_is_Some _ _ _ Hl), Struct_parse_Ok,
      InitiateCommunicationResponse_parse_accepts. subst c. cbn [length].
    split.
    + intros (_ & H & _ & H1). do 3 right. left. auto.
    + intros [[[?|[?|?]] _]|[[? _]|[[? _]|[(_ & H & H1)|[? _]]]]]; try lia.
      split; [lia|]. split; [exact H|]. split; [reflexivity|exact H1].
  - rewrite (parse_message_is_Some _ _ _ Hl), Struct_parse_Ok,
      InitializeCommunication_MGSP_parse_accepts. subst c. cbn [length].
    split.
    + intros (_ & H & _ & H1). do 4 right. auto.
    + intros [[[?|[?|?]] _]|[[? _]|[[? _]|[(? & _)|(_ & H & H1)]]]]; try lia.
      split; [lia|]. split; [exact H|]. split; [reflexivity|exact H1].
  - rewrite (parse_message_is_Some _ _ _ Hl), Struct_parse_Ok,
      InitializeCommunicationResponse_MGSP_parse_length. cbn [length]. lia.
  - unfold parse_message. rewrite Hl.
    split.
    + destruct (length (c :: rest) <? 2)%nat; intros [x H]; discriminate H.
    + intros H. exfalso. apply Hb. lia.
Qed.

End parse_message_facts.

(** ** More on the builders *)

Section builder_facts.
Import construct protocol.

Lemma high_low_bytes (v : Z) :
  Z.land (Z.shiftr v 8) 0xFF * 256 + Z.land v 0xFF = v mod 65536.
Proof.
  change 0xFF with (Z.ones 8).
  rewrite !Z.land_ones, Z.shiftr_div_pow2 by lia.
  change (2 ^ 8) with 256.
  change 65536 with (256 * 256). rewrite Z.rem_mul_r by lia. lia.
Qed.

Lemma high_byte_period (v k : Z) :
  Z.land (Z.shiftr (v + 65536 * k) 8) 0xFF = Z.land (Z.shiftr v 8) 0xFF.
Proof.
  change 0xFF with (Z.ones 8).
  rewrite !Z.land_ones, !Z.shiftr_div_pow2 by lia.
  change (2 ^ 8) with 256.
  replace (v + 65536 * k) with (v + (256 * k) * 256) by lia.
  rewrite Z.div_add by lia.
  replace (v / 256 + 256 * k) with (v / 256 + k * 256) by lia.
  apply Z.mod_add. lia.
Qed.

Lemma low_byte_period (v k : Z) :
  Z.land (v + 65536 * k) 0xFF = Z.land v 0xFF.
Proof.
  change 0xFF with (Z.ones 8).
  rewrite !Z.land_ones by lia. change (2 ^ 8) with 256.
  replace (v + 65536 * k) with (v + (256 * k) * 256) by lia.
  apply Z.mod_add. lia.
Qed.

(** X6. The two 16-bit fields are cut to 16 bits without a range check:
    for any integer [address] (negative ones too) [build_read_eeprom]
    succeeds and its frame decodes to [address mod 65536], so an address and
    the same address plus a multiple of 65536 give the same frame; likewise
    for [panel_id] in [build_initialize_communication_mgsp]. *)
Theorem builders_wrap_16_bit_fields
    (address panel_id k records product_id fw0 fw1 fw2 pw0 pw1 source_id : Z) :
  is_byte records → is_byte product_id → is_byte fw0 → is_byte fw1 →
  is_byte fw2 → is_byte pw0 → is_byte pw1 → is_byte source_id →
  (∃ f c,
     build_read_eeprom address records source_id 0 = Ok f ∧
     ReadEEPROM.parse f = Ok c ∧
     ReadEEPROM.address c = address mod 65536 ∧
     build_read_eeprom (address + 65536 * k) records source_id 0 = Ok f) ∧
  (∃ f c,
     build_initialize_communication_mgsp
       product_id (fw0, fw1, fw2) panel_id [pw0; pw1] source_id 0 = Ok f ∧
     InitializeCommunication_MGSP.parse f = Ok c ∧
     InitializeCommunication_MGSP.panel_id c = panel_id mod 65536 ∧
     build_initialize_communication_mgsp
       product_id (fw0, fw1, fw2) (panel_id + 65536 * k) [pw0; pw1] source_id 0 = Ok f).
Proof.
  intros Hr Hp H0 H1 H2 Hw0 Hw1 Hs.
  assert (Hu : is_byte 0) by (unfold is_byte; lia).
  split.
  - rewrite !build_read_eeprom_Ok by assumption.
    rewrite high_byte_period, low_byte_period.
    eexists _, _. split; [reflexivity|]. split; [reflexivity|].
    split; [|reflexivity]. apply high_low_bytes.
  - rewrite !build_initialize_communication_mgsp_Ok by assumption.
    rewrite high_byte_period, low_byte_period.
    eexists _, _. split; [reflexivity|]. split; [reflexivity|].
    split; [|reflexivity]. apply high_low_bytes.
Qed.

Lemma setitem_not_byte data i v :
  (i < length data)%nat → ¬ is_byte v → setitem data i v = Raise byte_error.
Proof. apply setitem_ValueError. Qed.

Ltac setitem_fails :=
  setitem_steps; rewrite setitem_not_byte by first [assumption | cbn; lia];
  split; [reflexivity|tauto].

(** X7. The builders check their arguments for the byte range and for
    nothing else: [build_initiate_communication], [build_perform_action]
    and [build_read_eeprom] return a frame (37 bytes, checksum last) exactly
    when every argument stored as one byte is in 0..255, and raise the
    [ValueError] of the bytearray otherwise. *)
Theorem builders_check_bytes_only
    (user_id action argument source_id address records : Z) :
  match build_initiate_communication user_id with
  | Ok f => is_byte user_id ∧ frame_ok f
  | Raise e => e = byte_error ∧ ¬ is_byte user_id
  end ∧
  match build_perform_action action argument source_id user_id with
  | Ok f =>
      (is_byte action ∧ is_byte argument ∧ is_byte source_id ∧ is_byte user_id) ∧
      frame_ok f
  | Raise e =>
      e = byte_error ∧
      ¬ (is_byte action ∧ is_byte argument ∧ is_byte source_id ∧ is_byte user_id)
  end ∧
  match build_read_eeprom address records source_id user_id with
  | Ok f => (is_byte records ∧ is_byte source_id ∧ is_byte user_id) ∧ frame_ok f
  | Raise e =>
      e = byte_error ∧ ¬ (is_byte records ∧ is_byte source_id ∧ is_byte user_id)
  end.
Proof.
  split_and!.
  - destruct (decide (is_byte user_id)) as [Hu|Hu].
    + rewrite build_initiate_communication_Ok by assumption.
      split; [assumption|frame_ok_explicit].
    + unfold build_initiate_communication, bytearray. setitem_fails.
  - destruct (decide (is_byte action)) as [Ha|Ha];
      [destruct (decide (is_byte argument)) as [Hg|Hg];
       [destruct (decide (is_byte source_id)) as [Hs|Hs];
        [destruct (decide (is_byte user_id)) as [Hu|Hu]|]|]|].
    + rewrite build_perform_action_Ok by assumption.
      split; [auto|frame_ok_explicit].
    + unfold build_perform_action, bytearray. setitem_fails.
    + unfold build_perform_action, bytearray. setitem_fails.
    + unfold build_perform_action, bytearray. setitem_fails.
    + unfold build_perform_action, bytearray. setitem_fails.
  - destruct (decide (is_byte records)) as [Hr|Hr];
      [destruct (decide (is_byte source_id)) as [Hs|Hs];
       [destruct (decide (is_byte user_id)) as [Hu|Hu]|]|].
    + rewrite build_read_eeprom_Ok by assumption.
      split; [auto|frame_ok_explicit].
    + unfold build_read_eeprom, bytearray. setitem_fails.
    + unfold build_read_eeprom, bytearray. setitem_fails.
    + unfold build_read_eeprom, bytearray. setitem_fails.
Qed.

Lemma setitem_IndexError data i v :
  (length data ≤ i)%nat →
  setitem data i v = Raise (IndexError "bytearray index out of range").
Proof.
  intros H. unfold setitem. destruct (Nat.ltb_spec i (length data)); [lia|reflexivity].
Qed.

(** X8. The password handed to [build_initialize_communication_mgsp] is
    stored by a slice assignment, which does not keep the length of the
    bytearray.  With byte arguments and a password of [n] bytes: for
    [n < 2] the builder raises [IndexError] (the bytearray has become too
    short for offset 35 or 36); for [n >= 2] it returns [35 + n] bytes, so 37
    bytes only for [n = 2], with the first five bytes of the password from
    offset 7 on and the sum of the first 36 bytes modulo 256 at offset 36. *)
Theorem build_initialize_communication_mgsp_password_length
    (product_id fw0 fw1 fw2 panel_id source_id user_id : Z)
    (pc_password_bytes : list Z) :
  is_byte product_id → is_byte fw0 → is_byte fw1 → is_byte fw2 →
  is_byte source_id → is_byte user_id → Forall is_byte pc_password_bytes →
  let n := length pc_password_bytes in
  match
    build_initialize_communication_mgsp
      product_id (fw0, fw1, fw2) panel_id pc_password_bytes source_id user_id
  with
  | Ok f =>
      (2 ≤ n)%nat ∧ length f = (35 + n)%nat ∧
      (∀ i, (i < 5)%nat → (i < n)%nat → f !! (7 + i)%nat = pc_password_bytes !! i) ∧
      f !! 36%nat = Some (calculate_checksum (take 36 f))
  | Raise e => (n < 2)%nat ∧ e = IndexError "bytearray index out of range"
  end.
Proof.
  intros Hp H0 H1 H2 Hs Hu Hpw n.
  unfold build_initialize_communication_mgsp, bytearray. cbn [fst snd].
  setitem_steps.
  rewrite setslice_Ok by assumption. rewrite bind_Ok; cbn beta.
  cbn [take drop replicate Nat.max app insert list_insert].
  destruct (decide (n < 2)%nat) as [Hn|Hn].
  - destruct pc_password_bytes as [|p0 [|p1 rest]]; [| |cbn in Hn; lia].
    + cbn [app]. setitem_steps.
      rewrite setitem_IndexError by (cbn; lia). cbn. split; [lia|reflexivity].
    + apply Forall_cons in Hpw as [Hp0 _].
      cbn [app]. setitem_steps.
      rewrite setitem_IndexError by (cbn; lia). cbn. split; [lia|reflexivity].
  - match goal with
    | |- context [setitem ?d 12 _] => set (data := d)
    end.
    assert (Hdata : ∀ i, (i < n)%nat → data !! (7 + i)%nat = pc_password_bytes !! i).
    { intros i Hi. subst data. cbn. apply lookup_app_l. exact Hi. }
    assert (Hlen : length data = (35 + n)%nat).
    { subst data n. list_lengths. lia. }
    clearbody data.
    rewrite (setitem_Ok data 12) by first [lia | assumption].
    rewrite bind_Ok; cbn beta.
    rewrite setitem_Ok by first [rewrite !length_insert; lia | assumption].
    rewrite bind_Ok; cbn beta.
    rewrite setitem_Ok by first [rewrite !length_insert; lia | assumption].
    rewrite bind_Ok; cbn beta.
    rewrite setitem_Ok by first [rewrite !length_insert; lia | apply is_byte_checksum].
    rewrite bind_Ok; cbn beta.
    split; [lia|]. split; [rewrite !length_insert; exact Hlen|]. split.
    + intros i Hi5 Hin.
      rewrite !list_lookup_insert_ne by lia. apply Hdata, Hin.
    + rewrite list_lookup_insert_eq by (rewrite !length_insert; lia).
      rewrite take_insert_ge by lia. reflexivity.
Qed.

End builder_facts.

(** ** What the checksum cannot see *)

Lemma sum_Permutation (l1 l2 : list Z) : l1 ≡ₚ l2 → sum l1 = sum l2.
Proof.
  induction 1 as [|x l1 l2 _ IH|x y l|l1 l2 l3 _ IH1 _ IH2]; unfold sum in *; cbn;
    lia.
Qed.

Lemma sum_app (l1 l2 : list Z) : sum (l1 ++ l2) = sum l1 + sum l2.
Proof. induction l1 as [|x l1 IH]; unfold sum in *; cbn; lia. Qed.

(** X9. The checksum is a plain sum, so [validate_checksum] gives the
    same verdict for a frame and for the frame with its payload bytes in any
    other order, and for a payload in which one byte was raised by [d] and
    another lowered by [d]: such changes to a valid frame go unnoticed. *)
Theorem validate_checksum_blind_spots (payload payload' : list Z) (c : Z) :
  payload ≡ₚ payload' ∨
  (∃ l1 l2 l3 x y d,
     payload = l1 ++ [x] ++ l2 ++ [y] ++ l3 ∧
     payload' = l1 ++ [x + d] ++ l2 ++ [y - d] ++ l3) →
  commands.validate_checksum (payload' ++ [c]) =
  commands.validate_checksum (payload ++ [c]).
Proof.
  intros H.
  assert (Hsum : sum payload' = sum payload).
  { destruct H as [H|(l1 & l2 & l3 & x & y & d & -> & ->)].
    - symmetry. apply sum_Permutation, H.
    - rewrite !sum_app. unfold sum. cbn. lia. }
  assert (Hlen : length payload' = length payload).
  { destruct H as [H|(l1 & l2 & l3 & x & y & d & -> & ->)].
    - symmetry. apply Permutation_length, H.
    - list_lengths. reflexivity. }
  destruct payload as [|b payload], payload' as [|b' payload']; try discriminate Hlen.
  - reflexivity.
  - rewrite !validate_checksum_app by discriminate.
    unfold protocol.calculate_checksum. rewrite Hsum. reflexivity.
Qed.

(** ** What the methods leave alone *)

Section session_facts.
Import serial connection panel.

Lemma same_session_refl self : same_session self self.
Proof. repeat split. Qed.

Lemma same_session_trans self1 self2 self3 :
  same_session self1 self2 → same_session self2 self3 → same_session self1 self3.
Proof.
  intros (H1 & H2 & H3) (H4 & H5 & H6). unfold same_session.
  rewrite H4, H5, H6. auto.
Qed.

Lemma keeps_ret {A} (a : A) : keeps_session (mret a).
Proof. intros self. apply same_session_refl. Qed.

Lemma keeps_get : keeps_session get.
Proof. intros self. apply same_session_refl. Qed.

Lemma keeps_lift {A} (r : result A) : keeps_session (lift r).
Proof. intros self. apply same_session_refl. Qed.

Lemma keeps_raise {A} (e : exn) : keeps_session (raise e : M ParadoxPanel A).
Proof. intros self. apply same_session_refl. Qed.

Lemma keeps_bind {A B} (m : M ParadoxPanel A) (k : A → M ParadoxPanel B) :
  keeps_session m → (∀ a, keeps_session (k a)) → keeps_session (m ≫= k).
Proof.
  intros Hm Hk self. rewrite M_bind_unfold. specialize (Hm self).
  destruct (m self) as [[a|e] self1]; cbn in Hm; [|exact Hm].
  eapply same_session_trans; [exact Hm|apply Hk].
Qed.

Lemma keeps_on_connection {A} (method : M SerialConnection A) :
  keeps_session (on_connection method).
Proof.
  intros self. unfold on_connection.
  destruct (method (connection self)) as [r c]. repeat split.
Qed.

Lemma keeps_time_sleep : keeps_session time_sleep.
Proof.
  intros self. unfold time_sleep.
  destruct (connection.serial (connection self)); repeat split.
Qed.

(** Walk through a method: binds, branches and the calls above. *)
Ltac keeps_session_steps :=
  repeat
    first
      [ apply keeps_ret | apply keeps_get | apply keeps_lift | apply keeps_raise
      | apply keeps_on_connection | apply keeps_time_sleep | assumption
      | (apply keeps_bind; [|intros ?])
      | match goal with
        | |- keeps_session (if ?b then _ else _) => destruct b
        | |- keeps_session (match ?x with _ => _ end) => destruct x
        end ].

Lemma keeps_wait_for_response polls expected :
  keeps_session (wait_for_response polls expected).
Proof.
  induction polls as [|polls IH]; cbn [wait_for_response]; keeps_session_steps.
Qed.

Lemma keeps_send_command cmd expected polls :
  keeps_session (send_command cmd expected polls).
Proof.
  unfold send_command. keeps_session_steps. apply keeps_wait_for_response.
Qed.

Lemma keeps_monitor_poll : keeps_session monitor_poll.
Proof. unfold monitor_poll. keeps_session_steps. Qed.

Lemma keeps_monitor_events polls : ∀ self,
  same_session self (monitor_events polls self).2.
Proof.
  induction polls as [|polls IH]; intros self; [apply same_session_refl|].
  cbn [monitor_events]. pose proof (keeps_monitor_poll self) as H.
  destruct (monitor_poll self) as [[event|e] self1]; cbn in H; [|exact H].
  specialize (IH self1).
  destruct (monitor_events polls self1) as [[events status] self2]. cbn in *.
  eapply same_session_trans; eassumption.
Qed.

(** X10. The commands never touch the session: whatever the state of the
    panel and of the port, and whether they return or raise,
    [arm_partition], [disarm_partition], [bypass_zone], [read_status],
    [send_command], [wait_for_response] and [monitor_events] leave the
    configuration, the stored identity and the authentication flag as they
    were.  In particular no refused or unanswered command ends the
    authenticated state. *)
Theorem commands_keep_the_session
    (self : ParadoxPanel) (n address records : Z) (mode : string)
    (cmd expected : list Z) (expected_response : option (list Z)) (polls : nat) :
  same_session self (arm_partition n mode polls self).2 ∧
  same_session self (disarm_partition n polls self).2 ∧
  same_session self (bypass_zone n polls self).2 ∧
  same_session self (read_status address records polls self).2 ∧
  same_session self (send_command cmd expected_response polls self).2 ∧
  same_session self (wait_for_response polls expected self).2 ∧
  same_session self (monitor_events polls self).2.
Proof.
  split_and!.
  - revert self. change (keeps_session (arm_partition n mode polls)).
    unfold arm_partition. keeps_session_steps; apply keeps_wait_for_response.
  - revert self. change (keeps_session (disarm_partition n polls)).
    unfold disarm_partition. keeps_session_steps; apply keeps_wait_for_response.
  - revert self. change (keeps_session (bypass_zone n polls)).
    unfold bypass_zone. keeps_session_steps; apply keeps_wait_for_response.
  - revert self. change (keeps_session (read_status address records polls)).
    unfold read_status. keeps_session_steps; apply keeps_wait_for_response.
  - apply keeps_send_command.
  - apply keeps_wait_for_response.
  - apply keeps_monitor_events.
Qed.

Lemma bind_post {A B} (m : M ParadoxPanel A) (k : A → M ParadoxPanel B)
    (P : result B → ParadoxPanel → Prop) (self0 self : ParadoxPanel) :
  same_session self0 self → keeps_session m →
  (∀ e self1, same_session self0 self1 → P (Raise e) self1) →
  (∀ a self1, same_session self0 self1 → P (k a self1).1 (k a self1).2) →
  P ((m ≫= k) self).1 ((m ≫= k) self).2.
Proof.
  intros H0 Hm Hraise Hk. rewrite M_bind_unfold. specialize (Hm self).
  destruct (m self) as [[a|e] self1]; cbn in Hm.
  - apply Hk. eapply same_session_trans; eassumption.
  - apply Hraise. eapply same_session_trans; eassumption.
Qed.

(** X11. The only changes to the session.  [initiate_communication]
    leaves the configuration and the authentication flag alone and replaces
    the stored identity exactly when it returns one, by the one it returns;
    [initialize_communication] leaves the configuration and the identity
    alone and touches the flag only to set it, exactly when it returns
    [True].  So an identity, once stored, stays until the next successful
    handshake, and nothing clears the flag: a refused or unanswered
    authentication on an authenticated panel leaves it authenticated. *)
Theorem handshake_session_changes (self : ParadoxPanel) (polls : nat) :
  let identified := initiate_communication polls self in
  let authenticated := initialize_communication polls self in
  (config identified.2 = config self ∧
   _authenticated identified.2 = _authenticated self ∧
   match identified.1 with
   | Ok (Some info) => panel_info identified.2 = Some info
   | _ => panel_info identified.2 = panel_info self
   end) ∧
  (config authenticated.2 = config self ∧
   panel_info authenticated.2 = panel_info self ∧
   match authenticated.1 with
   | Ok true => _authenticated authenticated.2 = true
   | _ => _authenticated authenticated.2 = _authenticated self
   end).
Proof.
  cbv zeta. split.
  - set (P := λ (r : result (option PanelInfo)) (self' : ParadoxPanel),
        config self' = config self ∧
        _authenticated self' = _authenticated self ∧
        match r with
        | Ok (Some info) => panel_info self' = Some info
        | _ => panel_info self' = panel_info self
        end).
    change (P (initiate_communication polls self).1 (initiate_communication polls self).2).
    assert (Hraise : ∀ e self1, same_session self self1 → P (Raise e) self1).
    { intros e self1 (H1 & H2 & H3). subst P. cbn. auto. }
    unfold initiate_communication.
    apply (bind_post _ _ P self); [apply same_session_refl|apply keeps_on_connection|exact Hraise|].
    intros _ self1 K1.
    apply (bind_post _ _ P self); [exact K1|apply keeps_lift|exact Hraise|].
    intros cmd self2 K2.
    apply (bind_post _ _ P self); [exact K2|apply keeps_on_connection|exact Hraise|].
    intros _ self3 K3.
    apply (bind_post _ _ P self); [exact K3|apply keeps_wait_for_response|exact Hraise|].
    intros response self4 (H1 & H2 & H3).
    destruct response as [response|]; [|subst P; cbn; auto].
    destruct (protocol.InitiateCommunicationResponse.parse response) as [parsed|e];
      subst P; cbv [mbind M_bind set_panel_info mret M_ret]; cbn; auto.
  - set (P := λ (r : result bool) (self' : ParadoxPanel),
        config self' = config self ∧
        panel_info self' = panel_info self ∧
        match r with
        | Ok true => _authenticated self' = true
        | _ => _authenticated self' = _authenticated self
        end).
    change (P (initialize_communication polls self).1 (initialize_communication polls self).2).
    assert (Hraise : ∀ e self1, same_session self self1 → P (Raise e) self1).
    { intros e self1 (H1 & H2 & H3). subst P. cbn. auto. }
    unfold initialize_communication.
    apply (bind_post _ _ P self); [apply same_session_refl|apply keeps_get|exact Hraise|].
    intros self0 self1 K1.
    destruct (panel_info self0) as [info|].
    2:{ destruct K1 as (H1 & H2 & H3). subst P. cbn. auto. }
    apply (bind_post _ _ P self); [exact K1|apply keeps_lift|exact Hraise|].
    intros pw self2 K2.
    apply (bind_post _ _ P self); [exact K2|apply keeps_lift|exact Hraise|].
    intros cmd self3 K3.
    apply (bind_post _ _ P self); [exact K3|apply keeps_on_connection|exact Hraise|].
    intros _ self4 K4.
    apply (bind_post _ _ P self); [exact K4|apply keeps_wait_for_response|exact Hraise|].
    intros response self5 (H1 & H2 & H3).
    destruct response as [[|result_code response]|]; try (subst P; cbn; auto; fail).
    destruct (result_code =? 16);
      [subst P; cbv [mbind M_bind set_authenticated mret M_ret]; cbn; auto|].
    destruct (result_code =? 112); subst P; cbn; auto.
Qed.

End session_facts.

(** ** Waiting for an answer *)

Section wait_facts.
Import serial connection panel.

Lemma elapse_stream s :
  ∃ j, in_buffer (elapse s) = in_buffer s ++ concat (take j (line s)) ∧
       line (elapse s) = drop j (line s).
Proof.
  unfold elapse. destruct (line s) as [|burst later] eqn:Hl.
  - exists 0%nat. cbn. rewrite app_nil_r, Hl. auto.
  - exists 1%nat. cbn. rewrite take_0, drop_0. cbn. rewrite app_nil_r. auto.
Qed.

Lemma take_frame_length (b : Z) (buffer : list Z) :
  Z.of_nat (length (take (Z.to_nat (target_length b)) buffer)) <= target_length b.
Proof. pose proof (target_length_pos b). rewrite length_take. lia. Qed.

(** An answer that [wait_for_response] returns on an open connection
    starts with one of the expected command bytes, is no longer than its
    first byte asks for, and is a piece of the incoming stream. *)
Lemma wait_for_response_stream
    (polls : nat) (expected : list Z) (self self' : ParadoxPanel) (s : Serial)
    (data : list Z) :
  connected_with self s →
  wait_for_response polls expected self = (Ok (Some data), self') →
  ∃ c rest skipped k s',
    data = c :: rest ∧ c ∈ expected ∧
    Z.of_nat (length data) <= target_length c ∧
    self' = with_serial self s' ∧ written s' = written s ∧
    is_open s' = is_open s ∧
    in_buffer s ++ concat (take k (line s)) = skipped ++ data ++ in_buffer s' ∧
    line s' = drop k (line s).
Proof.
  revert self s. induction polls as [|polls IH]; intros self s Hcon Hwait.
  { discriminate Hwait. }
  cbn [wait_for_response] in Hwait.
  rewrite (M_bind_Ok _ _ _ _ _ (on_connection_available _ _ Hcon)) in Hwait.
  (* what a round that found nothing leads to *)
  assert (Hnext : ∀ s1 taken,
    is_open s1 = is_open s → written s1 = written s → line s1 = line s →
    in_buffer s = taken ++ in_buffer s1 →
    (time_sleep ≫= λ _, wait_for_response polls expected) (with_serial self s1)
      = (Ok (Some data), self') →
    ∃ c rest skipped k s',
      data = c :: rest ∧ c ∈ expected ∧
      Z.of_nat (length data) <= target_length c ∧
      self' = with_serial self s' ∧ written s' = written s ∧
      is_open s' = is_open s ∧
      in_buffer s ++ concat (take k (line s)) = skipped ++ data ++ in_buffer s' ∧
      line s' = drop k (line s)).
  { intros s1 taken Ho Hw Hl Hb Hrun.
    pose proof (connected_with_serial _ _ _ Hcon Ho) as Hcon1.
    rewrite (M_bind_Ok _ _ _ _ _ (time_sleep_connected _ _ Hcon1)) in Hrun.
    rewrite with_serial_twice in Hrun.
    apply IH with (s := elapse s1) in Hrun.
    2:{ eapply connected_with_serial; [exact Hcon|]. rewrite elapse_is_open. exact Ho. }
    destruct Hrun as (c & rest & skipped & k & s' & -> & Hc & Hlen & -> & Hw' & Ho' & Hs & Hl').
    destruct (elapse_stream s1) as (j & Hj1 & Hj2).
    exists c, rest, (taken ++ skipped), (j + k)%nat, s'.
    split; [reflexivity|]. split; [exact Hc|]. split; [exact Hlen|].
    split; [reflexivity|].
    split; [rewrite Hw', elapse_written; exact Hw|].
    split; [rewrite Ho', elapse_is_open; exact Ho|].
    split.
    - rewrite Hb, <- take_take_drop, concat_app, <- Hl, <- Hj2.
      rewrite <- !app_assoc. f_equal.
      rewrite app_assoc, <- Hj1. rewrite Hs. reflexivity.
    - rewrite Hl', Hj2, Hl, drop_drop. reflexivity. }
  assert (Hnext0 :
    (time_sleep ≫= λ _, wait_for_response polls expected) self
      = (Ok (Some data), self') →
    ∃ c rest skipped k s',
      data = c :: rest ∧ c ∈ expected ∧
      Z.of_nat (length data) <= target_length c ∧
      self' = with_serial self s' ∧ written s' = written s ∧
      is_open s' = is_open s ∧
      in_buffer s ++ concat (take k (line s)) = skipped ++ data ++ in_buffer s' ∧
      line s' = drop k (line s)).
  { intros Hrun. apply (Hnext s []); try reflexivity.
    rewrite (with_serial_same self s) by apply Hcon. exact Hrun. }
  destruct (Z.of_nat (length (in_buffer s)) >? 0).
  - rewrite !M_bind_unfold in Hwait.
    rewrite (on_connection_read_variable_length _ _ Hcon) in Hwait.
    destruct (in_buffer s) as [|b buffer] eqn:Hbuf.
    + cbn [mret M_ret] in Hwait. apply Hnext0. exact Hwait.
    + pose proof (target_length_pos b) as Hpos.
      pose proof (take_frame_length b (b :: buffer)) as Hlen.
      pose proof (take_drop (Z.to_nat (target_length b)) (b :: buffer)) as Hsplit.
      replace (Z.to_nat (target_length b)) with (S (Z.to_nat (target_length b - 1)))
        in * by lia.
      cbn [take drop] in *.
      destruct (bool_decide (b ∈ expected)) eqn:Hin; cbn [mret M_ret] in Hwait.
      * inversion Hwait; subst data self'. clear Hwait.
        apply bool_decide_eq_true in Hin.
        eexists b, _, [], 0%nat, _.
        split; [reflexivity|]. split; [exact Hin|]. split; [exact Hlen|].
        split; [reflexivity|]. cbn [written is_open in_buffer line app].
        split; [reflexivity|]. split; [reflexivity|].
        rewrite take_0, drop_0. cbn [concat]. rewrite app_nil_r.
        split; [|reflexivity]. symmetry. exact Hsplit.
      * eapply Hnext; [..|exact Hwait]; try reflexivity.
        cbn [in_buffer]. symmetry. exact Hsplit.
  - rewrite M_bind_unfold in Hwait. cbn [mret M_ret] in Hwait.
    apply Hnext0. exact Hwait.
Qed.

(** X12. An answer that [send_command] returns on an open connection
    starts with one of the expected command bytes, has at most 37 bytes, and
    no more than its first byte when that is between 5 and 36, and is a
    piece of the incoming stream (what was buffered, then what arrived
    during the sleeps): everything that came before it has been read and
    dropped, what comes after it is still in the input buffer, and the
    command is the one frame that was written. *)
Theorem send_command_answer_from_the_stream
    (polls : nat) (cmd expected : list Z) (self self' : ParadoxPanel) (s : Serial)
    (data : list Z) :
  connected_with self s →
  send_command cmd (Some expected) polls self = (Ok (Some data), self') →
  ∃ c rest skipped k s',
    data = c :: rest ∧ c ∈ expected ∧
    (length data ≤ 37)%nat ∧ (5 <= c <= 36 → Z.of_nat (length data) <= c) ∧
    self' = with_serial self s' ∧ written s' = written s ++ [cmd] ∧
    in_buffer s ++ concat (take k (line s)) = skipped ++ data ++ in_buffer s' ∧
    line s' = drop k (line s).
Proof.
  intros Hcon Hsend. unfold send_command in Hsend.
  rewrite (M_bind_Ok _ _ _ _ _ (on_connection_write _ _ _ Hcon)) in Hsend.
  apply wait_for_response_stream with (s := {|
      is_open := is_open s; serial.timeout := serial.timeout s;
      in_buffer := in_buffer s; written := written s ++ [cmd];
      line := line s |}) in Hsend.
  2:{ eapply connected_with_serial; [exact Hcon|reflexivity]. }
  destruct Hsend as (c & rest & skipped & k & s' & -> & Hc & Hlen & -> & Hw & _ & Hs & Hl).
  exists c, rest, skipped, k, s'. cbn in Hw, Hs, Hl.
  pose proof (target_length_pos c) as Hpos.
  split; [reflexivity|]. split; [exact Hc|]. split; [lia|].
  split.
  { intros Hrange. unfold target_length in Hlen.
    destruct (Z.leb_spec c 4); lia. }
  auto.
Qed.

End wait_facts.

(** ** The password and the authentication *)

Section authentication_facts.
Import serial connection panel.

Lemma int_16_Raise (text : string) (e : exn) :
  int_16 text = Raise e → e = invalid_literal.
Proof.
  unfold int_16. repeat case_match; intros Hr; inversion Hr; reflexivity.
Qed.

Lemma is_byteb_is_byte (v : Z) : is_byteb v = true → is_byte v.
Proof.
  unfold is_byteb, is_byte. intros H. apply andb_true_iff in H as [H1 H2].
  apply Z.leb_le in H1. apply Z.ltb_lt in H2. lia.
Qed.

(** X13. What [encode_password] can give.  A result is always two bytes,
    each in 0..255, read by [int(_, 16)] from the two halves of a password
    of exactly four characters; every failure is a [ValueError]; and four
    hexadecimal digits (either case) always give the two bytes they
    write. *)
Theorem encode_password_result (password : string) :
  match encode_password password with
  | Ok pw =>
      String.length password = 4%nat ∧
      ∃ byte1 byte2,
        pw = [byte1; byte2] ∧ is_byte byte1 ∧ is_byte byte2 ∧
        int_16 (str_slice password 0 2) = Ok byte1 ∧
        int_16 (str_slice password 2 4) = Ok byte2
  | Raise e => ∃ msg, e = ValueError msg
  end ∧
  ∀ a b c d x y z w,
    password = String a (String b (String c (String d EmptyString))) →
    hex_digit_value a = Some x → hex_digit_value b = Some y →
    hex_digit_value c = Some z → hex_digit_value d = Some w →
    encode_password password = Ok [16 * x + y; 16 * z + w].
Proof.
  split.
  - unfold encode_password.
    destruct (Nat.eqb_spec (String.length password) 4) as [Hlen|Hlen]; cbn [negb];
      [|eauto].
    destruct (int_16 (str_slice password 0 2)) as [byte1|e1] eqn:H1.
    2:{ apply int_16_Raise in H1. subst e1. cbn. eauto. }
    destruct (int_16 (str_slice password 2 4)) as [byte2|e2] eqn:H2.
    2:{ apply int_16_Raise in H2. subst e2. cbn. eauto. }
    cbn [mbind result_bind]. unfold bytes. cbn [forallb].
    destruct (is_byteb byte1) eqn:Hb1; [|cbn; eauto].
    destruct (is_byteb byte2) eqn:Hb2; [|cbn; eauto].
    cbn. split; [exact Hlen|]. exists byte1, byte2.
    auto using is_byteb_is_byte.
  - intros a b c d x y z w -> Ha Hb Hc Hd.
    apply encode_password_hex_digits; assumption.
Qed.

Lemma encode_password_Ok_inv (password : string) (pw : list Z) :
  encode_password password = Ok pw →
  ∃ byte1 byte2, pw = [byte1; byte2] ∧ is_byte byte1 ∧ is_byte byte2.
Proof.
  unfold encode_password.
  destruct (Nat.eqb_spec (String.length password) 4) as [Hlen|Hlen]; cbn [negb];
    [|discriminate].
  destruct (int_16 (str_slice password 0 2)) as [byte1|e1] eqn:H1.
  2:{ apply int_16_Raise in H1. subst e1. discriminate. }
  destruct (int_16 (str_slice password 2 4)) as [byte2|e2] eqn:H2.
  2:{ apply int_16_Raise in H2. subst e2. discriminate. }
  cbn [mbind result_bind]. unfold bytes. cbn [forallb].
  destruct (is_byteb byte1) eqn:Hb1; [|discriminate].
  destruct (is_byteb byte2) eqn:Hb2; [|discriminate].
  cbn. intros H. inversion H. exists byte1, byte2.
  auto using is_byteb_is_byte.
Qed.

(** X14. What stops [initialize_communication] before anything is sent,
    in the order the method looks: without a stored identity it returns
    [False], whatever the configured password; with an identity and a
    password that [encode_password] refuses, the [ValueError] leaves the
    method; with an identity whose product is one that [ProductIdEnum]
    names, the builder cannot store the decoded name as a byte and the
    [TypeError] leaves the method.  In all three cases the panel and the
    port are as before. *)
Theorem initialize_communication_refusals (self : ParadoxPanel) (polls : nat) :
  (panel_info self = None →
   initialize_communication polls self = (Ok false, self)) ∧
  (∀ info e,
     panel_info self = Some info →
     encode_password (configured_password self) = Raise e →
     initialize_communication polls self = (Raise e, self)) ∧
  (∀ info code name pw,
     panel_info self = Some info →
     product_id info = construct.EnumIntegerString code name →
     encode_password (configured_password self) = Ok pw →
     initialize_communication polls self = (Raise not_an_integer, self)).
Proof.
  unfold initialize_communication, configured_password.
  split_and!.
  - intros H. rewrite M_bind_unfold. cbn [get]. rewrite H. reflexivity.
  - intros info e H He. rewrite M_bind_unfold. cbn [get]. rewrite H.
    rewrite M_bind_unfold. unfold lift at 1. rewrite He. reflexivity.
  - intros info code name pw H Hp Hpw. rewrite M_bind_unfold. cbn [get]. rewrite H.
    rewrite M_bind_unfold. unfold lift at 1. rewrite Hpw.
    rewrite M_bind_unfold. unfold lift at 1. rewrite Hp. reflexivity.
Qed.

End authentication_facts.

(** ** The handshake and the authentication *)

Section handshake_facts.
Import serial connection panel.

Lemma initialize_communication_listed_product self polls info code name pw :
  panel_info self = Some info →
  product_id info = construct.EnumIntegerString code name →
  encode_password (configured_password self) = Ok pw →
  initialize_communication polls self = (Raise not_an_integer, self).
Proof.
  intros H Hp Hpw. unfold initialize_communication.
  rewrite M_bind_unfold. cbn [get]. rewrite H.
  rewrite M_bind_unfold. unfold lift at 1.
  fold (configured_password self). rewrite Hpw.
  rewrite M_bind_unfold. unfold lift at 1. rewrite Hp. reflexivity.
Qed.

Lemma ProductIdEnum_listed (code : Z) :
  code ∈ listed_products →
  ∃ name,
    construct.Enum_decode
      [("DIGIPLEX_DGP2_48_NE", 0); ("DIGIPLEX_DGP2_72_NE", 1);
       ("DIGIPLEX_DGP2_96_NE", 2); ("DIGIPLEX_DGP2_112_NE", 3);
       ("DIGIPLEX_DGP2_816_NE", 4); ("DIGIPLEX_DGP2_248_NE", 5);
       ("MAGELLAN_MG5000", 2); ("MAGELLAN_MG5050", 4); ("SPECTRA_SP4000", 5);
       ("SPECTRA_SP5500", 21); ("SPECTRA_SP6000", 22); ("SPECTRA_SP7000", 23);
       ("SPECTRA_SP65", 24)] code = construct.EnumIntegerString code name.
Proof.
  intros H. unfold listed_products in H.
  repeat (apply elem_of_cons in H as [->|H]; [eexists; reflexivity|]).
  apply elem_of_nil in H. contradiction.
Qed.

(** What a handshake that returns an identity has done. *)
Lemma initiate_communication_Some polls self info self1 :
  initiate_communication polls self = (Ok (Some info), self1) →
  ∃ response parsed,
    protocol.InitiateCommunicationResponse.parse response = Ok parsed ∧
    product_id info = protocol.InitiateCommunicationResponse.product_id parsed ∧
    panel_info self1 = Some info ∧ config self1 = config self.
Proof.
  intros H. unfold initiate_communication in H.
  apply M_bind_inv in H as (u1 & selfA & HA & H).
  apply M_bind_inv in H as (cmd & selfB & HB & H).
  apply M_bind_inv in H as (u2 & selfC & HC & H).
  apply M_bind_inv in H as (response & selfD & HD & H).
  assert (KA : same_session self selfA).
  { pose proof (keeps_on_connection flush_input self) as K. rewrite HA in K. exact K. }
  assert (KB : same_session selfA selfB).
  { pose proof (keeps_lift (protocol.build_initiate_communication 0) selfA) as K.
    rewrite HB in K. exact K. }
  assert (KC : same_session selfB selfC).
  { pose proof (keeps_on_connection (connection.write cmd) selfB) as K.
    rewrite HC in K. exact K. }
  assert (KD : same_session selfC selfD).
  { pose proof (keeps_wait_for_response polls [114] selfC) as K.
    rewrite HD in K. exact K. }
  destruct response as [response|]; [|discriminate H].
  destruct (protocol.InitiateCommunicationResponse.parse response) as [parsed|e] eqn:Hp;
    [|discriminate H].
  cbv [mbind M_bind set_panel_info mret M_ret] in H. inversion H; subst. clear H.
  exists response, parsed. split; [exact Hp|]. split; [reflexivity|].
  split; [reflexivity|]. cbn.
  destruct KA as [KA _], KB as [KB _], KC as [KC _], KD as [KD _]. congruence.
Qed.

(** X15. A panel of a listed product cannot be authenticated.  When the
    handshake has returned an identity whose product code is one that
    [ProductIdEnum] names (0..5, 21..24), the identity holds the decoded
    name, and [initialize_communication] on the resulting panel, with a
    password that [encode_password] takes, raises [TypeError] from the
    builder: nothing is sent and the panel stays unauthenticated. *)
Theorem listed_product_cannot_authenticate
    (self self1 : ParadoxPanel) (info : PanelInfo) (pw : list Z) (polls polls' : nat) :
  initiate_communication polls self = (Ok (Some info), self1) →
  construct.intvalue (product_id info) ∈ listed_products →
  encode_password (configured_password self) = Ok pw →
  initialize_communication polls' self1 = (Raise not_an_integer, self1).
Proof.
  intros Hrun Hlisted Hpw.
  apply initiate_communication_Some in Hrun
    as (response & parsed & Hparse & Hproduct & Hinfo & Hconfig).
  apply parse_inv in Hparse as [rest Hparse].
  unfold protocol.InitiateCommunicationResponse.struct in Hparse.
  construct_inv Hparse. inversion Hparse; subst parsed. clear Hparse.
  cbn in Hproduct. subst. rewrite Hproduct, intvalue_Enum_decode in Hlisted.
  apply ProductIdEnum_listed in Hlisted as [name Hname].
  eapply initialize_communication_listed_product.
  - exact Hinfo.
  - rewrite Hproduct. exact Hname.
  - unfold configured_password. rewrite Hconfig. exact Hpw.
Qed.

(** X16. The authentication on an open connection.  With a stored
    identity whose product code is an integer (one that [ProductIdEnum]
    does not name), firmware numbers that are bytes and a password that
    [encode_password] takes, [initialize_communication] writes exactly one
    frame, the 37-byte InitializeCommunication request with its checksum,
    and waits for 0x10 or 0x70.  It returns [True] exactly when the answer
    starts with 0x10, and then the flag is set; the answer 0x70 and a
    time-out give [False] and leave the flag as it was.  An answer 0x10 is
    read as a frame of 16 bytes: what follows them on the line stays in the
    input buffer. *)
Theorem initialize_communication_outcome
    (self : ParadoxPanel) (s : Serial) (info : PanelInfo)
    (product fw0 fw1 fw2 : Z) (pw : list Z) (polls : nat) :
  connected_with self s →
  panel_info self = Some info →
  product_id info = construct.EnumInteger product →
  firmware_version info = (fw0, fw1, fw2) →
  is_byte product → is_byte fw0 → is_byte fw1 → is_byte fw2 →
  encode_password (configured_password self) = Ok pw →
  ∃ frame response success self',
    protocol.build_initialize_communication_mgsp
      product (fw0, fw1, fw2) (panel_id info) pw 0x01 0x00 = Ok frame ∧
    frame_ok frame ∧
    (send_command frame (Some [0x10; 0x70]) polls self).1 = Ok response ∧
    initialize_communication polls self = (Ok success, self') ∧
    transport_log self' = transport_log self ++ [frame] ∧
    _authenticated self' = success || _authenticated self ∧
    (success = true ↔ ∃ rest, response = Some (0x10 :: rest)) ∧
    (success = false → response = None ∨ ∃ rest, response = Some (0x70 :: rest)) ∧
    (success = true → ∃ r, response = Some r ∧ (length r ≤ 16)%nat).
Proof.
  intros Hcon Hinfo Hproduct Hfw Hp H0 H1 H2 Hpw.
  destruct (encode_password_Ok_inv _ _ Hpw) as (b1 & b2 & -> & Hb1 & Hb2).
  assert (Hone : is_byte 1) by (unfold is_byte; lia).
  assert (Hzero : is_byte 0) by (unfold is_byte; lia).
  pose proof (build_initialize_communication_mgsp_Ok
                product fw0 fw1 fw2 (panel_id info) b1 b2 1 0
                Hp H0 H1 H2 Hb1 Hb2 Hone Hzero) as Hbuild.
  match type of Hbuild with
  | _ = Ok ?f => set (cmd := f) in *
  end.
  rewrite Hbuild. exists cmd.
  pose (s1 := {| is_open := is_open s; serial.timeout := serial.timeout s;
                 in_buffer := in_buffer s; written := written s ++ [cmd];
                 line := line s |}).
  assert (Hcon1 : connected_with (with_serial self s1) s1).
  { eapply connected_with_serial; [exact Hcon|reflexivity]. }
  destruct (wait_for_response_connected polls [16; 112] _ _ Hcon1)
    as (response & s' & Hwait & Ho & Hw).
  rewrite with_serial_twice in Hwait.
  assert (Hresponse : match response with
                      | Some r => ∃ c rest, r = c :: rest ∧ (c = 16 ∨ c = 112) ∧
                                   Z.of_nat (length r) <= target_length c
                      | None => True
                      end).
  { destruct response as [r|]; [|exact I].
    apply wait_for_response_stream with (s := s1) in Hwait; [|exact Hcon1].
    destruct Hwait as (c & rest & _ & _ & _ & -> & Hc & Hlen & _).
    exists c, rest. split; [reflexivity|]. split; [|exact Hlen].
    apply elem_of_cons in Hc as [->|Hc]; [auto|].
    apply elem_of_cons in Hc as [->|Hc]; [auto|].
    apply elem_of_nil in Hc. contradiction. }
  assert (Hsend : send_command cmd (Some [16; 112]) polls self
                  = (Ok response, with_serial self s')).
  { unfold send_command.
    rewrite (M_bind_Ok _ _ _ _ _ (on_connection_write _ _ _ Hcon)). exact Hwait. }
  assert (Hinit : initialize_communication polls self =
    (match response with
     | None | Some [] => mret false
     | Some (result_code :: _) =>
         if result_code =? 0x10 then _ ← set_authenticated true; mret true
         else if result_code =? 0x70 then mret false
         else mret false
     end) (with_serial self s')).
  { unfold initialize_communication.
    rewrite M_bind_unfold. cbn [get]. rewrite Hinfo.
    rewrite M_bind_unfold. unfold lift at 1.
    fold (configured_password self). rewrite Hpw.
    rewrite M_bind_unfold. unfold lift at 1. rewrite Hproduct, Hfw, Hbuild.
    rewrite (M_bind_Ok _ _ _ _ _ (on_connection_write _ _ _ Hcon)).
    fold s1. rewrite (M_bind_Ok _ _ _ _ _ Hwait). reflexivity. }
  destruct response as [r|].
  - destruct Hresponse as (c & rest & -> & [-> | ->] & Hlen).
    + exists (Some (16 :: rest)), true. eexists.
      split; [reflexivity|]. split; [subst cmd; frame_ok_explicit|].
      split; [rewrite Hsend; reflexivity|].
      split; [rewrite Hinit; reflexivity|].
      split; [cbn; rewrite Hw, (transport_log_connected _ _ Hcon); reflexivity|].
      split; [reflexivity|]. split; [split; eauto|].
      split; [discriminate|]. intros _. eexists. split; [reflexivity|].
      change (target_length 16) with 16 in Hlen. lia.
    + exists (Some (112 :: rest)), false. eexists.
      split; [reflexivity|]. split; [subst cmd; frame_ok_explicit|].
      split; [rewrite Hsend; reflexivity|].
      split; [rewrite Hinit; reflexivity|].
      split; [cbn; rewrite Hw, (transport_log_connected _ _ Hcon); reflexivity|].
      split; [reflexivity|].
      split; [split; [discriminate|intros [r Hr]; inversion Hr]|].
      split; [eauto|discriminate].
  - exists None, false. eexists.
    split; [reflexivity|]. split; [subst cmd; frame_ok_explicit|].
    split; [rewrite Hsend; reflexivity|].
    split; [rewrite Hinit; reflexivity|].
    split; [cbn; rewrite Hw, (transport_log_connected _ _ Hcon); reflexivity|].
    split; [reflexivity|].
    split; [split; [discriminate|intros [r Hr]; inversion Hr]|].
    split; [eauto|discriminate].
Qed.

Lemma on_connection_flush_input self s :
  connected_with self s →
  on_connection flush_input self =
  (Ok tt,
   with_serial self
     {| is_open := is_open s; serial.timeout := serial.timeout s;
        in_buffer := []; written := written s; line := line s |}).
Proof.
  intros [Hc Hs]. unfold on_connection, flush_input.
  rewrite M_bind_unfold. cbn [get]. rewrite Hc. unfold on_serial. rewrite Hs.
  reflexivity.
Qed.

(** X17. The handshake on an open connection.  [initiate_communication]
    first empties the input buffer, so its outcome does not depend on what
    was buffered before the call; it then writes one frame, 0x72 followed by
    35 zero bytes and the checksum 0x72, and it returns, with an identity or
    with [None], without raising. *)
Theorem initiate_communication_discards_stale_input
    (self : ParadoxPanel) (s : Serial) (stale : list Z) (polls : nat) :
  connected_with self s →
  let port := λ buffered,
    {| is_open := is_open s; serial.timeout := serial.timeout s;
       in_buffer := buffered; written := written s; line := line s |} in
  initiate_communication polls (with_serial self (port stale)) =
    initiate_communication polls (with_serial self (port [])) ∧
  ∃ identity self',
    initiate_communication polls (with_serial self (port stale)) = (Ok identity, self') ∧
    transport_log self' = written s ++ [[0x72] ++ replicate 35 0 ++ [0x72]].
Proof.
  intros Hcon port.
  assert (Hport : ∀ buffered, connected_with (with_serial self (port buffered)) (port buffered)).
  { intros buffered. eapply connected_with_serial; [exact Hcon|reflexivity]. }
  assert (Hflush : ∀ buffered,
    on_connection flush_input (with_serial self (port buffered)) =
    (Ok tt, with_serial self (port []))).
  { intros buffered. rewrite (on_connection_flush_input _ _ (Hport buffered)).
    reflexivity. }
  split.
  - unfold initiate_communication.
    rewrite !(M_bind_Ok _ _ _ _ _ (Hflush _)). reflexivity.
  - unfold initiate_communication.
    rewrite (M_bind_Ok _ _ _ _ _ (Hflush _)).
    rewrite M_bind_unfold. unfold lift at 1.
    rewrite build_initiate_communication_Ok by (unfold is_byte; lia).
    rewrite (M_bind_Ok _ _ _ _ _ (on_connection_write _ _ _ (Hport []))).
    rewrite with_serial_twice.
    match goal with
    | |- context [with_serial self ?s1] =>
        destruct (wait_for_response_connected polls [114] (with_serial self s1) s1)
          as (response & s' & Hwait & Ho & Hw)
    end.
    { eapply connected_with_serial; [exact Hcon|reflexivity]. }
    rewrite with_serial_twice in Hwait.
    rewrite (M_bind_Ok _ _ _ _ _ Hwait).
    destruct response as [response|].
    + destruct (protocol.InitiateCommunicationResponse.parse response) as [parsed|e].
      * eexists _, _. cbv [mbind M_bind set_panel_info mret M_ret].
        split; [reflexivity|]. cbn. rewrite Hw. reflexivity.
      * eexists _, _. split; [reflexivity|]. cbn. rewrite Hw. reflexivity.
    + eexists _, _. split; [reflexivity|]. cbn. rewrite Hw. reflexivity.
Qed.

End handshake_facts.

(** ** Reading the memory *)

Section read_facts.
Import serial connection panel.

Lemma ReadEEPROMResponse_parse_fields (r : list Z) :
  (33 ≤ length r)%nat →
  ∃ parsed,
    protocol.ReadEEPROMResponse.parse r = Ok parsed ∧
    Some (protocol.ReadEEPROMResponse.po_command parsed) = r !! 0%nat ∧
    (∃ hi lo, r !! 2%nat = Some hi ∧ r !! 3%nat = Some lo ∧
              protocol.ReadEEPROMResponse.address parsed = hi * 256 + lo) ∧
    Some (protocol.ReadEEPROMResponse.records parsed) = r !! 4%nat ∧
    protocol.ReadEEPROMResponse.data parsed = take 27 (drop 5 r).
Proof.
  intros H. take_bytes H. eexists. split; [reflexivity|].
  cbn. split; [reflexivity|]. split; [eauto|]. split; reflexivity.
Qed.

Lemma ReadEEPROMResponse_parse_short (r : list Z) :
  (length r < 33)%nat → ∃ e, protocol.ReadEEPROMResponse.parse r = Raise e.
Proof.
  intros H. destruct (protocol.ReadEEPROMResponse.parse r) as [c|e] eqn:E; [|eauto].
  assert (Hlen : (33 ≤ length r)%nat); [|lia].
  apply ReadEEPROMResponse_parse_length. eauto.
Qed.

(** X18. The layout of a ReadEEPROM answer, as [parse_read_eeprom_response]
    reads it: an input of 33 bytes or more always gives a record, with
    the command from offset 0, the address big-endian from offsets 2 and 3,
    the number of records from offset 4 and the 27 bytes from offset 5 as
    data; a shorter input gives [None].  Neither the command byte nor the
    checksum is looked at. *)
Theorem parse_read_eeprom_response_layout (data : list Z) :
  match commands.parse_read_eeprom_response data with
  | Some info =>
      (33 ≤ length data)%nat ∧
      Some (commands.ReadEEPROMInfo.command info) = data !! 0%nat ∧
      (∃ hi lo, data !! 2%nat = Some hi ∧ data !! 3%nat = Some lo ∧
                commands.ReadEEPROMInfo.address info = hi * 256 + lo) ∧
      Some (commands.ReadEEPROMInfo.records info) = data !! 4%nat ∧
      commands.ReadEEPROMInfo.data info = take 27 (drop 5 data)
  | None => (length data < 33)%nat
  end.
Proof.
  unfold commands.parse_read_eeprom_response.
  destruct (decide (33 ≤ length data)%nat) as [Hlen|Hlen].
  - destruct (ReadEEPROMResponse_parse_fields data Hlen)
      as (parsed & -> & H0 & H23 & H4 & H5).
    cbn. auto.
  - destruct (ReadEEPROMResponse_parse_short data) as [e ->]; lia.
Qed.


End read_facts.

(** ** Live events *)

Section event_facts.
Import serial connection panel.

Lemma lstrip_length c s : (length (lstrip c s) ≤ length s)%nat.
Proof.
  induction s as [|x s IH]; cbn; [lia|]. destruct (Ascii.eqb x c); cbn; lia.
Qed.

Lemma lstrip_head c s : head (lstrip c s) ≠ Some c.
Proof.
  induction s as [|x s IH]; cbn; [discriminate|].
  destruct (Ascii.eqb_spec x c) as [->|Hne]; [exact IH|].
  cbn. intros H. inversion H. contradiction.
Qed.

Lemma lstrip_last c s : lstrip c s ≠ [] → last (lstrip c s) = last s.
Proof.
  induction s as [|x s IH]; cbn; [reflexivity|].
  destruct (Ascii.eqb x c); [|reflexivity].
  intros Hne. rewrite (IH Hne). destruct s; [contradiction|reflexivity].
Qed.

Lemma lstrip_Forall (P : ascii → Prop) c s : Forall P s → Forall P (lstrip c s).
Proof.
  induction 1 as [|x s Hx Hs IH]; cbn; [constructor|].
  destruct (Ascii.eqb x c); [exact IH|constructor; assumption].
Qed.

Lemma strip_length c s : (length (strip c s) ≤ length s)%nat.
Proof.
  unfold strip. rewrite length_reverse.
  etransitivity; [apply lstrip_length|]. rewrite length_reverse. apply lstrip_length.
Qed.

Lemma strip_ends c s : head (strip c s) ≠ Some c ∧ last (strip c s) ≠ Some c.
Proof.
  unfold strip. split.
  - rewrite head_reverse.
    destruct (lstrip c (reverse (lstrip c s))) as [|x u] eqn:Hu; [discriminate|].
    rewrite <- Hu, lstrip_last by (rewrite Hu; discriminate).
    rewrite last_reverse. apply lstrip_head.
  - rewrite last_reverse. apply lstrip_head.
Qed.

Lemma strip_Forall (P : ascii → Prop) c s : Forall P s → Forall P (strip c s).
Proof.
  intros H. unfold strip.
  apply Forall_reverse, lstrip_Forall, Forall_reverse, lstrip_Forall, H.
Qed.

Lemma ord_chr_ascii (v : Z) : v < 128 → ord (chr v) < 128.
Proof.
  intros Hv. unfold ord, chr. rewrite N_ascii_embedding; lia.
Qed.

Lemma decode_ascii_ignore_ascii (b : list Z) :
  Forall (λ a, ord a < 128) (decode_ascii_ignore b) ∧
  (length (decode_ascii_ignore b) ≤ length b)%nat.
Proof.
  unfold decode_ascii_ignore. split.
  - apply Forall_fmap, Forall_forall. intros v Hv.
    apply list_elem_of_filter in Hv as [Hv _]. cbn. apply ord_chr_ascii, Hv.
  - rewrite length_fmap. apply length_filter.
Qed.

Lemma LiveEvent_parse_fields (data : list Z) :
  (35 ≤ length data)%nat →
  ∃ parsed,
    protocol.LiveEvent.parse data = Ok parsed ∧
    Some (protocol.LiveEvent.po_command parsed) = data !! 0%nat ∧
    Some (protocol.LiveEvent.event_group parsed) = data !! 2%nat ∧
    Some (protocol.LiveEvent.event_1 parsed) = data !! 3%nat ∧
    Some (protocol.LiveEvent.event_2 parsed) = data !! 4%nat ∧
    Some (protocol.LiveEvent.partition parsed) = data !! 5%nat ∧
    Some (protocol.LiveEvent.label_type parsed) = data !! 10%nat ∧
    protocol.LiveEvent.label parsed = take 16 (drop 11 data).
Proof.
  intros H. take_bytes H. eexists. split; [reflexivity|].
  cbn. split_and!; reflexivity.
Qed.

Lemma handle_live_event_fields (event_data : list Z) :
  match handle_live_event event_data with
  | Some event =>
      (35 ≤ length event_data)%nat ∧
      Some (command event) = event_data !! 0%nat ∧
      label event =
        String.string_of_list_ascii
          (strip "000"%char (decode_ascii_ignore (take 16 (drop 11 event_data))))
  | None => (length event_data < 35)%nat
  end.
Proof.
  unfold handle_live_event.
  destruct (decide (35 ≤ length event_data)%nat) as [Hlen|Hlen].
  - destruct (LiveEvent_parse_fields event_data Hlen)
      as (parsed & -> & H0 & _ & _ & _ & _ & _ & Hlabel).
    cbn [command label]. rewrite Hlabel. auto.
  - destruct (protocol.LiveEvent.parse event_data) as [parsed|e] eqn:E; [|lia].
    exfalso. apply Hlen. apply LiveEvent_parse_length. eauto.
Qed.

(** X20. The layout of a live event, as [handle_live_event] reads it: an
    input of 35 bytes or more always gives a record, with the command
    from offset 0, the event group and the two events from offsets 2 to 4,
    the partition from offset 5, the label type from offset 10 and the
    label from the 16 bytes at offset 11; a shorter input gives [None].
    The label keeps only the bytes below 128, and the NUL characters at
    both ends are removed, not only the trailing ones: it has at most 16
    characters, all ASCII, and neither starts nor ends with NUL. *)
Theorem handle_live_event_layout (event_data : list Z) :
  match handle_live_event event_data with
  | Some event =>
      (35 ≤ length event_data)%nat ∧
      Some (command event) = event_data !! 0%nat ∧
      Some (event_group event) = event_data !! 2%nat ∧
      Some (event_1 event) = event_data !! 3%nat ∧
      Some (event_2 event) = event_data !! 4%nat ∧
      Some (partition event) = event_data !! 5%nat ∧
      Some (label_type event) = event_data !! 10%nat ∧
      ∃ chars,
        label event = String.string_of_list_ascii chars ∧
        chars = strip "000"%char (decode_ascii_ignore (take 16 (drop 11 event_data))) ∧
        (length chars ≤ 16)%nat ∧
        Forall (λ a, ord a < 128) chars ∧
        head chars ≠ Some "000"%char ∧ last chars ≠ Some "000"%char
  | None => (length event_data < 35)%nat
  end.
Proof.
  unfold handle_live_event.
  destruct (decide (35 ≤ length event_data)%nat) as [Hlen|Hlen].
  - destruct (LiveEvent_parse_fields event_data Hlen)
      as (parsed & -> & H0 & H2 & H3 & H4 & H5 & H10 & Hlabel).
    cbn [command event_group event_1 event_2 partition label_type label].
    split_and!; try assumption.
    eexists. split; [reflexivity|]. rewrite Hlabel. split; [reflexivity|].
    destruct (decode_ascii_ignore_ascii (take 16 (drop 11 event_data))) as [Hascii Hle].
    split_and!.
    + etransitivity; [apply strip_length|]. etransitivity; [exact Hle|].
      rewrite length_take. lia.
    + apply strip_Forall, Hascii.
    + apply strip_ends.
    + apply strip_ends.
  - destruct (protocol.LiveEvent.parse event_data) as [parsed|e] eqn:E; [|lia].
    exfalso. apply Hlen. apply LiveEvent_parse_length. eauto.
Qed.

End event_facts.

(** ** The loop of [monitor_events] *)

Section monitor_more.
Import serial connection panel.

Lemma time_sleep_transport_log self :
  transport_log (time_sleep self).2 = transport_log self.
Proof.
  unfold time_sleep, transport_log.
  destruct (connection.serial (connection self)) as [s|] eqn:Hs; cbn;
    [apply elapse_written|rewrite Hs; reflexivity].
Qed.

(** What one turn of the loop yields and leaves. *)
Lemma monitor_poll_yield self :
  ∃ event self',
    monitor_poll self = (Ok event, self') ∧
    transport_log self' = transport_log self ∧
    ∀ info, event = Some info → 0xE0 <= command info <= 0xEF.
Proof.
  destruct (is_connected (connection self)) eqn:Hc.
  - destruct (is_connected_serial _ Hc) as [s Hs].
    assert (Hcon : connected_with self s) by (split; assumption).
    rewrite (monitor_poll_connected self s Hcon).
    rewrite (transport_log_connected _ _ Hcon).
    destruct (in_buffer s) as [|b rest] eqn:Hbuf.
    + eexists _, _. split; [reflexivity|]. split; [apply elapse_written|].
      intros info H. discriminate H.
    + eexists _, _. split; [reflexivity|].
      split; [cbn; rewrite elapse_written; reflexivity|].
      intros info H.
      destruct (Z.leb_spec 0xE0 b), (Z.leb_spec b 0xEF); cbn [andb] in H;
        try discriminate H.
      pose proof (target_length_pos b) as Hpos.
      replace (Z.to_nat (target_length b)) with (S (Z.to_nat (target_length b - 1)))
        in H by lia.
      cbn [take] in H.
      pose proof (handle_live_event_fields (b :: take (Z.to_nat (target_length b - 1)) rest))
        as Hev.
      rewrite H in Hev. destruct Hev as (_ & Hcmd & _). cbn in Hcmd.
      inversion Hcmd. lia.
  - assert (Hav : on_connection available self = (Ok 0, self)).
    { apply on_connection_available_closed, Hc. }
    unfold monitor_poll. rewrite (M_bind_Ok _ _ _ _ _ Hav).
    change (0 >? 0) with false. rewrite M_bind_unfold. cbn [mret M_ret].
    rewrite M_bind_unfold.
    pose proof (time_sleep_Ok self) as H1.
    pose proof (time_sleep_transport_log self) as H2.
    destruct (time_sleep self) as [r self1]. cbn in H1, H2. subst r.
    eexists _, _. split; [reflexivity|]. split; [exact H2|].
    intros info H. discriminate H.
Qed.

(** X21. What [monitor_events] can yield.  Over any number of turns and
    whatever the state of the panel and of the port, the loop yields at most
    one event per turn, every event it yields has its command byte in
    0xE0..0xEF, it is never left by an exception, and it writes nothing to
    the port. *)
Theorem monitor_events_yields (polls : nat) (self : ParadoxPanel) :
  let '(events, status, self') := monitor_events polls self in
  (length events ≤ polls)%nat ∧
  Forall (λ info, 0xE0 <= command info <= 0xEF) events ∧
  status = Ok tt ∧
  transport_log self' = transport_log self.
Proof.
  revert self. induction polls as [|polls IH]; intros self.
  { cbn. split; [lia|]. split; [constructor|]. auto. }
  cbn [monitor_events].
  destruct (monitor_poll_yield self) as (event & self1 & -> & Hlog & Hev).
  specialize (IH self1).
  destruct (monitor_events polls self1) as [[events status] self2].
  destruct IH as (Hlen & Hall & Hstatus & Hlog2).
  split.
  { rewrite length_app. destruct event; cbn; lia. }
  split.
  { apply Forall_app. split; [|exact Hall].
    destruct event as [info|]; cbn; [|constructor].
    constructor; [apply Hev; reflexivity|constructor]. }
  split; [exact Hstatus|]. rewrite Hlog2. exact Hlog.
Qed.

End monitor_more.

(** ** The modes of [arm_partition] *)

Section mode_facts.
Import serial connection panel.

(** X22. The modes of [arm_partition].  A mode that is not a key of
    [PARTITION_ACTIONS] is refused with [False] and nothing is sent,
    whatever the state of the panel; the keys are [arm_stay], [arm_sleep],
    [arm], [disarm], [arm_stay_instant] and [arm_instant] and no other
    string; and since [disarm] is one of them, [arm_partition] with the
    mode [disarm] does exactly what [disarm_partition] does. *)
Theorem arm_partition_modes
    (self : ParadoxPanel) (n : Z) (mode : string) (polls : nat) :
  (protocol.PARTITION_ACTIONS !! mode = None →
   arm_partition n mode polls self = (Ok false, self)) ∧
  (protocol.PARTITION_ACTIONS !! mode = None ↔
   mode ∉ ["arm_stay"; "arm_sleep"; "arm"; "disarm"; "arm_stay_instant";
           "arm_instant"]) ∧
  arm_partition n "disarm" polls self = disarm_partition n polls self.
Proof.
  split_and!.
  - intros H. unfold arm_partition. rewrite M_bind_unfold. cbn [get]. rewrite H.
    destruct (_authenticated self); reflexivity.
  - split.
    + intros H. apply not_elem_of_list_to_map_2 in H. exact H.
    + intros H. apply not_elem_of_list_to_map_1. exact H.
  - unfold arm_partition, disarm_partition.
    rewrite !(M_bind_unfold get). cbn [get].
    destruct (_authenticated self); reflexivity.
Qed.

End mode_facts.

(** ** The helpers of [commands.py] *)

Section helper_facts.
Import serial connection.

Lemma validate_checksum_frame_ok (f : list Z) :
  frame_ok f → commands.validate_checksum f = true.
Proof.
  intros [Hlen Hsum].
  destruct (split_last_byte f Hlen) as (payload & c & -> & Hp).
  rewrite validate_checksum_app by (intros ->; discriminate Hp).
  apply bool_decide_eq_true.
  rewrite lookup_app_r, Hp in Hsum by lia. cbn in Hsum.
  rewrite take_app_length' in Hsum by (symmetry; exact Hp).
  inversion Hsum. reflexivity.
Qed.

Variable self : SerialConnection.
Variable s : Serial.
Hypothesis Hconnected : is_connected self = true.
Hypothesis Hserial : connection.serial self = Some s.

Lemma send_frame (built : result (list Z)) (frame : list Z) :
  built = Ok frame →
  (cmd ← lift built; _ ← connection.write cmd; mret cmd) self = (Ok frame, sent self s frame).
Proof using Hconnected Hserial.
  intros ->. rewrite M_bind_unfold. unfold lift at 1.
  rewrite (M_bind_Ok _ _ _ _ _ (write_connected _ _ Hconnected Hserial frame)).
  reflexivity.
Qed.

(** X23. The helpers that send one frame, on an open connection and with
    byte arguments: each returns the frame it built, that frame is the one
    thing it wrote, it has 37 bytes and [validate_checksum] accepts it.
    [send_arm_command] and [send_bypass_command] put their argument at
    offset 5 as it is: they take the partition and the zone counted from 0,
    where the methods of the panel subtract 1. *)
Theorem send_helpers_write_valid_frames
    (partition action_code zone address records product_id fw0 fw1 fw2 panel_id
     pw0 pw1 : Z) :
  is_byte partition → is_byte action_code → is_byte zone → is_byte records →
  is_byte product_id → is_byte fw0 → is_byte fw1 → is_byte fw2 →
  is_byte pw0 → is_byte pw1 →
  (∃ f, commands.send_initiate_communication self = (Ok f, sent self s f) ∧
        frame_ok f ∧ commands.validate_checksum f = true ∧
        protocol.build_initiate_communication 0 = Ok f) ∧
  (∃ f, commands.send_initialize_mgsp [pw0; pw1] product_id (fw0, fw1, fw2) panel_id self
          = (Ok f, sent self s f) ∧
        frame_ok f ∧ commands.validate_checksum f = true ∧
        protocol.build_initialize_communication_mgsp
          product_id (fw0, fw1, fw2) panel_id [pw0; pw1] 1 0 = Ok f) ∧
  (∃ f, commands.send_arm_command partition action_code self = (Ok f, sent self s f) ∧
        frame_ok f ∧ commands.validate_checksum f = true ∧
        f !! 4%nat = Some action_code ∧ f !! 5%nat = Some partition) ∧
  (∃ f, commands.send_bypass_command zone self = (Ok f, sent self s f) ∧
        frame_ok f ∧ commands.validate_checksum f = true ∧
        f !! 4%nat = Some 0x10 ∧ f !! 5%nat = Some zone) ∧
  (∃ f, commands.send_read_eeprom address records self = (Ok f, sent self s f) ∧
        frame_ok f ∧ commands.validate_checksum f = true ∧
        protocol.build_read_eeprom address records 1 0 = Ok f).
Proof using Hconnected Hserial.
  intros Hpart Hact Hzone Hrec Hprod H0 H1 H2 Hw0 Hw1.
  assert (Hone : is_byte 1) by (unfold is_byte; lia).
  assert (Hzero : is_byte 0) by (unfold is_byte; lia).
  assert (Hbypass : is_byte 16) by (unfold is_byte; lia).
  split_and!.
  - pose proof (build_initiate_communication_Ok 0 Hzero) as Hb.
    eexists. split; [apply send_frame; exact Hb|].
    assert (Hok : frame_ok ([0x72] ++ replicate 34 0 ++ [0; (0x72 + 0) mod 256]))
      by frame_ok_explicit.
    split; [exact Hok|]. split; [apply validate_checksum_frame_ok, Hok|exact Hb].
  - pose proof (build_initialize_communication_mgsp_Ok
                  product_id fw0 fw1 fw2 panel_id pw0 pw1 1 0
                  Hprod H0 H1 H2 Hw0 Hw1 Hone Hzero) as Hb.
    eexists. split; [apply send_frame; exact Hb|].
    match type of Hb with
    | _ = Ok ?f => assert (Hok : frame_ok f) by frame_ok_explicit
    end.
    split; [exact Hok|]. split; [apply validate_checksum_frame_ok, Hok|exact Hb].
  - pose proof (build_perform_action_Ok action_code partition 1 0
                  Hact Hpart Hone Hzero) as Hb.
    eexists. split; [apply send_frame; exact Hb|].
    match type of Hb with
    | _ = Ok ?f => assert (Hok : frame_ok f) by frame_ok_explicit
    end.
    split; [exact Hok|]. split; [apply validate_checksum_frame_ok, Hok|].
    split; reflexivity.
  - pose proof (build_perform_action_Ok 16 zone 1 0 Hbypass Hzone Hone Hzero) as Hb.
    eexists. split.
    { unfold commands.send_bypass_command.
      change (protocol.ZONE_ACTIONS !! "bypass") with (Some 16).
      rewrite M_bind_unfold. unfold lift at 1. apply send_frame. exact Hb. }
    match type of Hb with
    | _ = Ok ?f => assert (Hok : frame_ok f) by frame_ok_explicit
    end.
    split; [exact Hok|]. split; [apply validate_checksum_frame_ok, Hok|].
    split; reflexivity.
  - pose proof (build_read_eeprom_Ok address records 1 0 Hrec Hone Hzero) as Hb.
    eexists. split; [apply send_frame; exact Hb|].
    match type of Hb with
    | _ = Ok ?f => assert (Hok : frame_ok f) by frame_ok_explicit
    end.
    split; [exact Hok|]. split; [apply validate_checksum_frame_ok, Hok|exact Hb].
Qed.

End helper_facts.

Section name_facts.

Lemma unknown_names_checked : forallb unknown_name_checked (seqZ 0 256) = true.
Proof. vm_compute. reflexivity. Qed.

(** X24. The name of an action code.  [get_action_name] gives back the
    name of every entry of [PARTITION_ACTIONS] and of [PGM_ACTIONS] from
    its code; for the code of [ZONE_ACTIONS] it gives [bypass], the first of
    the two names that share it, so [clear_bypass] is never returned; and
    for a byte that is no action code it gives [unknown_0x] followed by the
    two upper-case hexadecimal digits of the byte. *)
Theorem get_action_name_round_trip (name : string) (code : Z) :
  (protocol.PARTITION_ACTIONS !! name = Some code →
   commands.get_action_name code = name) ∧
  (protocol.PGM_ACTIONS !! name = Some code →
   commands.get_action_name code = name) ∧
  (protocol.ZONE_ACTIONS !! name = Some code →
   commands.get_action_name code = "bypass") ∧
  (is_byte code → code ∉ action_codes →
   commands.get_action_name code = unknown_name code).
Proof.
  split_and!.
  - intros H. apply elem_of_list_to_map_2 in H.
    repeat (apply elem_of_cons in H as [H|H]; [inversion H; reflexivity|]).
    apply elem_of_nil in H. contradiction.
  - intros H. apply elem_of_list_to_map_2 in H.
    repeat (apply elem_of_cons in H as [H|H]; [inversion H; reflexivity|]).
    apply elem_of_nil in H. contradiction.
  - intros H. apply elem_of_list_to_map_2 in H.
    repeat (apply elem_of_cons in H as [H|H]; [inversion H; reflexivity|]).
    apply elem_of_nil in H. contradiction.
  - intros [H0 H1] Hnot.
    pose proof unknown_names_checked as Hall.
    rewrite forallb_forall in Hall. specialize (Hall code).
    unfold unknown_name_checked in Hall.
    rewrite bool_decide_false in Hall by exact Hnot. cbn [orb] in Hall.
    apply String.eqb_eq, Hall, list_elem_of_In, elem_of_seqZ. lia.
Qed.

(** X25. How [parse_perform_action_response] classifies an answer.  An
    input of fewer than two bytes gives [None]; any longer input gives a
    record whose command is the first byte, whose [success] holds exactly
    for 0x40, and whose result is [success], [fail], [invalid_argument] or
    [user_code_required] exactly for 0x40, 0x41, 0x42 and 0x43 and
    [unknown] for every other first byte, inside 0x40..0x4F or not. *)
Theorem parse_perform_action_response_classes (data : list Z) :
  match commands.parse_perform_action_response data with
  | None => (length data < 2)%nat
  | Some info =>
      (2 ≤ length data)%nat ∧
      data !! 0%nat = Some (commands.command info) ∧
      (commands.success info = true ↔ commands.command info = 0x40) ∧
      (commands.result_name info = "success" ↔ commands.command info = 0x40) ∧
      (commands.result_name info = "fail" ↔ commands.command info = 0x41) ∧
      (commands.result_name info = "invalid_argument" ↔ commands.command info = 0x42) ∧
      (commands.result_name info = "user_code_required" ↔
         commands.command info = 0x43) ∧
      (commands.result_name info = "unknown" ↔
         ¬ 0x40 <= commands.command info <= 0x43)
  end.
Proof.
  unfold commands.parse_perform_action_response.
  destruct (Nat.ltb_spec (length data) 2) as [Hlt|Hge]; [exact Hlt|].
  destruct data as [|c rest]; [cbn in Hge; lia|].
  cbn [commands.command commands.success commands.result_name].
  split; [exact Hge|]. split; [reflexivity|].
  split; [apply bool_decide_eq_true|].
  destruct (decide (c = 0x40)) as [->|H40]; [split_and!; split; intros H; first [discriminate H|lia|reflexivity]|].
  destruct (decide (c = 0x41)) as [->|H41]; [split_and!; split; intros H; first [discriminate H|lia|reflexivity]|].
  destruct (decide (c = 0x42)) as [->|H42]; [split_and!; split; intros H; first [discriminate H|lia|reflexivity]|].
  destruct (decide (c = 0x43)) as [->|H43]; [split_and!; split; intros H; first [discriminate H|lia|reflexivity]|].
  assert (Hnone : commands.result_codes !! c = None).
  { apply not_elem_of_list_to_map_1. cbn. rewrite !elem_of_cons, elem_of_nil. lia. }
  rewrite Hnone. cbn [default].
  split_and!; split; intros H; first [discriminate H|lia|reflexivity].
Qed.

End name_facts.

(** ** The handlers of the menu *)

Section handler_facts.
Import serial connection panel.

Variable self : ParadoxPanel.
Variable s : Serial.
Hypothesis Hcon : connected_with self s.

(** An action command from a handler: either the panel is not
    authenticated and nothing happens, or one frame goes out. *)
Lemma action_from_handler action argument polls (m : M ParadoxPanel bool) :
  is_byte action → is_byte argument →
  (_authenticated self = false → m self = (Ok false, self)) →
  (_authenticated self = true →
   m self =
   (lift (protocol.build_perform_action action argument 0x01 0x00) ≫= λ cmd,
      send_command cmd (Some (seqZ 0x40 0x10)) polls ≫= λ response,
        match response with
        | Some (result_code :: _) =>
            if result_code =? 0x40 then mret true else mret false
        | _ => mret false
        end) self) →
  ∃ success self',
    m self = (Ok success, self') ∧
    (transport_log self' = transport_log self ∨
     ∃ frame,
       transport_log self' = transport_log self ++ [frame] ∧
       length frame = 37%nat ∧
       frame !! 4%nat = Some action ∧ frame !! 5%nat = Some argument).
Proof using Hcon.
  intros Ha Hg Hno Hyes. destruct (_authenticated self) eqn:Hauth.
  - destruct (perform_action_connected self s action argument polls Hcon Ha Hg)
      as (frame & response & success & self' & _ & _ & Hrun & Hlog & Hlen & H4 & H5 & _).
    exists success, self'. rewrite (Hyes eq_refl). split; [exact Hrun|].
    right. exists frame. auto.
  - exists false, self. rewrite (Hno eq_refl). auto.
Qed.

Lemma arm_partition_from_handler partition mode code polls :
  protocol.PARTITION_ACTIONS !! mode = Some code → 1 <= partition <= 8 →
  ∃ success self',
    arm_partition partition mode polls self = (Ok success, self') ∧
    (transport_log self' = transport_log self ∨
     ∃ frame,
       transport_log self' = transport_log self ++ [frame] ∧
       length frame = 37%nat ∧
       frame !! 4%nat = Some code ∧ frame !! 5%nat = Some (partition - 1)).
Proof using Hcon.
  intros Hcode Hp. apply (action_from_handler code (partition - 1) polls).
  - eapply PARTITION_ACTIONS_byte, Hcode.
  - unfold is_byte. lia.
  - intros Hauth. unfold arm_partition. rewrite M_bind_unfold. cbn [get].
    rewrite Hauth. reflexivity.
  - intros Hauth. unfold arm_partition. rewrite M_bind_unfold. cbn [get].
    rewrite Hauth, Hcode. reflexivity.
Qed.

(** X26. The handlers of the menu keep to the documented ranges.  On an
    open connection no call that a handler makes on the panel raises,
    whatever was typed, and a handler either writes nothing or writes
    exactly one 37-byte frame: an arm
    command with one of the five arm codes (never the code of [disarm]) and
    a partition 1..8 as [partition - 1] at offset 5; a disarm command
    with code 0x05 and a partition 1..8; a bypass command with code 0x10
    and a zone 1..192; a read command for the address that
    [int(address_str, 16)] gives and 1..32 records.  Input outside these
    ranges, and an address that [int] refuses, write nothing. *)
Theorem handlers_keep_to_the_ranges
    (mode_choice partition zone records : Z) (address_str : string) (polls : nat) :
  (∃ outcome self',
     main.handle_arm_partition mode_choice partition polls self = (Ok outcome, self') ∧
     (transport_log self' = transport_log self ∨
      ∃ frame action,
        transport_log self' = transport_log self ++ [frame] ∧
        length frame = 37%nat ∧
        frame !! 4%nat = Some action ∧ action ∈ [0x04; 0x01; 0x02; 0x07; 0x06] ∧
        frame !! 5%nat = Some (partition - 1) ∧ 1 <= partition <= 8)) ∧
  (∃ outcome self',
     main.handle_disarm_partition partition polls self = (Ok outcome, self') ∧
     (transport_log self' = transport_log self ∨
      ∃ frame,
        transport_log self' = transport_log self ++ [frame] ∧
        length frame = 37%nat ∧ frame !! 4%nat = Some 0x05 ∧
        frame !! 5%nat = Some (partition - 1) ∧ 1 <= partition <= 8)) ∧
  (∃ outcome self',
     main.handle_bypass_zone zone polls self = (Ok outcome, self') ∧
     (transport_log self' = transport_log self ∨
      ∃ frame,
        transport_log self' = transport_log self ++ [frame] ∧
        length frame = 37%nat ∧ frame !! 4%nat = Some 0x10 ∧
        frame !! 5%nat = Some (zone - 1) ∧ 1 <= zone <= 192)) ∧
  (∃ outcome self',
     main.handle_read_status address_str records polls self = (Ok outcome, self') ∧
     (transport_log self' = transport_log self ∨
      ∃ frame address,
        transport_log self' = transport_log self ++ [frame] ∧
        int_16 address_str = Ok address ∧
        protocol.build_read_eeprom address records 0x01 0x00 = Ok frame ∧
        1 <= records <= 32)).
Proof using Hcon.
  split_and!.
  - unfold main.handle_arm_partition.
    destruct (Z.eqb_spec mode_choice 0) as [->|Hm]; [eexists _, _; split; [reflexivity|auto]|].
    destruct (main.mode_map !! mode_choice) as [mode|] eqn:Hmode;
      [|eexists _, _; split; [reflexivity|auto]].
    destruct (Z.leb_spec 1 partition), (Z.leb_spec partition 8); cbn [andb negb];
      try (eexists _, _; split; [reflexivity|auto]; fail).
    apply elem_of_list_to_map_2 in Hmode.
    assert (∃ code, protocol.PARTITION_ACTIONS !! mode = Some code ∧
                    code ∈ [4; 1; 2; 7; 6]) as (code & Hcode & Hin).
    { repeat (apply elem_of_cons in Hmode as [Hmode|Hmode];
              [inversion Hmode; subst; eexists; split; [reflexivity|set_solver]|]).
      apply elem_of_nil in Hmode. contradiction. }
    destruct (arm_partition_from_handler partition mode code polls Hcode)
      as (success & self' & Hrun & Hlog); [lia|].
    exists (main.CommandSent success), self'.
    rewrite (M_bind_Ok _ _ _ _ _ Hrun). split; [reflexivity|].
    destruct Hlog as [Hlog|(frame & Hlog & Hlen & H4 & H5)]; [auto|].
    right. exists frame, code. split_and!; auto; lia.
  - unfold main.handle_disarm_partition.
    destruct (Z.leb_spec 1 partition), (Z.leb_spec partition 8); cbn [andb negb];
      try (eexists _, _; split; [reflexivity|auto]; fail).
    destruct (action_from_handler 5 (partition - 1) polls (disarm_partition partition polls))
      as (success & self' & Hrun & Hlog).
    + unfold is_byte. lia.
    + unfold is_byte. lia.
    + intros Hauth. unfold disarm_partition. rewrite M_bind_unfold. cbn [get].
      rewrite Hauth. reflexivity.
    + intros Hauth. unfold disarm_partition. rewrite M_bind_unfold. cbn [get].
      rewrite Hauth. reflexivity.
    + exists (main.CommandSent success), self'.
      rewrite (M_bind_Ok _ _ _ _ _ Hrun). split; [reflexivity|].
      destruct Hlog as [Hlog|(frame & Hlog & Hlen & H4 & H5)]; [auto|].
      right. exists frame. split_and!; auto; lia.
  - unfold main.handle_bypass_zone.
    destruct (Z.leb_spec 1 zone), (Z.leb_spec zone 192); cbn [andb negb];
      try (eexists _, _; split; [reflexivity|auto]; fail).
    destruct (action_from_handler 16 (zone - 1) polls (bypass_zone zone polls))
      as (success & self' & Hrun & Hlog).
    + unfold is_byte. lia.
    + unfold is_byte. lia.
    + intros Hauth. unfold bypass_zone. rewrite M_bind_unfold. cbn [get].
      rewrite Hauth. reflexivity.
    + intros Hauth. unfold bypass_zone. rewrite M_bind_unfold. cbn [get].
      rewrite Hauth. reflexivity.
    + exists (main.CommandSent success), self'.
      rewrite (M_bind_Ok _ _ _ _ _ Hrun). split; [reflexivity|].
      destruct Hlog as [Hlog|(frame & Hlog & Hlen & H4 & H5)]; [auto|].
      right. exists frame. split_and!; auto; lia.
  - unfold main.handle_read_status.
    destruct (int_16 address_str) as [address|e] eqn:Haddr.
    2:{ apply int_16_Raise in Haddr. subst e.
        eexists _, _. split; [reflexivity|auto]. }
    destruct (Z.leb_spec 1 records), (Z.leb_spec records 32); cbn [andb negb];
      try (eexists _, _; split; [reflexivity|auto]; fail).
    destruct (_authenticated self) eqn:Hauth.
    + assert (Hr : is_byte records) by (unfold is_byte; lia).
      assert (Hone : is_byte 1) by (unfold is_byte; lia).
      assert (Hzero : is_byte 0) by (unfold is_byte; lia).
      pose proof (build_read_eeprom_Ok address records 1 0 Hr Hone Hzero) as Hbuild.
      match type of Hbuild with
      | _ = Ok ?f => set (cmd := f) in *
      end.
      destruct (send_command_connected self s cmd (seqZ 80 16) polls Hcon)
        as (response & s' & Hsend & Ho & Hw).
      assert (Hrun : ∃ data,
        read_status address records polls self = (Ok data, with_serial self s')).
      { unfold read_status. rewrite M_bind_unfold. cbn [get]. rewrite Hauth.
        cbn [negb]. rewrite M_bind_unfold. unfold lift at 1. rewrite Hbuild.
        rewrite (M_bind_Ok _ _ _ _ _ Hsend).
        destruct response as [[|c r]|]; [eauto| |eauto].
        destruct (protocol.ReadEEPROMResponse.parse (c :: r)); eauto. }
      destruct Hrun as [data Hrun].
      exists (main.DataRead data), (with_serial self s').
      rewrite (M_bind_Ok _ _ _ _ _ Hrun). split; [reflexivity|].
      right. exists cmd, address.
      split; [cbn; rewrite Hw, (transport_log_connected _ _ Hcon); reflexivity|].
      split; [reflexivity|]. split; [exact Hbuild|lia].
    + exists (main.DataRead None), self.
      assert (Hrun : read_status address records polls self = (Ok None, self)).
      { unfold read_status. rewrite M_bind_unfold. cbn [get]. rewrite Hauth.
        reflexivity. }
      rewrite (M_bind_Ok _ _ _ _ _ Hrun). split; [reflexivity|auto].
Qed.

End handler_facts.

(** ** The further properties at sample states *)

Lemma read_variable_length_conserves_witness :
  let buffered := [10; 1; 2; 3; 4; 5; 6; 7; 8; 9; 11; 12] in
  let self := example_connection buffered [] in
  (∃ frame s',
     connection.read_variable_length 8 (Some 1) self =
       (Ok frame, connection.set_serial self s') ∧
     frame ++ serial.in_buffer s' = buffered ∧
     serial.timeout s' = 5 ∧
     (length frame <= 37)%nat) ∧
  connection.read_variable_length 8 (Some (-1)) self =
    (Raise (serial.invalid_timeout (-1)), self).
Proof.
  intros buffered self. split.
  - destruct (read_variable_length_conserves self (example_serial buffered []) 8 4 (Some 1)
                eq_refl eq_refl)
      as [Hread _].
    destruct Hread as (frame & s' & Hrun & Hbuf & Htimeout & _ & _ & _ & Hlen);
      [cbn; lia|].
    exists frame, s'. split; [exact Hrun|]. split; [exact Hbuf|].
    split; [exact Htimeout|exact Hlen].
  - apply (read_variable_length_conserves self (example_serial buffered []) 8 4
             (Some (-1)) eq_refl eq_refl); [reflexivity|lia].
Defined.

Lemma commands_on_closed_connection_witness :
  let self := example_closed_panel in
  panel.arm_partition 3 "arm" 3 self = (Raise connection.not_connected, self) ∧
  panel.read_status 0 1 3 self = (Raise connection.not_connected, self) ∧
  (panel.wait_for_response 3 [0x40] self).1 = Ok None.
Proof.
  intros self.
  destruct (commands_on_closed_connection self 3 "arm" 4 0 1 3 [0x40])
    as (Harm & _ & _ & Hread & _ & Hwait).
  - reflexivity.
  - reflexivity.
  - reflexivity.
  - lia.
  - unfold is_byte. lia.
  - split; [exact Harm|]. split; [exact Hread|exact Hwait].
Defined.

Lemma builders_wrap_16_bit_fields_witness :
  ∃ f c,
    protocol.build_read_eeprom 0x11234 3 1 0 = Ok f ∧
    protocol.ReadEEPROM.parse f = Ok c ∧
    protocol.ReadEEPROM.address c = 0x11234 mod 65536 ∧
    protocol.build_read_eeprom (0x11234 + 65536 * -1) 3 1 0 = Ok f.
Proof.
  apply (builders_wrap_16_bit_fields 0x11234 1234 (-1) 3 99 4 2 1 0x12 0x34 1);
    unfold is_byte; lia.
Defined.

Lemma build_initialize_communication_mgsp_password_length_witness :
  ∃ f,
    protocol.build_initialize_communication_mgsp 99 (4, 2, 1) 1234 [1; 2; 3] 1 0 = Ok f ∧
    length f = 38%nat.
Proof.
  pose proof (build_initialize_communication_mgsp_password_length
                99 4 2 1 1234 1 0 [1; 2; 3]) as H.
  cbv zeta in H.
  destruct (protocol.build_initialize_communication_mgsp 99 (4, 2, 1) 1234 [1; 2; 3] 1 0)
    as [f|e].
  - exists f. split; [reflexivity|].
    apply H; first [ (unfold is_byte; lia)
                   | (repeat (constructor; [unfold is_byte; lia|]); constructor) ].
  - exfalso.
    assert (Hn : (length [1; 2; 3] < 2)%nat); [|cbn in Hn; lia].
    apply H; first [ (unfold is_byte; lia)
                   | (repeat (constructor; [unfold is_byte; lia|]); constructor) ].
Defined.

Lemma validate_checksum_blind_spots_witness :
  commands.validate_checksum ([2; 1] ++ [3]) = commands.validate_checksum ([1; 2] ++ [3]).
Proof.
  apply (validate_checksum_blind_spots [1; 2] [2; 1] 3).
  left. apply perm_swap.
Defined.

Lemma send_command_answer_from_the_stream_witness :
  let self := example_panel "1234" (Some example_identity) true [7; 1; 2] [answer 0x40] in
  let cmd := [0x40] ++ replicate 36 0 in
  (panel.send_command cmd (Some (seqZ 0x40 0x10)) 3 self).1 = Ok (Some (answer 0x40)) ∧
  ∃ skipped k s',
    transport_log (panel.send_command cmd (Some (seqZ 0x40 0x10)) 3 self).2 = [cmd] ∧
    [7; 1; 2] ++ concat (take k [answer 0x40]) =
      skipped ++ answer 0x40 ++ serial.in_buffer s'.
Proof.
  intros self cmd. split; [reflexivity|].
  destruct (send_command_answer_from_the_stream
              3 cmd (seqZ 0x40 0x10) self
              (panel.send_command cmd (Some (seqZ 0x40 0x10)) 3 self).2
              (example_serial [7; 1; 2] [answer 0x40]) (answer 0x40))
    as (c & rest & skipped & k & s' & _ & _ & _ & _ & Hself & Hw & Hstream & _).
  - split; reflexivity.
  - vm_compute. reflexivity.
  - exists skipped, k, s'. split; [|exact Hstream].
    rewrite Hself. cbn. rewrite Hw. reflexivity.
Defined.

Lemma listed_product_cannot_authenticate_witness :
  let self := example_panel "1234" None false [] [example_response] in
  let self1 := (panel.initiate_communication 3 self).2 in
  panel.panel_info self1 = Some example_listed_identity ∧
  panel.initialize_communication 3 self1 = (Raise not_an_integer, self1).
Proof.
  intros self self1. split; [reflexivity|].
  apply (listed_product_cannot_authenticate self self1 example_listed_identity
           [0x12; 0x34] 3 3).
  - vm_compute. reflexivity.
  - repeat constructor.
  - reflexivity.
Defined.

Lemma initialize_communication_outcome_witness :
  let self := example_panel "1234" (Some example_identity) false [] [answer 0x10] in
  ∃ frame response self',
    protocol.build_initialize_communication_mgsp 99 (4, 2, 1) 1234 [0x12; 0x34] 1 0
      = Ok frame ∧
    frame_ok frame ∧
    (panel.send_command frame (Some [0x10; 0x70]) 3 self).1 = Ok response ∧
    panel.initialize_communication 3 self = (Ok true, self') ∧
    panel._authenticated self' = true ∧
    ∃ r, response = Some r ∧ (length r ≤ 16)%nat.
Proof.
  intros self.
  destruct (initialize_communication_outcome
              self (example_serial [] [answer 0x10]) example_identity
              99 4 2 1 [0x12; 0x34] 3)
    as (frame & response & success & self' & Hb & Hok & Hsend & Hrun & _ & Hauth & _ & _ & Hcut);
    try reflexivity; try (unfold is_byte; lia).
  - split; reflexivity.
  - assert (Hsuccess : success = true).
    { assert (H : (panel.initialize_communication 3 self).1 = Ok true) by reflexivity.
      rewrite Hrun in H. inversion H. reflexivity. }
    subst success.
    exists frame, response, self'.
    split; [exact Hb|]. split; [exact Hok|]. split; [exact Hsend|].
    split; [exact Hrun|]. split; [exact Hauth|]. apply Hcut. reflexivity.
Defined.

Lemma initiate_communication_discards_stale_input_witness :
  let self := example_panel "1234" None false [] [example_response] in
  let s := example_serial [] [example_response] in
  panel.initiate_communication 3 (with_serial self (example_serial [1; 2; 3] [example_response]))
    = panel.initiate_communication 3 (with_serial self s).
Proof.
  intros self s.
  apply (initiate_communication_discards_stale_input self s [1; 2; 3] 3).
  split; reflexivity.
Defined.


Lemma send_helpers_write_valid_frames_witness :
  let self := example_connection [] [] in
  ∃ f,
    commands.send_arm_command 2 4 self = (Ok f, sent self (example_serial [] []) f) ∧
    frame_ok f ∧ commands.validate_checksum f = true ∧
    f !! 4%nat = Some 4 ∧ f !! 5%nat = Some 2.
Proof.
  intros self.
  apply (send_helpers_write_valid_frames
           self (example_serial [] []) eq_refl eq_refl
           2 4 7 0x0010 1 99 4 2 1 1234 0x12 0x34);
    unfold is_byte; lia.
Defined.

Lemma handlers_keep_to_the_ranges_witness :
  let self := example_panel "1234" (Some example_identity) true [] [answer 0x40] in
  ∃ outcome self',
    main.handle_arm_partition 2 3 3 self = (Ok outcome, self') ∧
    (transport_log self' = transport_log self ∨
     ∃ frame action,
       transport_log self' = transport_log self ++ [frame] ∧
       length frame = 37%nat ∧
       frame !! 4%nat = Some action ∧ action ∈ [0x04; 0x01; 0x02; 0x07; 0x06] ∧
       frame !! 5%nat = Some (3 - 1) ∧ 1 <= 3 <= 8).
Proof.
  intros self.
  apply (handlers_keep_to_the_ranges self (example_serial [] [answer 0x40])
           (conj eq_refl eq_refl) 2 3 7 1 "0010" 3).
Defined.

Lemma initialize_communication_refusals_witness :
  let unidentified := example_panel "zzzz" None false [] [answer 0x10] in
  let listed := example_panel "1234" (Some example_listed_identity) false [] [answer 0x10] in
  panel.initialize_communication 3 unidentified = (Ok false, unidentified) ∧
  panel.initialize_communication 3 listed = (Raise not_an_integer, listed).
Proof.
  intros unidentified listed. split.
  - apply (initialize_communication_refusals unidentified 3). reflexivity.
  - apply (proj2 (proj2 (initialize_communication_refusals listed 3))
             example_listed_identity 4 "MAGELLAN_MG5050" [0x12; 0x34]); reflexivity.
Defined.

Lemma arm_partition_modes_witness :
  let self := example_panel "1234" (Some example_identity) true [] [answer 0x40] in
  panel.arm_partition 3 "arm_away" 3 self = (Ok false, self).
Proof.
  intros self. apply (arm_partition_modes self 3 "arm_away" 3). reflexivity.
Defined.

Lemma get_action_name_round_trip_witness :
  commands.get_action_name 0x04 = "arm" ∧
  commands.get_action_name 0x10 = "bypass" ∧
  commands.get_action_name 0xAB = "unknown_0xAB".
Proof.
  split; [apply (proj1 (get_action_name_round_trip "arm" 0x04)); reflexivity|].
  split.
  { apply (proj1 (proj2 (proj2 (get_action_name_round_trip "clear_bypass" 0x10)))).
    reflexivity. }
  apply (proj2 (proj2 (proj2 (get_action_name_round_trip "" 0xAB)))).
  - unfold is_byte. lia.
  - unfold action_codes. rewrite !elem_of_cons, elem_of_nil. lia.
Defined.
